(** * PlainView: telemetry pipeline, incident correlator, missions, ROS2 bridge

    A shallow embedding of the server modules of the PlainView API
    (services/api/src): the FlowIQ anomaly detector, the incident
    correlator, the mission playback routes, the ROS2 bridge and the
    event bus they share.

    Conventions of the embedding
    - JavaScript numbers that carry measurements are rationals ([Q]); the
      rounding of IEEE doubles is not modelled.  Millisecond clock values
      ([Date.now()]) are integers ([Z]); an ISO-8601 time stamp produced by
      [new Date().toISOString()] is represented by the millisecond value it
      encodes.
    - Module-level variables are the fields of a per-module record; a
      program is a function on a context holding these variables, the
      outside world (clock and random source) and the trace of events
      published on the bus.
    - A JavaScript [Map] is an association list in insertion order. *)

From Stdlib Require Import ZArith QArith Qabs Qround List String Ascii Bool Lia.
From Stdlib Require Import DecimalString Lqa Permutation.
Import ListNotations.

Local Close Scope Q_scope.
Local Open Scope string_scope.
Local Open Scope list_scope.

(* ================================================================== *)
(** ** JavaScript runtime pieces used by the modules *)
(* ================================================================== *)

Module Js.

(** The outside world: [time_at w n] is the value returned by the
    [n]-th call of [Date.now()], [rand_at w n] the value of the [n]-th
    call of [Math.random()], and [base36 w q] the text of
    [q.toString(36).substr(2, 9)]. *)
Record World := mkWorld {
  time_at : nat -> Z;
  reads : nat;
  rand_at : nat -> Q;
  draws : nat;
  base36 : Q -> string
}.

(** A running program sees the module variables [vars], the world and
    the events published so far (oldest first). *)
Record Ctx (S E : Type) := mkCtx {
  vars : S;
  env : World;
  published : list E
}.
Arguments mkCtx {S E} _ _ _.
Arguments vars {S E} _.
Arguments env {S E} _.
Arguments published {S E} _.

Definition Prog (S E A : Type) := Ctx S E -> A * Ctx S E.

Definition ret {S E A} (a : A) : Prog S E A := fun c => (a, c).

Definition bind {S E A B} (m : Prog S E A) (k : A -> Prog S E B) : Prog S E B :=
  fun c => let (a, c') := m c in k a c'.

Definition getv {S E} : Prog S E S := fun c => (vars c, c).

Definition putv {S E} (s : S) : Prog S E unit :=
  fun c => (tt, mkCtx s (env c) (published c)).

Definition modify {S E} (f : S -> S) : Prog S E unit :=
  fun c => (tt, mkCtx (f (vars c)) (env c) (published c)).

(** [bus.emit("event", e)] with listeners that return normally: the
    event joins the trace. *)
Definition publish {S E} (e : E) : Prog S E unit :=
  fun c => (tt, mkCtx (vars c) (env c) (published c ++ [e])).

Definition tick (w : World) : World :=
  mkWorld (time_at w) (S (reads w)) (rand_at w) (draws w) (base36 w).

Definition roll (w : World) : World :=
  mkWorld (time_at w) (reads w) (rand_at w) (S (draws w)) (base36 w).

(** [Date.now()] *)
Definition dateNow {S E} : Prog S E Z :=
  fun c => (time_at (env c) (reads (env c)),
            mkCtx (vars c) (tick (env c)) (published c)).

(** [Math.random()] *)
Definition mathRandom {S E} : Prog S E Q :=
  fun c => (rand_at (env c) (draws (env c)),
            mkCtx (vars c) (roll (env c)) (published c)).

Definition render36 {S E} (q : Q) : Prog S E string :=
  fun c => (base36 (env c) q, c).

(** Run a program written for the variables [S] inside a larger record
    of variables [T]. *)
Definition zoom {S T E A} (get : T -> S) (set : S -> T -> T)
    (p : Prog S E A) : Prog T E A :=
  fun c =>
    let (a, c') := p (mkCtx (get (vars c)) (env c) (published c)) in
    (a, mkCtx (set (vars c') (vars c)) (env c') (published c')).

Definition string_of_Z (z : Z) : string :=
  NilZero.string_of_int (Z.to_int z).

(** The truthiness of a string-valued property that may be absent. *)
Definition truthy_str (o : option string) : bool :=
  match o with
  | Some s => negb (String.eqb s "")
  | None => false
  end.

(** [o || d] for a string-valued property. *)
Definition or_str (o : option string) (d : string) : string :=
  match o with
  | Some s => if String.eqb s "" then d else s
  | None => d
  end.

(** The truthiness of a number-valued property that may be absent. *)
Definition truthy_num (o : option Q) : bool :=
  match o with
  | Some q => negb (Qeq_bool q 0%Q)
  | None => false
  end.

(** [x > y] on numbers. *)
Definition Qgtb (x y : Q) : bool := negb (Qle_bool x y).

(** [Math.max] and [Math.min]. *)
Definition Qmax (x y : Q) : Q := if Qle_bool x y then y else x.
Definition Qmin (x y : Q) : Q := if Qle_bool x y then x else y.

(** [Array.prototype.slice(-n)] for a positive [n], [push] and [shift]. *)
Definition slice_last {A} (n : nat) (l : list A) : list A :=
  skipn (List.length l - n) l.
Definition push {A} (l : list A) (x : A) : list A := l ++ [x].
Definition shift {A} (l : list A) : list A := tl l.

(** [s.includes(sub)] *)
Definition includes (s sub : string) : bool :=
  match String.index 0 sub s with
  | Some _ => true
  | None => false
  end.

(** [toUpperCase] on the ASCII letters; other characters are kept. *)
Definition upper_ascii (a : ascii) : ascii :=
  let n := nat_of_ascii a in
  if andb (Nat.leb 97 n) (Nat.leb n 122) then ascii_of_nat (n - 32) else a.

Fixpoint toUpperCase (s : string) : string :=
  match s with
  | EmptyString => EmptyString
  | String a rest => String (upper_ascii a) (toUpperCase rest)
  end.

End Js.

Declare Scope prog_scope.
Delimit Scope prog_scope with prog.
Notation "x <- m ;; k" := (Js.bind m (fun x => k))
  (at level 61, m at next level, right associativity) : prog_scope.
Notation "m ;;; k" := (Js.bind m (fun _ => k))
  (at level 61, right associativity) : prog_scope.
Local Open Scope prog_scope.

(** ** A JavaScript [Map] with string keys, in insertion order *)

Module JsMap.

Definition t (V : Type) := list (string * V).

Fixpoint get {V} (k : string) (m : t V) : option V :=
  match m with
  | [] => None
  | (k', v) :: rest => if String.eqb k k' then Some v else get k rest
  end.

Definition has {V} (k : string) (m : t V) : bool :=
  match get k m with Some _ => true | None => false end.

(** [m.set(k, v)]: an existing key keeps its position. *)
Fixpoint set {V} (k : string) (v : V) (m : t V) : t V :=
  match m with
  | [] => [(k, v)]
  | (k', v') :: rest =>
      if String.eqb k k' then (k, v) :: rest else (k', v') :: set k v rest
  end.

(** In-place mutation of the object stored under [k]. *)
Fixpoint update {V} (k : string) (f : V -> V) (m : t V) : t V :=
  match m with
  | [] => []
  | (k', v) :: rest =>
      if String.eqb k k' then (k', f v) :: rest else (k', v) :: update k f rest
  end.

Definition values {V} (m : t V) : list V := map snd m.
Definition keys {V} (m : t V) : list string := map fst m.

End JsMap.

(* ================================================================== *)
(** ** Shared types (packages/shared/src/index.ts, src/sse.ts) *)
(* ================================================================== *)

Record FlowMetrics := mkFlowMetrics {
  flowRateLpm : Q;
  pressurePa : Q;
  temperatureC : Q;
  timestamp : Z
}.

Inductive AnomalyType :=
  | flow_rate_deviation | pressure_deviation | temperature_spike | viscosity_change.

Inductive AnomalySeverity := sev_low | sev_medium | sev_high.

(** The [metrics] field of an anomaly repeats [actualValue] under the
    name of the metric and is not kept apart. *)
Record FlowAnomaly := mkFlowAnomaly {
  anomaly_id : string;
  anomaly_type : AnomalyType;
  anomaly_severity : AnomalySeverity;
  detectedAt : Z;
  expectedRange : Q * Q;
  actualValue : Q
}.

(** The fields of an [alert.created] event that the server reads; each
    may be absent. *)
Record AlertEvent := mkAlertEvent {
  alert_id : option string;
  alert_severity : option string;
  alert_message : option string;
  alert_moduleKey : option string;
  alert_latitude : option Q;
  alert_longitude : option Q
}.

Inductive TimelineType := tl_detection | tl_alert | tl_action | tl_update.

Record TimelineEvent := mkTimelineEvent {
  tl_timestamp : Z;
  tl_type : TimelineType;
  tl_title : string;
  tl_description : string;
  tl_metadata : option AlertEvent
}.

Inductive IncidentStatus :=
  | inc_active | inc_investigating | inc_mitigated | inc_resolved.

Record Incident := mkIncident {
  incident_id : string;
  incident_title : string;
  incident_severity : string;
  incident_status : IncidentStatus;
  startedAt : Z;
  resolvedAt : option Z;
  affectedModules : list string;
  detectionIds : list string;
  alertIds : list string;
  rootCause : option string;
  resolution : option string;
  timeline : list TimelineEvent
}.

Inductive NodeType := nt_robot | nt_sensor | nt_gateway | nt_stationary.

(** What [generateMockTelemetry] returns, by topic family. *)
Inductive TelemetryData :=
  | LidarData (points : Z) (rangeMin rangeMax angleMin angleMax : Q)
  | ImuData (accelX accelY accelZ gyroX gyroY gyroZ : Q)
  | PressureData (pressure temperature : Q)
  | FlowData (flow : Q) (forward : bool)
  | OtherData (data : Q).

(** Events published on the bus under the name ["event"]. *)
Inductive PlainviewEvent :=
  | AlertCreated (a : AlertEvent)
  | AnomalyDetected (assetId : string) (anomalyType : AnomalyType)
      (confidence : Q) (at_ms : Z)
  | FlowMetricsUpdated (metrics : FlowMetrics)
  | IncidentCreated (incidentId severity : string) (at_ms : Z)
  | IncidentUpdated (incidentId : string) (at_ms : Z)
  | MissionStarted (missionId : string) (at_ms : Z)
  | MissionCompleted (missionId : string) (at_ms : Z)
  | Ros2NodeDiscovered (nodeId : string) (nodeType : NodeType)
      (location : option (Q * Q * option Q)) (at_ms : Z)
  | Ros2Telemetry (nodeId topic : string) (data : TelemetryData) (at_ms : Z)
  | Ros2NodeOffline (nodeId : string) (at_ms : Z).

Definition Prog (S A : Type) := Js.Prog S PlainviewEvent A.

(** [uuid()], as both modules define it. *)
Definition uuid {S} : Prog S string :=
  t <- Js.dateNow ;;
  r <- Js.mathRandom ;;
  s <- Js.render36 r ;;
  Js.ret (Js.string_of_Z t ++ "-" ++ s)%string.

(* ================================================================== *)
(** ** The in-memory store behind [db] (src/db/client.ts) *)
(* ================================================================== *)

Module Db.

Record StoredMetric := mkStoredMetric {
  sm_id : string;
  sm_time : Z;
  sm_flowRateLpm : Q;
  sm_pressurePa : Q;
  sm_temperatureC : Q
}.

Definition insertMetric (metric : FlowMetrics) : Prog (list StoredMetric) unit :=
  t <- Js.dateNow ;;
  Js.modify (fun metrics =>
    let metrics := Js.push metrics
      (mkStoredMetric ("metric-" ++ Js.string_of_Z t)%string (timestamp metric)
         (flowRateLpm metric) (pressurePa metric) (temperatureC metric)) in
    if Nat.ltb 1000 (List.length metrics) then Js.slice_last 1000 metrics
    else metrics).

End Db.

(* ================================================================== *)
(** ** FlowIQ (src/modules/flowiq.ts) *)
(* ================================================================== *)

Module FlowIQ.

Record State := mkState {
  loadedAt : Z;
  anomalyHistory : list FlowAnomaly;
  metricsHistory : list FlowMetrics;
  ros2Active : bool;
  db_metrics : list Db.StoredMetric
}.

Definition initial (loaded : Z) : State := mkState loaded [] [] false [].

Definition baselineMetrics (loaded : Z) : FlowMetrics :=
  mkFlowMetrics (150 # 1) (2500000 # 1) (45 # 1) loaded.

Definition set_metricsHistory (h : list FlowMetrics) (s : State) : State :=
  mkState (loadedAt s) (anomalyHistory s) h (ros2Active s) (db_metrics s).
Definition set_anomalyHistory (h : list FlowAnomaly) (s : State) : State :=
  mkState (loadedAt s) h (metricsHistory s) (ros2Active s) (db_metrics s).
Definition set_ros2Active (b : bool) (s : State) : State :=
  mkState (loadedAt s) (anomalyHistory s) (metricsHistory s) b (db_metrics s).
Definition set_db_metrics (d : list Db.StoredMetric) (s : State) : State :=
  mkState (loadedAt s) (anomalyHistory s) (metricsHistory s) (ros2Active s) d.

(** [recent.reduce((sum, m) => sum + f(m), 0) / recent.length] *)
Definition average (f : FlowMetrics -> Q) (recent : list FlowMetrics) : Q :=
  (fold_left (fun sum m => sum + f m) recent 0
     / inject_Z (Z.of_nat (List.length recent)))%Q.

(** One of the three checks of [detectAnomalies]: when [fires] holds an
    anomaly record is built, with its [uuid()] and its time stamp. *)
Definition check (fires : bool) (ty : AnomalyType) (sev : AnomalySeverity)
    (range : Q * Q) (actual : Q) : Prog State (list FlowAnomaly) :=
  if fires then
    id <- uuid ;;
    t <- Js.dateNow ;;
    Js.ret [mkFlowAnomaly id ty sev t range actual]
  else Js.ret [].

Definition flow_fires (avgFlow dev : Q) : bool := Js.Qgtb dev (avgFlow * (25 # 100))%Q.
Definition flow_severity (avgFlow dev : Q) : AnomalySeverity :=
  if Js.Qgtb dev (avgFlow * (5 # 10))%Q then sev_high else sev_medium.

Definition detectAnomalies (current : FlowMetrics) : Prog State (list FlowAnomaly) :=
  st <- Js.getv ;;
  let recent := Js.slice_last 10 (metricsHistory st) in
  if Nat.leb 3 (List.length recent) then
    let avgFlow := average flowRateLpm recent in
    let flowDeviation := Qabs (flowRateLpm current - avgFlow) in
    a1 <- check (flow_fires avgFlow flowDeviation) flow_rate_deviation
            (flow_severity avgFlow flowDeviation)
            (avgFlow * (75 # 100), avgFlow * (125 # 100))%Q
            (flowRateLpm current) ;;
    let avgPressure := average pressurePa recent in
    let pressureDeviation := Qabs (pressurePa current - avgPressure) in
    a2 <- check (Js.Qgtb pressureDeviation (100000 # 1)) pressure_deviation
            (if Js.Qgtb pressureDeviation (200000 # 1) then sev_high else sev_low)
            (avgPressure - (100000 # 1), avgPressure + (100000 # 1))%Q
            (pressurePa current) ;;
    let avgTemp := average temperatureC recent in
    let tempDeviation := Qabs (temperatureC current - avgTemp) in
    a3 <- check (Js.Qgtb tempDeviation (10 # 1)) temperature_spike
            (if Js.Qgtb tempDeviation (20 # 1) then sev_high else sev_medium)
            (avgTemp - (5 # 1), avgTemp + (5 # 1))%Q
            (temperatureC current) ;;
    Js.ret (a1 ++ a2 ++ a3)
  else Js.ret [].

(** [anom.severity === "high" ? 0.95 : 0.7] *)
Definition confidence_of (sev : AnomalySeverity) : Q :=
  match sev with sev_high => 95 # 100 | _ => 7 # 10 end.

(** The body of [anomalies.forEach(...)]. *)
Fixpoint recordAnomalies (anomalies : list FlowAnomaly) : Prog State unit :=
  match anomalies with
  | [] => Js.ret tt
  | anom :: rest =>
      Js.modify (fun s => set_anomalyHistory (Js.push (anomalyHistory s) anom) s) ;;;
      t <- Js.dateNow ;;
      Js.publish (AnomalyDetected "flow-system" (anomaly_type anom)
                    (confidence_of (anomaly_severity anom)) t) ;;;
      recordAnomalies rest
  end.

(** What both the ingestion entry point and the generator do with the
    sample they have built (lines 93-110 and 130-151, the same text).
    [await db.insertMetric(current)] waits for a promise that is already
    resolved, so no timer or request runs between the steps. *)
Definition store_and_detect (current : FlowMetrics) : Prog State unit :=
  Js.modify (fun s => set_metricsHistory (Js.push (metricsHistory s) current) s) ;;;
  Js.modify (fun s =>
    if Nat.ltb 100 (List.length (metricsHistory s))
    then set_metricsHistory (Js.shift (metricsHistory s)) s else s) ;;;
  Js.zoom db_metrics set_db_metrics (Db.insertMetric current) ;;;
  anomalies <- detectAnomalies current ;;
  recordAnomalies anomalies ;;;
  Js.publish (FlowMetricsUpdated current).

(** The argument of [ingestFlowTelemetry]: every field may be absent. *)
Record Sample := mkSample {
  s_flowRateLpm : option Q;
  s_pressurePa : option Q;
  s_temperatureC : option Q;
  s_timestamp : option Z
}.

(** [x ?? d] *)
Definition nullish (x : option Q) (d : Q) : Q :=
  match x with Some q => q | None => d end.

Definition last_or_baseline (s : State) : FlowMetrics :=
  List.last (metricsHistory s) (baselineMetrics (loadedAt s)).

Definition ingestFlowTelemetry (sample : Sample) : Prog State unit :=
  Js.modify (set_ros2Active true) ;;;
  st <- Js.getv ;;
  let last := last_or_baseline st in
  ts <- match s_timestamp sample with
        | Some t => if Z.eqb t 0 then Js.dateNow else Js.ret t
        | None => Js.dateNow
        end ;;
  let current :=
    mkFlowMetrics (nullish (s_flowRateLpm sample) (flowRateLpm last))
                  (nullish (s_pressurePa sample) (pressurePa last))
                  (nullish (s_temperatureC sample) (temperatureC last))
                  ts in
  store_and_detect current.

(** The callback of the 5-second [setInterval] of [registerFlowIQ]. *)
Definition collect : Prog State unit :=
  st <- Js.getv ;;
  if ros2Active st then Js.ret tt
  else
    r1 <- Js.mathRandom ;;
    r2 <- Js.mathRandom ;;
    r3 <- Js.mathRandom ;;
    let base := baselineMetrics (loadedAt st) in
    let noise_flow := ((r1 - (1 # 2)) * (10 # 1))%Q in
    let noise_pressure := ((r2 - (1 # 2)) * (50000 # 1))%Q in
    let noise_temp := ((r3 - (1 # 2)) * (3 # 1))%Q in
    t <- Js.dateNow ;;
    let current :=
      mkFlowMetrics (Js.Qmax (100 # 1) (flowRateLpm base + noise_flow))%Q
                    (Js.Qmax (2300000 # 1) (pressurePa base + noise_pressure))%Q
                    (Js.Qmax (20 # 1) (temperatureC base + noise_temp))%Q
                    t in
    store_and_detect current.

(** A step of the detector: an external sample or a generator tick. *)
Inductive Step := Ingest (sample : Sample) | Collect.

Definition step (a : Step) : Prog State unit :=
  match a with
  | Ingest sample => ingestFlowTelemetry sample
  | Collect => collect
  end.

Fixpoint run (steps : list Step) : Prog State unit :=
  match steps with
  | [] => Js.ret tt
  | a :: rest => step a ;;; run rest
  end.

End FlowIQ.

(** What a route answers: [{ error: "not_found" }] or a payload. *)
Inductive Reply (A : Type) :=
  | not_found
  | ok (a : A).
Arguments not_found {A}.
Arguments ok {A} _.

(** [Array.prototype.sort(cmp)]: a stable sort; [x] is placed after [y]
    exactly when [cmp x y > 0]. *)
Fixpoint insert_by {A} (cmp : A -> A -> Z) (x : A) (l : list A) : list A :=
  match l with
  | [] => [x]
  | y :: rest =>
      if (0 <? cmp x y)%Z then y :: insert_by cmp x rest else x :: y :: rest
  end.

Definition sort_by {A} (cmp : A -> A -> Z) (l : list A) : list A :=
  fold_right (insert_by cmp) [] l.

(** Mutation of the object at position [i] of a list of objects. *)
Fixpoint update_at {A} (i : nat) (f : A -> A) (l : list A) : list A :=
  match l, i with
  | [], _ => []
  | x :: rest, O => f x :: rest
  | x :: rest, S j => x :: update_at j f rest
  end.

(* ================================================================== *)
(** ** Incidents (src/modules/incidents.ts) *)
(* ================================================================== *)

Module Incidents.

Record State := mkState {
  incidents : JsMap.t Incident;
  alertQueue : list AlertEvent
}.

Definition initial : State := mkState [] [].

Definition set_incidents (m : JsMap.t Incident) (s : State) : State :=
  mkState m (alertQueue s).

Definition status_eqb (a b : IncidentStatus) : bool :=
  match a, b with
  | inc_active, inc_active | inc_investigating, inc_investigating
  | inc_mitigated, inc_mitigated | inc_resolved, inc_resolved => true
  | _, _ => false
  end.

Definition with_alertIds (l : list string) (i : Incident) : Incident :=
  mkIncident (incident_id i) (incident_title i) (incident_severity i)
    (incident_status i) (startedAt i) (resolvedAt i) (affectedModules i)
    (detectionIds i) l (rootCause i) (resolution i) (timeline i).
Definition with_timeline (l : list TimelineEvent) (i : Incident) : Incident :=
  mkIncident (incident_id i) (incident_title i) (incident_severity i)
    (incident_status i) (startedAt i) (resolvedAt i) (affectedModules i)
    (detectionIds i) (alertIds i) (rootCause i) (resolution i) l.
Definition with_status (st : IncidentStatus) (i : Incident) : Incident :=
  mkIncident (incident_id i) (incident_title i) (incident_severity i)
    st (startedAt i) (resolvedAt i) (affectedModules i)
    (detectionIds i) (alertIds i) (rootCause i) (resolution i) (timeline i).
Definition with_rootCause (r : string) (i : Incident) : Incident :=
  mkIncident (incident_id i) (incident_title i) (incident_severity i)
    (incident_status i) (startedAt i) (resolvedAt i) (affectedModules i)
    (detectionIds i) (alertIds i) (Some r) (resolution i) (timeline i).
Definition with_resolution (r : string) (at_ms : Z) (i : Incident) : Incident :=
  mkIncident (incident_id i) (incident_title i) (incident_severity i)
    inc_resolved (startedAt i) (Some at_ms) (affectedModules i)
    (detectionIds i) (alertIds i) (rootCause i) (Some r) (timeline i).

(** The filter of [correlateAlerts]. *)
Definition recent_open (twoMinutesAgo : Z) (inc : Incident) : bool :=
  negb (status_eqb (incident_status inc) inc_resolved)
  && (twoMinutesAgo <? startedAt inc)%Z.

(** The incident objects of the map, each with its position: the
    position stands for the object reference that the source returns
    and mutates. *)
Definition objects (m : JsMap.t Incident) : list (nat * Incident) :=
  combine (seq 0 (List.length m)) (JsMap.values m).

Definition correlateAlerts (newAlert : AlertEvent)
    : Prog State (option (nat * Incident)) :=
  now <- Js.dateNow ;;
  let twoMinutesAgo := (now - 2 * 60 * 1000)%Z in
  st <- Js.getv ;;
  let recentIncidents :=
    filter (fun p => recent_open twoMinutesAgo (snd p)) (objects (incidents st)) in
  if Js.truthy_num (alert_latitude newAlert)
     && Js.truthy_num (alert_longitude newAlert)
  then Js.ret (find (fun p => Nat.ltb 0 (List.length (detectionIds (snd p))))
                    recentIncidents)
  else Js.ret None.

Definition createTimelineEvent (ty : TimelineType) (title description : string)
    (metadata : option AlertEvent) : Prog State TimelineEvent :=
  t <- Js.dateNow ;;
  Js.ret (mkTimelineEvent t ty title description metadata).

(** [event.id || uuid()] *)
Definition alert_ref (event : AlertEvent) : Prog State string :=
  if Js.truthy_str (alert_id event) then Js.ret (Js.or_str (alert_id event) "")
  else uuid.

(** [event.severity?.toUpperCase() || "INFO"] *)
Definition severity_label (event : AlertEvent) : string :=
  Js.or_str (option_map Js.toUpperCase (alert_severity event)) "INFO".

(** [`${event.message}`] *)
Definition message_text (event : AlertEvent) : string :=
  match alert_message event with Some m => m | None => "undefined" end.

Definition mutate (ref : nat) (f : Incident -> Incident) : Prog State unit :=
  Js.modify (fun s =>
    set_incidents
      (combine (JsMap.keys (incidents s))
               (update_at ref f (JsMap.values (incidents s)))) s).

Definition handleAlert (ev : PlainviewEvent) : Prog State unit :=
  match ev with
  | AlertCreated event =>
      Js.modify (fun s => mkState (incidents s) (Js.push (alertQueue s) event)) ;;;
      existingIncident <- correlateAlerts event ;;
      match existingIncident with
      | Some (ref, existing) =>
          aid <- alert_ref event ;;
          mutate ref (fun i => with_alertIds (Js.push (alertIds i) aid) i) ;;;
          entry <- createTimelineEvent tl_alert "New alert"
                     (severity_label event ++ ": "
                        ++ Js.or_str (alert_message event) "Alert")%string
                     (Some event) ;;
          mutate ref (fun i => with_timeline (Js.push (timeline i) entry) i) ;;;
          t <- Js.dateNow ;;
          Js.publish (IncidentUpdated (incident_id existing) t)
      | None =>
          id <- uuid ;;
          started <- Js.dateNow ;;
          aid <- alert_ref event ;;
          entry <- createTimelineEvent tl_alert "Incident Started"
                     (message_text event) (Some event) ;;
          let incident :=
            mkIncident id (Js.or_str (alert_message event) "Incident")
              (Js.or_str (alert_severity event) "warning")
              inc_active started None
              [Js.or_str (alert_moduleKey event) "valve-ops"]
              [] [aid] None None [entry] in
          Js.modify (fun s => set_incidents (JsMap.set id incident (incidents s)) s) ;;;
          t <- Js.dateNow ;;
          Js.publish (IncidentCreated id (incident_severity incident) t)
      end
  | _ => Js.ret tt
  end.

(** The body of [POST /incidents/:id/update]. *)
Record UpdateBody := mkUpdateBody {
  body_status : option IncidentStatus;
  body_rootCause : option string;
  body_resolution : option string
}.

Definition on_incident (id : string) (f : Incident -> Incident) : Prog State unit :=
  Js.modify (fun s => set_incidents (JsMap.update id f (incidents s)) s).

Definition postUpdate (id : string) (body : UpdateBody) : Prog State (Reply Incident) :=
  st <- Js.getv ;;
  match JsMap.get id (incidents st) with
  | None => Js.ret not_found
  | Some incident =>
      match body_status body with
      | Some status => on_incident id (with_status status)
      | None => Js.ret tt
      end ;;;
      (if Js.truthy_str (body_rootCause body) then
         let rc := Js.or_str (body_rootCause body) "" in
         on_incident id (with_rootCause rc) ;;;
         entry <- createTimelineEvent tl_update "Root Cause Identified" rc None ;;
         on_incident id (fun i => with_timeline (Js.push (timeline i) entry) i)
       else Js.ret tt) ;;;
      (if Js.truthy_str (body_resolution body) then
         let res := Js.or_str (body_resolution body) "" in
         t <- Js.dateNow ;;
         on_incident id (with_resolution res t) ;;;
         entry <- createTimelineEvent tl_action "Incident Resolved" res None ;;
         on_incident id (fun i => with_timeline (Js.push (timeline i) entry) i)
       else Js.ret tt) ;;;
      t <- Js.dateNow ;;
      Js.publish (IncidentUpdated (incident_id incident) t) ;;;
      st' <- Js.getv ;;
      Js.ret (match JsMap.get id (incidents st') with
              | Some i => ok i
              | None => not_found
              end)
  end.

(** The answer of [GET /incidents/:id/timeline]. *)
Record TimelineView := mkTimelineView {
  view_incidentId : string;
  view_title : string;
  view_status : IncidentStatus;
  view_startedAt : Z;
  view_resolvedAt : option Z;
  view_timeline : list TimelineEvent
}.

(** The comparator of the timeline route: [b.timestamp - a.timestamp]. *)
Definition newest_first (a b : TimelineEvent) : Z :=
  (tl_timestamp b - tl_timestamp a)%Z.

(** [incident.timeline.sort(...)] sorts the stored array itself and
    returns that same array. *)
Definition getTimeline (id : string) : Prog State (Reply TimelineView) :=
  st <- Js.getv ;;
  match JsMap.get id (incidents st) with
  | None => Js.ret not_found
  | Some incident =>
      let sorted := sort_by newest_first (timeline incident) in
      on_incident id (with_timeline sorted) ;;;
      Js.ret (ok (mkTimelineView (incident_id incident) (incident_title incident)
                    (incident_status incident) (startedAt incident)
                    (resolvedAt incident) sorted))
  end.

(** [GET /incidents/:id] *)
Definition getIncident (id : string) : Prog State (Reply Incident) :=
  st <- Js.getv ;;
  Js.ret (match JsMap.get id (incidents st) with
          | Some i => ok i
          | None => not_found
          end).

End Incidents.

(* ================================================================== *)
(** ** Missions (src/modules/missions-lite.ts) *)
(* ================================================================== *)

Module Missions.

Inductive MissionType := replay | scenario.
Inductive MissionStatus := draft | active | paused | completed.

Record TimelineItem := mkTimelineItem {
  item_timestamp : string;
  item_type : string;
  item_title : string;
  item_severity : option string;
  item_data : string
}.

Record Mission := mkMission {
  m_id : string;
  m_title : string;
  m_type : MissionType;
  m_status : MissionStatus;
  m_createdAt : Z;
  m_startedAt : option Z;
  m_completedAt : option Z;
  m_timeline : list TimelineItem;
  m_playbackSpeed : Q
}.

(** Mission objects live in [heap]; the map [missions] and the variable
    [activeMission] hold references (positions in [heap]), so that a
    mutation through one is seen through the other, as in the source. *)
Record State := mkState {
  heap : list Mission;
  missions : JsMap.t nat;
  activeMission : option nat
}.

Definition initial : State := mkState [] [] None.

Definition deref (s : State) (ref : nat) : option Mission := nth_error (heap s) ref.

(** [missions.get(id)]: the reference and the object behind it. *)
Definition lookup (s : State) (id : string) : option (nat * Mission) :=
  match JsMap.get id (missions s) with
  | Some ref =>
      match deref s ref with
      | Some m => Some (ref, m)
      | None => None
      end
  | None => None
  end.

Definition alloc (m : Mission) : Prog State nat :=
  st <- Js.getv ;;
  Js.putv (mkState (Js.push (heap st) m) (missions st) (activeMission st)) ;;;
  Js.ret (List.length (heap st)).

Definition store (ref : nat) (f : Mission -> Mission) : Prog State unit :=
  Js.modify (fun s => mkState (update_at ref f (heap s)) (missions s) (activeMission s)).

Definition set_active (a : option nat) : Prog State unit :=
  Js.modify (fun s => mkState (heap s) (missions s) a).

Definition map_set (id : string) (ref : nat) : Prog State unit :=
  Js.modify (fun s => mkState (heap s) (JsMap.set id ref (missions s)) (activeMission s)).

Definition with_status (st : MissionStatus) (m : Mission) : Mission :=
  mkMission (m_id m) (m_title m) (m_type m) st (m_createdAt m) (m_startedAt m)
    (m_completedAt m) (m_timeline m) (m_playbackSpeed m).
Definition with_completedAt (t : Z) (m : Mission) : Mission :=
  mkMission (m_id m) (m_title m) (m_type m) (m_status m) (m_createdAt m)
    (m_startedAt m) (Some t) (m_timeline m) (m_playbackSpeed m).
Definition with_playbackSpeed (v : Q) (m : Mission) : Mission :=
  mkMission (m_id m) (m_title m) (m_type m) (m_status m) (m_createdAt m)
    (m_startedAt m) (m_completedAt m) (m_timeline m) v.

(** [if (activeMission?.id === m.id) activeMission = null] *)
Definition clear_active_if (m : Mission) : Prog State unit :=
  st <- Js.getv ;;
  match activeMission st with
  | Some a =>
      match deref st a with
      | Some am => if String.eqb (m_id am) (m_id m) then set_active None else Js.ret tt
      | None => Js.ret tt
      end
  | None => Js.ret tt
  end.

(** The body of [POST /missions]. *)
Record CreateBody := mkCreateBody {
  cb_title : option string;
  cb_type : option MissionType;
  cb_timeline : option (list TimelineItem)
}.

Definition create (body : CreateBody) : Prog State Mission :=
  id <- uuid ;;
  t <- Js.dateNow ;;
  let mission :=
    mkMission id (Js.or_str (cb_title body) "Untitled")
      (match cb_type body with Some ty => ty | None => replay end)
      draft t None None
      (match cb_timeline body with Some l => l | None => [] end)
      (1 # 1) in
  ref <- alloc mission ;;
  map_set id ref ;;;
  Js.ret mission.

Definition start (id : string) : Prog State (Reply unit) :=
  st <- Js.getv ;;
  match lookup st id with
  | None => Js.ret not_found
  | Some (_, m) =>
      t <- Js.dateNow ;;
      ref <- alloc (mkMission (m_id m) (m_title m) (m_type m) active
                      (m_createdAt m) (Some t) (m_completedAt m) (m_timeline m)
                      (m_playbackSpeed m)) ;;
      set_active (Some ref) ;;;
      map_set (m_id m) ref ;;;
      at_ms <- Js.dateNow ;;
      Js.publish (MissionStarted (m_id m) at_ms) ;;;
      Js.ret (ok tt)
  end.

Definition pause (id : string) : Prog State (Reply unit) :=
  st <- Js.getv ;;
  match lookup st id with
  | None => Js.ret not_found
  | Some (ref, m) =>
      store ref (with_status paused) ;;;
      clear_active_if m ;;;
      Js.ret (ok tt)
  end.

Definition resume (id : string) : Prog State (Reply unit) :=
  st <- Js.getv ;;
  match lookup st id with
  | None => Js.ret not_found
  | Some (ref, m) =>
      store ref (with_status active) ;;;
      set_active (Some ref) ;;;
      Js.ret (ok tt)
  end.

Definition stop (id : string) : Prog State (Reply unit) :=
  st <- Js.getv ;;
  match lookup st id with
  | None => Js.ret not_found
  | Some (ref, m) =>
      store ref (with_status completed) ;;;
      t <- Js.dateNow ;;
      store ref (with_completedAt t) ;;;
      clear_active_if m ;;;
      at_ms <- Js.dateNow ;;
      Js.publish (MissionCompleted (m_id m) at_ms) ;;;
      Js.ret (ok tt)
  end.

(** [Math.max(0.1, Math.min(10, speed))] *)
Definition clamp_speed (speed : Q) : Q :=
  Js.Qmax (1 # 10) (Js.Qmin (10 # 1) speed).

Definition setSpeed (id : string) (speed : Q) : Prog State (Reply Q) :=
  st <- Js.getv ;;
  match lookup st id with
  | None => Js.ret not_found
  | Some (ref, m) =>
      store ref (with_playbackSpeed (clamp_speed speed)) ;;;
      Js.ret (ok (clamp_speed speed))
  end.

Definition branch (id : string) (title : option string) : Prog State (Reply Mission) :=
  st <- Js.getv ;;
  match lookup st id with
  | None => Js.ret not_found
  | Some (_, source) =>
      new_id <- uuid ;;
      t <- Js.dateNow ;;
      let scen :=
        mkMission new_id
          (Js.or_str title (m_title source ++ " (Scenario)")%string)
          scenario draft t (m_startedAt source) (m_completedAt source)
          (m_timeline source) (m_playbackSpeed source) in
      ref <- alloc scen ;;
      map_set new_id ref ;;;
      Js.ret (ok scen)
  end.

End Missions.

(* ================================================================== *)
(** ** ROS2 bridge (src/ros2-bridge.ts) *)
(* ================================================================== *)

Module Ros2.

Inductive Health := h_ok | h_degraded | h_offline.

Record ROS2Node := mkNode {
  name : string;
  namespace : string;
  node_type : NodeType;
  location : option (Q * Q * option Q);
  subscribe : list string;
  publish : list string;
  lastSeen : Z;
  health : Health
}.

Record ROS2Telemetry := mkTelemetry {
  t_nodeId : string;
  t_topic : string;
  t_data : TelemetryData;
  t_timestamp : Z
}.

Inductive Priority := p_low | p_normal | p_high.

Record ROS2Command := mkCommand {
  c_nodeId : string;
  c_topic : string;
  c_action : string;
  c_params : string;
  c_priority : Priority;
  c_timeout : option Q
}.

Inductive CommandStatus := pending | sent | acked | failed | timeout.

Record ROS2CommandResult := mkResult {
  commandId : string;
  status : CommandStatus;
  r_nodeId : string;
  r_timestamp : Z;
  error : option string
}.

(** Events on the bridge's own emitter ([this.emit]); nothing in the
    repository listens to them. *)
Inductive LocalEvent :=
  | NodeRegistered (nodeId : string)
  | Telemetry (t : ROS2Telemetry)
  | CommandSent (commandId : string)
  | CommandAcked (commandId : string)
  | NodeOffline (nodeId : string).

(** The fields of the bridge, the timers it has armed ([loops] for the
    [setInterval] of each telemetry subscription, [ackTimers] for the
    pending [setTimeout] of each command, with its delay in ms), and the
    variables of FlowIQ, into which flow telemetry is ingested. *)
Record State := mkState {
  nodes : JsMap.t ROS2Node;
  telemetryBuffer : list ROS2Telemetry;
  commandHistory : JsMap.t ROS2CommandResult;
  loops : list (string * string);
  ackTimers : list (string * Q);
  emitted : list LocalEvent;
  flowiq : FlowIQ.State
}.

Definition initial (loaded : Z) : State :=
  mkState [] [] [] [] [] [] (FlowIQ.initial loaded).

Definition nodeHeartbeatInterval : Z := 30000.

Definition set_nodes (m : JsMap.t ROS2Node) (s : State) : State :=
  mkState m (telemetryBuffer s) (commandHistory s) (loops s) (ackTimers s)
    (emitted s) (flowiq s).
Definition set_telemetryBuffer (b : list ROS2Telemetry) (s : State) : State :=
  mkState (nodes s) b (commandHistory s) (loops s) (ackTimers s)
    (emitted s) (flowiq s).
Definition set_commandHistory (h : JsMap.t ROS2CommandResult) (s : State) : State :=
  mkState (nodes s) (telemetryBuffer s) h (loops s) (ackTimers s)
    (emitted s) (flowiq s).
Definition set_loops (l : list (string * string)) (s : State) : State :=
  mkState (nodes s) (telemetryBuffer s) (commandHistory s) l (ackTimers s)
    (emitted s) (flowiq s).
Definition set_ackTimers (l : list (string * Q)) (s : State) : State :=
  mkState (nodes s) (telemetryBuffer s) (commandHistory s) (loops s) l
    (emitted s) (flowiq s).
Definition set_flowiq (f : FlowIQ.State) (s : State) : State :=
  mkState (nodes s) (telemetryBuffer s) (commandHistory s) (loops s)
    (ackTimers s) (emitted s) f.

(** [this.emit(name, ...)] *)
Definition emit (e : LocalEvent) : Prog State unit :=
  Js.modify (fun s =>
    mkState (nodes s) (telemetryBuffer s) (commandHistory s) (loops s)
      (ackTimers s) (emitted s ++ [e]) (flowiq s)).

Definition with_health (h : Health) (n : ROS2Node) : ROS2Node :=
  mkNode (name n) (namespace n) (node_type n) (location n) (subscribe n)
    (publish n) (lastSeen n) h.
Definition with_lastSeen (t : Z) (n : ROS2Node) : ROS2Node :=
  mkNode (name n) (namespace n) (node_type n) (location n) (subscribe n)
    (publish n) t (health n).
Definition with_status (st : CommandStatus) (r : ROS2CommandResult) : ROS2CommandResult :=
  mkResult (commandId r) st (r_nodeId r) (r_timestamp r) (error r).

(** [`${node.namespace}/${node.name}`] *)
Definition node_key (node : ROS2Node) : string :=
  (namespace node ++ "/" ++ name node)%string.

Definition isSome {A} (o : option A) : bool :=
  match o with Some _ => true | None => false end.

(** [array.includes(x)] on strings. *)
Definition mem (x : string) (l : list string) : bool := existsb (String.eqb x) l.

Definition registerNode (node : ROS2Node) : Prog State unit :=
  let nodeId := node_key node in
  Js.modify (fun s => set_nodes (JsMap.set nodeId node (nodes s)) s) ;;;
  emit (NodeRegistered nodeId) ;;;
  t <- Js.dateNow ;;
  Js.publish (Ros2NodeDiscovered nodeId (node_type node) (location node) t).

(** [Math.PI] as the double it is. *)
Definition Math_PI : Q := 884279719003555 # 281474976710656.

Definition generateMockTelemetry (topic : string) : Prog State TelemetryData :=
  if Js.includes topic "lidar" then
    r <- Js.mathRandom ;;
    Js.ret (LidarData (Qfloor (r * (10000 # 1))) (1 # 10) (100 # 1)
              (- Math_PI) Math_PI)%Q
  else if Js.includes topic "imu" then
    r1 <- Js.mathRandom ;; r2 <- Js.mathRandom ;; r3 <- Js.mathRandom ;;
    r4 <- Js.mathRandom ;; r5 <- Js.mathRandom ;; r6 <- Js.mathRandom ;;
    Js.ret (ImuData ((r1 - (1 # 2)) * (2 # 1)) ((r2 - (1 # 2)) * (2 # 1))
              ((98 # 10) + (r3 - (1 # 2)) * (1 # 2))
              ((r4 - (1 # 2)) * (1 # 10)) ((r5 - (1 # 2)) * (1 # 10))
              ((r6 - (1 # 2)) * (1 # 10)))%Q
  else if Js.includes topic "pressure" then
    r1 <- Js.mathRandom ;; r2 <- Js.mathRandom ;;
    Js.ret (PressureData ((2500000 # 1) + (r1 - (1 # 2)) * (100000 # 1))
              ((45 # 1) + (r2 - (1 # 2)) * (5 # 1)))%Q
  else if Js.includes topic "flow" then
    r1 <- Js.mathRandom ;; r2 <- Js.mathRandom ;;
    Js.ret (FlowData ((150 # 1) + (r1 - (1 # 2)) * (20 # 1))%Q
              (Js.Qgtb r2 (1 # 2)))
  else
    r <- Js.mathRandom ;;
    Js.ret (OtherData r).

(** [data.flowRateLpm], [data.pressurePa] and [data.temperatureC];
    [None] is [undefined]. *)
Definition data_flowRateLpm (data : TelemetryData) : option Q :=
  match data with FlowData f _ => Some f | _ => None end.
Definition data_pressurePa (data : TelemetryData) : option Q :=
  match data with PressureData p _ => Some p | _ => None end.
Definition data_temperatureC (data : TelemetryData) : option Q :=
  match data with PressureData _ t => Some t | _ => None end.

(** The callback of the [setInterval] armed by [subscribeTelemetry].
    [ingestFlowTelemetry] is started before [this.emit("telemetry")] and
    finishes after it; the two write to different places, so the model
    runs the ingestion to its end first. *)
Definition telemetryCallback (nodeId topic : string) : Prog State unit :=
  st <- Js.getv ;;
  if negb (JsMap.has nodeId (nodes st)) then
    Js.modify (fun s =>
      set_loops (filter (fun l => negb (String.eqb (fst l) nodeId
                                        && String.eqb (snd l) topic)) (loops s)) s)
  else
    data <- generateMockTelemetry topic ;;
    ts <- Js.dateNow ;;
    let telemetry := mkTelemetry nodeId topic data ts in
    Js.modify (fun s => set_telemetryBuffer (Js.push (telemetryBuffer s) telemetry) s) ;;;
    Js.modify (fun s =>
      if Nat.ltb 1000 (List.length (telemetryBuffer s))
      then set_telemetryBuffer (Js.shift (telemetryBuffer s)) s else s) ;;;
    at_ms <- Js.dateNow ;;
    Js.publish (Ros2Telemetry nodeId topic data at_ms) ;;;
    (if Js.includes topic "flow" && isSome (data_flowRateLpm data) then
       now <- Js.dateNow ;;
       Js.zoom flowiq set_flowiq
         (FlowIQ.ingestFlowTelemetry
            (FlowIQ.mkSample (data_flowRateLpm data) (data_pressurePa data)
               (data_temperatureC data) (Some now)))
     else Js.ret tt) ;;;
    emit (Telemetry telemetry).

(** [subscribeTelemetry]: [inl msg] is the error it reports. *)
Definition subscribeTelemetry (nodeId topic : string) : Prog State (string + unit) :=
  st <- Js.getv ;;
  match JsMap.get nodeId (nodes st) with
  | None => Js.ret (inl ("Node " ++ nodeId ++ " not found")%string)
  | Some node =>
      if negb (mem topic (subscribe node)) then
        Js.ret (inl ("Node " ++ nodeId ++ " does not publish " ++ topic)%string)
      else
        Js.modify (fun s => set_loops (Js.push (loops s) (nodeId, topic)) s) ;;;
        Js.ret (inr tt)
  end.

(** [publishCommand]: [inl msg] is the [Error] it throws. *)
Definition publishCommand (cmd : ROS2Command)
    : Prog State (string + ROS2CommandResult) :=
  st <- Js.getv ;;
  match JsMap.get (c_nodeId cmd) (nodes st) with
  | None => Js.ret (inl ("Node " ++ c_nodeId cmd ++ " not found")%string)
  | Some node =>
      if negb (mem (c_topic cmd) (publish node)) then
        Js.ret (inl ("Node " ++ c_nodeId cmd ++ " does not subscribe to "
                       ++ c_topic cmd)%string)
      else
        t <- Js.dateNow ;;
        r <- Js.mathRandom ;;
        suffix <- Js.render36 r ;;
        let cid := ("cmd_" ++ Js.string_of_Z t ++ "_" ++ suffix)%string in
        ts <- Js.dateNow ;;
        let result := mkResult cid pending (c_nodeId cmd) ts None in
        Js.modify (fun s => set_commandHistory (JsMap.set cid result (commandHistory s)) s) ;;;
        emit (CommandSent cid) ;;;
        d <- Js.mathRandom ;;
        Js.modify (fun s =>
          set_ackTimers (Js.push (ackTimers s) (cid, d * (2000 # 1) + (500 # 1))%Q) s) ;;;
        Js.ret (inr result)
  end.

Definition is_pending (st : CommandStatus) : bool :=
  match st with pending => true | _ => false end.

(** The callback of the [setTimeout] armed by [publishCommand]. *)
Definition ackCallback (cid : string) : Prog State unit :=
  st <- Js.getv ;;
  match JsMap.get cid (commandHistory st) with
  | Some res =>
      if is_pending (status res) then
        Js.modify (fun s =>
          set_commandHistory (JsMap.update cid (with_status acked) (commandHistory s)) s) ;;;
        emit (CommandAcked cid)
      else Js.ret tt
  | None => Js.ret tt
  end.

Definition getCommandStatus (cid : string) : Prog State (option ROS2CommandResult) :=
  st <- Js.getv ;;
  Js.ret (JsMap.get cid (commandHistory st)).

Definition markNodeOffline (nodeId : string) : Prog State unit :=
  st <- Js.getv ;;
  match JsMap.get nodeId (nodes st) with
  | Some node =>
      Js.modify (fun s => set_nodes (JsMap.update nodeId (with_health h_offline) (nodes s)) s) ;;;
      t <- Js.dateNow ;;
      Js.modify (fun s => set_nodes (JsMap.update nodeId (with_lastSeen t) (nodes s)) s) ;;;
      emit (NodeOffline nodeId) ;;;
      at_ms <- Js.dateNow ;;
      Js.publish (Ros2NodeOffline nodeId at_ms)
  | None => Js.ret tt
  end.

(** The staleness test of the heartbeat monitor. *)
Definition stale (now : Z) (node : ROS2Node) : bool :=
  (60000 <? now - lastSeen node)%Z.

(** [this.nodes.forEach(...)] of the monitor; each node is read when it
    is visited. *)
Fixpoint sweep (now : Z) (nodeIds : list string) : Prog State unit :=
  match nodeIds with
  | [] => Js.ret tt
  | nodeId :: rest =>
      st <- Js.getv ;;
      match JsMap.get nodeId (nodes st) with
      | Some node => if stale now node then markNodeOffline nodeId else Js.ret tt
      | None => Js.ret tt
      end ;;;
      sweep now rest
  end.

(** The callback of the monitor's [setInterval], every
    [nodeHeartbeatInterval] ms. *)
Definition heartbeatCallback : Prog State unit :=
  now <- Js.dateNow ;;
  st <- Js.getv ;;
  sweep now (JsMap.keys (nodes st)).


(** What can happen to the bridge: a call of its interface or the
    firing of one of its timers. *)
Inductive Action :=
  | RegisterNode (node : ROS2Node)
  | SubscribeTelemetry (nodeId topic : string)
  | TelemetryTick (nodeId topic : string)
  | PublishCommand (cmd : ROS2Command)
  | AckTimeout (n : nat)
  | MarkNodeOffline (nodeId : string)
  | HeartbeatTick.

Definition remove_nth {A} (n : nat) (l : list A) : list A :=
  firstn n l ++ skipn (S n) l.

Definition step (a : Action) : Prog State unit :=
  match a with
  | RegisterNode node => registerNode node
  | SubscribeTelemetry nodeId topic => _ <- subscribeTelemetry nodeId topic ;; Js.ret tt
  | TelemetryTick nodeId topic =>
      st <- Js.getv ;;
      if existsb (fun l => String.eqb (fst l) nodeId && String.eqb (snd l) topic)
           (loops st)
      then telemetryCallback nodeId topic else Js.ret tt
  | PublishCommand cmd => _ <- publishCommand cmd ;; Js.ret tt
  | AckTimeout n =>
      st <- Js.getv ;;
      match nth_error (ackTimers st) n with
      | Some (cid, _) =>
          Js.modify (fun s => set_ackTimers (remove_nth n (ackTimers s)) s) ;;;
          ackCallback cid
      | None => Js.ret tt
      end
  | MarkNodeOffline nodeId => markNodeOffline nodeId
  | HeartbeatTick => heartbeatCallback
  end.

Fixpoint run (actions : list Action) : Prog State unit :=
  match actions with
  | [] => Js.ret tt
  | a :: rest => step a ;;; run rest
  end.

End Ros2.

(* ================================================================== *)
(** ** The bus (src/sse.ts): [export const bus = new EventEmitter()] *)
(* ================================================================== *)

Module Bus.

Section Emitter.

Variables (E St : Type).

(** How a listener call ends: it returns, or it throws. *)
Inductive Completion :=
  | Returns (s : St)
  | Throws (err : string) (s : St).

Definition Listener := E -> St -> Completion.

(** [emitter.emit(name, e)] of Node's [events] module: the listeners
    registered under [name] are called one after the other, in the
    order of registration, with nothing around the call that catches
    what a listener throws.  The result lists the positions of the
    listeners that were called. *)
Fixpoint emit_from (pos : nat) (listeners : list Listener) (e : E) (s : St)
    : list nat * Completion :=
  match listeners with
  | [] => ([], Returns s)
  | l :: rest =>
      match l e s with
      | Returns s' =>
          let (called, c) := emit_from (S pos) rest e s' in
          (pos :: called, c)
      | Throws err s' => ([pos], Throws err s')
      end
  end.

Definition emit (listeners : list Listener) (e : E) (s : St)
    : list nat * Completion :=
  emit_from 0 listeners e s.

(** [bus.on("event", l)] *)
Definition on (listeners : list Listener) (l : Listener) : list Listener :=
  listeners ++ [l].

End Emitter.

Arguments Returns {St} _.
Arguments Throws {St} _ _.
Arguments emit {E St} _ _ _.
Arguments emit_from {E St} _ _ _ _.
Arguments on {E St} _ _.

End Bus.

(* ================================================================== *)
(** ** Read routes of the missions module (src/modules/missions-lite.ts) *)
(* ================================================================== *)

Module MissionsRoutes.

(** The object that [missions.get(id)] returns. *)
Definition stored (s : Missions.State) (id : string) : option Missions.Mission :=
  option_map snd (Missions.lookup s id).

(** The object that the variable [activeMission] refers to. *)
Definition current (s : Missions.State) : option Missions.Mission :=
  match Missions.activeMission s with
  | Some a => Missions.deref s a
  | None => None
  end.

(** [GET /missions/:id] *)
Definition getMission (id : string) : Prog Missions.State (Reply Missions.Mission) :=
  st <- Js.getv ;;
  Js.ret (match stored st id with
          | Some m => ok m
          | None => not_found
          end).

(** The answer of [GET /missions/status/active]. *)
Record ActiveStatus := mkActiveStatus {
  status_active : bool;
  status_mission : option Missions.Mission;
  status_progress : Q
}.

(** [GET /missions/status/active] *)
Definition getActiveStatus : Prog Missions.State ActiveStatus :=
  st <- Js.getv ;;
  match current st with
  | Some m =>
      r <- Js.mathRandom ;;
      Js.ret (mkActiveStatus true (Some m) (r * (100 # 1))%Q)
  | None => Js.ret (mkActiveStatus false None 0%Q)
  end.

End MissionsRoutes.

(* ================================================================== *)
(** * Vocabulary of the statements *)
(* ================================================================== *)

(** A program [preserves] a part [proj] of the module variables when no
    run of it changes that part. *)
Definition preserves {S E X A} (proj : S -> X) (p : Js.Prog S E A) : Prop :=
  forall c, proj (Js.vars (snd (p c))) = proj (Js.vars c).

(** A clock that shows [t] at every reading, no randomness to speak of:
    the world during one callback that fires at time [t]. *)
Definition frozen_at (t : Z) : Js.World :=
  Js.mkWorld (fun _ => t) 0 (fun _ => (1 # 2)%Q) 0 (fun _ => "k3x9q0").

(** A clock that advances by one millisecond at every reading. *)
Definition ticking_from (t : Z) : Js.World :=
  Js.mkWorld (fun n => (t + Z.of_nat n)%Z) 0 (fun _ => (1 # 2)%Q) 0 (fun _ => "k3x9q0").

Module FlowIQSpec.

Import Js FlowIQ.

Definition Ctx := Js.Ctx FlowIQ.State PlainviewEvent.

(** The event announcing an anomaly, whatever its time stamp. *)
Definition announces (a : FlowAnomaly) (e : PlainviewEvent) : Prop :=
  exists at_ms,
    e = AnomalyDetected "flow-system" (anomaly_type a)
          (confidence_of (anomaly_severity a)) at_ms.

Definition is_anomaly_detected (e : PlainviewEvent) : bool :=
  match e with AnomalyDetected _ _ _ _ => true | _ => false end.

(** The history after a sample has been appended and, beyond 100
    entries, the oldest one dropped. *)
Definition appended (h : list FlowMetrics) (current : FlowMetrics) : list FlowMetrics :=
  if Nat.ltb 100 (List.length (push h current)) then shift (push h current)
  else push h current.

(** The time stamp and the sample that [ingestFlowTelemetry] builds from
    its argument in context [c]. *)
Definition stamp (sample : Sample) (c : Ctx) : Z :=
  match s_timestamp sample with
  | Some t => if Z.eqb t 0 then time_at (env c) (reads (env c)) else t
  | None => time_at (env c) (reads (env c))
  end.

Definition current_of (sample : Sample) (c : Ctx) : FlowMetrics :=
  let last := last_or_baseline (vars c) in
  mkFlowMetrics (nullish (s_flowRateLpm sample) (flowRateLpm last))
                (nullish (s_pressurePa sample) (pressurePa last))
                (nullish (s_temperatureC sample) (temperatureC last))
                (stamp sample c).

(** The sample that the generator builds in context [c]. *)
Definition generated (c : Ctx) : FlowMetrics :=
  let base := baselineMetrics (loadedAt (vars c)) in
  let r := rand_at (env c) in
  let n := draws (env c) in
  mkFlowMetrics
    (Qmax (100 # 1)%Q (flowRateLpm base + (r n - (1 # 2)) * (10 # 1))%Q)
    (Qmax (2300000 # 1)%Q (pressurePa base + (r (S n) - (1 # 2)) * (50000 # 1))%Q)
    (Qmax (20 # 1)%Q (temperatureC base + (r (S (S n)) - (1 # 2)) * (3 # 1))%Q)
    (time_at (env c) (reads (env c))).

(** A start of the detector at time 0. *)
Definition fresh : Ctx := mkCtx (FlowIQ.initial 0) (ticking_from 1700000000000) [].

(** Two operating points between which a plant may swing. *)
Definition swing_low : Sample :=
  mkSample (Some (100 # 1)%Q) (Some (2000000 # 1)%Q) (Some (20 # 1)%Q) None.
Definition swing_high : Sample :=
  mkSample (Some (300 # 1)%Q) (Some (3000000 # 1)%Q) (Some (80 # 1)%Q) None.

Fixpoint swinging (n : nat) : list Step :=
  match n with
  | O => []
  | S k => Ingest (if Nat.even k then swing_low else swing_high) :: swinging k
  end.



End FlowIQSpec.

Module IncidentsSpec.

Import Js Incidents.

Definition Ctx := Js.Ctx Incidents.State PlainviewEvent.

(** An alert carries a location when both coordinates are truthy. *)
Definition located (event : AlertEvent) : bool :=
  truthy_num (alert_latitude event) && truthy_num (alert_longitude event).

(** The incidents that [correlateAlerts] can return at time [now]:
    not resolved, started less than two minutes ago, and holding at
    least one detection reference. *)
Definition candidate (now : Z) (inc : Incident) : bool :=
  recent_open (now - 2 * 60 * 1000)%Z inc
  && Nat.ltb 0 (List.length (detectionIds inc)).

(** The incident after an alert has been attached to it. *)
Definition attached (aid : string) (entry : TimelineEvent) (inc : Incident) : Incident :=
  with_timeline (push (timeline inc) entry)
    (with_alertIds (push (alertIds inc) aid) inc).

(** A leak alert as PipelineGuard publishes it: located, without id. *)
Definition leak (section : string) : AlertEvent :=
  mkAlertEvent None (Some "critical") (Some ("leak detected in " ++ section)%string)
    None (Some (407128 # 10000)%Q) (Some (-74 # 1)%Q).

Definition start : Ctx := mkCtx Incidents.initial (ticking_from 1700000000000) [].

Definition after_first_alert : Ctx :=
  snd (handleAlert (AlertCreated (leak "A")) start).


(** The id of the incident that the first alert created. *)
Definition first_id : string := hd "" (JsMap.keys (incidents (vars after_first_alert))).

(** The first incident once its root cause has been recorded. *)
Definition after_root_cause : Ctx :=
  snd (postUpdate first_id (mkUpdateBody None (Some "corroded flange") None)
         after_first_alert).

Definition stored_timeline (id : string) (c : Ctx) : list TimelineEvent :=
  match JsMap.get id (incidents (vars c)) with
  | Some inc => timeline inc
  | None => []
  end.


(** The incident that an alert opens. *)
Definition opened (id aid : string) (started : Z) (entry : TimelineEvent)
    (event : AlertEvent) : Incident :=
  mkIncident id (or_str (alert_message event) "Incident")
    (or_str (alert_severity event) "warning") inc_active started None
    [or_str (alert_moduleKey event) "valve-ops"] [] [aid] None None [entry].

Definition is_incident_created (e : PlainviewEvent) : bool :=
  match e with IncidentCreated _ _ _ => true | _ => false end.

(** Time stamps from the newest to the oldest. *)
Fixpoint newest_first_sorted (l : list TimelineEvent) : bool :=
  match l with
  | a :: (b :: _) as rest => (tl_timestamp b <=? tl_timestamp a)%Z && newest_first_sorted rest
  | _ => true
  end.

End IncidentsSpec.

Module MissionsSpec.

Import Js Missions.

Definition Ctx := Js.Ctx Missions.State PlainviewEvent.

(** A store with one mission, created and started. *)
Definition one_running : Ctx :=
  let c0 : Ctx := mkCtx Missions.initial (ticking_from 1700000000000) [] in
  let created := create (mkCreateBody (Some "Replay of the leak") None None) c0 in
  snd (start (m_id (fst created)) (snd created)).

End MissionsSpec.

Module Ros2Spec.

Import Js Ros2.

Definition Ctx := Js.Ctx Ros2.State PlainviewEvent.

(** A command result that is waiting for its acknowledgement or has
    received it. *)
Definition settled (r : ROS2CommandResult) : bool :=
  match status r with
  | pending | acked => true
  | _ => false
  end.

(** The command [cid] is on record and waiting or acknowledged. *)
Definition on_record (cid : string) (s : State) : bool :=
  match JsMap.get cid (commandHistory s) with
  | Some r => settled r
  | None => false
  end.

Definition health_of (nodeId : string) (c : Ctx) : option Health :=
  option_map health (JsMap.get nodeId (nodes (vars c))).

Definition lastSeen_of (nodeId : string) (c : Ctx) : option Z :=
  option_map lastSeen (JsMap.get nodeId (nodes (vars c))).

(** A callback that fires at time [t]: the clock shows [t] while it
    runs. *)
Definition at_time (t : Z) (a : Action) : Js.Prog State PlainviewEvent unit :=
  fun c => step a (mkCtx (vars c) (frozen_at t) (published c)).

Fixpoint run_timed (schedule : list (Z * Action)) : Js.Prog State PlainviewEvent unit :=
  match schedule with
  | [] => ret tt
  | (t, a) :: rest => at_time t a ;;; run_timed rest
  end.

(** The moment at which the scenarios start. *)
Definition epoch : Z := 1700000000000.

(** The sensor of the end-to-end scenario: it subscribes to [flow] and
    publishes nothing. *)
Definition n1 : ROS2Node :=
  mkNode "N1" "/field" nt_sensor None ["flow"] [] epoch h_ok.

Definition n1_id : string := node_key n1.

(** The timers of the [k]-th five seconds after the start: the
    telemetry loop of [n1] fires every time, the heartbeat monitor every
    sixth time, after it. *)
Definition round (k : nat) : list (Z * Action) :=
  let t := (epoch + 5000 * Z.of_nat k)%Z in
  (t, TelemetryTick n1_id "flow")
    :: (if Nat.eqb (Nat.modulo k 6) 0 then [(t, HeartbeatTick)] else []).

Definition rounds (n : nat) : list (Z * Action) := flat_map round (seq 1 n).

Definition boot : Ctx := mkCtx (Ros2.initial epoch) (frozen_at epoch) [].

(** [n1] registered and subscribed at the start, then [n] rounds. *)
Definition after_rounds (n : nat) : Ctx :=
  snd (run_timed ((epoch, RegisterNode n1)
                    :: (epoch, SubscribeTelemetry n1_id "flow")
                    :: rounds n) boot).

(** A gateway that accepts valve commands, and a command for it. *)
Definition gateway : ROS2Node :=
  mkNode "sensor_gateway_01" "/field/sensors" nt_gateway None
    ["/sensor_data/flow"] ["/cmd/valve"] epoch h_ok.

Definition with_gateway : Ctx :=
  snd (registerNode gateway (mkCtx (Ros2.initial epoch) (ticking_from epoch) [])).

Definition close_valve : ROS2Command :=
  mkCommand (node_key gateway) "/cmd/valve" "close" "{}" p_high None.

End Ros2Spec.

Module BusSpec.

(** Listeners that leave a mark in a log when they are called; the
    second kind throws after leaving it. *)
Definition Log := list string.

Definition recorder (tag : string) : Bus.Listener PlainviewEvent Log :=
  fun _ log => Bus.Returns (log ++ [tag]).

Definition thrower (tag : string) : Bus.Listener PlainviewEvent Log :=
  fun _ log => Bus.Throws "listener failed" (log ++ [tag]).

Definition three_listeners : list (Bus.Listener PlainviewEvent Log) :=
  Bus.on (Bus.on (Bus.on [] (recorder "incidents")) (thrower "client-1"))
    (recorder "client-2").

Definition tick_event : PlainviewEvent := FlowMetricsUpdated (FlowIQ.baselineMetrics 0).

End BusSpec.

Module FlowIQMoreSpec.

Import Js FlowIQ FlowIQSpec.

(** The three deviations and the mean flow that [detectAnomalies] computes
  for [current] in context [c]. *)
Definition window (c : Ctx) : list FlowMetrics :=
slice_last 10 (metricsHistory (vars c)).

Definition mean_flow (c : Ctx) : Q := average flowRateLpm (window c).

Definition flow_dev (current : FlowMetrics) (c : Ctx) : Q :=
Qabs (flowRateLpm current - average flowRateLpm (window c)).

Definition pressure_dev (current : FlowMetrics) (c : Ctx) : Q :=
Qabs (pressurePa current - average pressurePa (window c)).

Definition temp_dev (current : FlowMetrics) (c : Ctx) : Q :=
Qabs (temperatureC current - average temperatureC (window c)).

(** All the readings of a metric lie between [lo] and [hi]. *)
Definition within (f : FlowMetrics -> Q) (lo hi : Q) (l : list FlowMetrics) : Prop :=
Forall (fun m => (lo <= f m)%Q /\ (f m <= hi)%Q) l.

(** The readings that the generator can produce when [Math.random()] is
  in [0, 1). *)
Definition generator_band (l : list FlowMetrics) : Prop :=
within flowRateLpm (145 # 1) (155 # 1) l /\
within pressurePa (2475000 # 1) (2525000 # 1) l /\
within temperatureC (435 # 10) (465 # 10) l.

(** [Math.random()] stays in [0, 1). *)
Definition unit_random (w : World) : Prop :=
forall n, (0 <= rand_at w n)%Q /\ (rand_at w n < 1)%Q.

(** What a step may add to the bus after the announcements: nothing, or
  the one [flow.metrics.updated] event. *)
Definition metrics_update_or_nothing (l : list PlainviewEvent) : Prop :=
l = [] \/ exists m, l = [FlowMetricsUpdated m].

End FlowIQMoreSpec.

Module IncidentsMoreSpec.

Import Js Incidents IncidentsSpec.

Definition is_incident_updated (e : PlainviewEvent) : bool :=
match e with IncidentUpdated _ _ => true | _ => false end.

(** No incident of the store holds a detection reference. *)
Definition no_detections (s : State) : Prop :=
Forall (fun i => detectionIds i = []) (JsMap.values (incidents s)).

(** What reaches the module: an event on the bus or a request. *)
Inductive Action :=
| BusEvent (e : PlainviewEvent)
| PostUpdate (id : string) (body : UpdateBody)
| GetTimeline (id : string)
| GetIncident (id : string).

Definition step (a : Action) : Js.Prog State PlainviewEvent unit :=
match a with
| BusEvent e => handleAlert e
| PostUpdate id body => bind (postUpdate id body) (fun _ => ret tt)
| GetTimeline id => bind (getTimeline id) (fun _ => ret tt)
| GetIncident id => bind (getIncident id) (fun _ => ret tt)
end.

Fixpoint run (actions : list Action) : Js.Prog State PlainviewEvent unit :=
match actions with
| [] => ret tt
| a :: rest => bind (step a) (fun _ => run rest)
end.

(** The incident that [POST /incidents/:id/update] leaves behind: the
  status of the body if any, then the root cause with its timeline
  entry, then the resolution with its time stamp and timeline entry. *)
Definition with_root_cause_of (body : UpdateBody) (t : Z) (i : Incident) : Incident :=
if truthy_str (body_rootCause body) then
  let rc := or_str (body_rootCause body) "" in
  with_timeline
    (push (timeline i) (mkTimelineEvent t tl_update "Root Cause Identified" rc None))
    (with_rootCause rc i)
else i.

Definition with_resolution_of (body : UpdateBody) (t t' : Z) (i : Incident) : Incident :=
if truthy_str (body_resolution body) then
  let res := or_str (body_resolution body) "" in
  with_timeline
    (push (timeline i) (mkTimelineEvent t' tl_action "Incident Resolved" res None))
    (with_resolution res t i)
else i.

Definition with_status_of (body : UpdateBody) (i : Incident) : Incident :=
match body_status body with
| Some st => with_status st i
| None => i
end.

End IncidentsMoreSpec.

Module MissionsMoreSpec.

Import Js Missions MissionsRoutes MissionsSpec.

(** Every mission of the map is filed under its own id, and every
  reference held by the map or by [activeMission] points to an
  object. *)
Definition filed (s : State) : Prop :=
(forall id ref, JsMap.get id (missions s) = Some ref ->
   exists m, deref s ref = Some m /\ m_id m = id) /\
(forall a, activeMission s = Some a -> exists m, deref s a = Some m).

(** The requests that change the store. *)
Inductive Action :=
| Create (body : CreateBody)
| Start (id : string)
| Pause (id : string)
| Resume (id : string)
| Stop (id : string)
| SetSpeed (id : string) (speed : Q)
| Branch (id : string) (title : option string).

Definition step (a : Action) : Js.Prog State PlainviewEvent unit :=
match a with
| Create body => bind (create body) (fun _ => ret tt)
| Start id => bind (start id) (fun _ => ret tt)
| Pause id => bind (pause id) (fun _ => ret tt)
| Resume id => bind (resume id) (fun _ => ret tt)
| Stop id => bind (stop id) (fun _ => ret tt)
| SetSpeed id speed => bind (setSpeed id speed) (fun _ => ret tt)
| Branch id title => bind (branch id title) (fun _ => ret tt)
end.

Fixpoint run (actions : list Action) : Js.Prog State PlainviewEvent unit :=
match actions with
| [] => ret tt
| a :: rest => bind (step a) (fun _ => run rest)
end.

Definition empty_store : Ctx := mkCtx Missions.initial (ticking_from 1700000000000) [].

(** Two missions created one after the other, and their ids. *)
Definition two_created : Ctx :=
snd (run [Create (mkCreateBody (Some "Leak replay") None None);
          Create (mkCreateBody (Some "Valve drill") (Some scenario) None)]
       empty_store).

Definition id_of (n : nat) (c : Ctx) : string :=
nth n (JsMap.keys (missions (vars c))) "".

End MissionsMoreSpec.

Module Ros2MoreSpec.

Import Js Ros2 Ros2Spec.

(** A node after [markNodeOffline] at time [t]. *)
Definition offline_at (t : Z) (n : ROS2Node) : ROS2Node :=
with_lastSeen t (with_health h_offline n).

(** [marked m m']: the node map [m'] is [m] after some nodes have been
  marked offline. *)
Inductive marked (m : JsMap.t ROS2Node) : JsMap.t ROS2Node -> Prop :=
| marked_none : marked m m
| marked_more (m' : JsMap.t ROS2Node) (nodeId : string) (t : Z) :
    marked m m' -> marked m (JsMap.update nodeId (offline_at t) m').


(** The action registers a node under [nodeId]. *)
Definition registers (nodeId : string) (a : Action) : bool :=
match a with
| RegisterNode node => String.eqb (node_key node) nodeId
| _ => false
end.


(** A node last seen 70 seconds before the clock of [two_nodes], beside
  [gateway], seen 40 seconds before it. *)
Definition silent : ROS2Node :=
mkNode "pump_07" "/field/pumps" nt_sensor None ["flow"] [] (epoch - 30000) h_ok.

Definition no_nodes : Ctx :=
mkCtx (Ros2.initial epoch) (frozen_at (epoch + 40000)) [].

Definition two_nodes : Ctx :=
snd (run [RegisterNode gateway; RegisterNode silent] no_nodes).

End Ros2MoreSpec.

(* ================================================================== *)
(** * Properties *)
(* ================================================================== *)

(** ** Numbers and arrays *)

Lemma Qgtb_true_iff (x y : Q) : Js.Qgtb x y = true <-> (y < x)%Q.
Proof.
  unfold Js.Qgtb. rewrite negb_true_iff. split.
  - intros H. apply Qnot_le_lt. intros Hle.
    apply Qle_bool_iff in Hle. congruence.
  - intros H. destruct (Qle_bool x y) eqn:E; [| reflexivity].
    apply Qle_bool_iff in E. exfalso. exact (Qlt_not_le _ _ H E).
Qed.

Lemma Qgtb_false_iff (x y : Q) : Js.Qgtb x y = false <-> ~ (y < x)%Q.
Proof.
  rewrite <- Qgtb_true_iff. destruct (Js.Qgtb x y); split; intros; congruence.
Qed.


Lemma slice_last_all {A} (n : nat) (l : list A) :
  List.length l <= n -> Js.slice_last n l = l.
Proof.
  intros H. unfold Js.slice_last.
  replace (List.length l - n) with 0 by lia. reflexivity.
Qed.

Lemma push_length {A} (l : list A) (x : A) :
  List.length (Js.push l x) = S (List.length l).
Proof. unfold Js.push. rewrite length_app. simpl. lia. Qed.

Lemma shift_push_length {A} (l : list A) (x : A) :
  List.length (Js.shift (Js.push l x)) = List.length l.
Proof.
  unfold Js.push, Js.shift. destruct l; simpl; [reflexivity |].
  rewrite length_app. simpl. lia.
Qed.



(** ** Programs *)

Lemma bind_run {S E A B} (m : Js.Prog S E A) (k : A -> Js.Prog S E B) (c : Js.Ctx S E) :
  Js.bind m k c = k (fst (m c)) (snd (m c)).
Proof. unfold Js.bind. destruct (m c). reflexivity. Qed.

Lemma uuid_frame {S} (c : Js.Ctx S PlainviewEvent) :
  Js.vars (snd (uuid c)) = Js.vars c /\ Js.published (snd (uuid c)) = Js.published c.
Proof. split; reflexivity. Qed.

(** ** Frame rules *)

Section Frames.

Context {S E X : Type} (proj : S -> X).

Lemma preserves_ret {A} (a : A) : preserves (E := E) proj (Js.ret a).
Proof. intros c. reflexivity. Qed.

Lemma preserves_bind {A B} (m : Js.Prog S E A) (k : A -> Js.Prog S E B) :
  preserves proj m -> (forall a, preserves proj (k a)) -> preserves proj (Js.bind m k).
Proof.
  intros Hm Hk c. rewrite bind_run. rewrite Hk. apply Hm.
Qed.

Lemma preserves_getv : preserves (E := E) proj Js.getv.
Proof. intros c. reflexivity. Qed.

Lemma preserves_dateNow : preserves (E := E) proj Js.dateNow.
Proof. intros c. reflexivity. Qed.

Lemma preserves_mathRandom : preserves (E := E) proj Js.mathRandom.
Proof. intros c. reflexivity. Qed.

Lemma preserves_render36 (q : Q) : preserves (E := E) proj (Js.render36 q).
Proof. intros c. reflexivity. Qed.

Lemma preserves_publish (e : E) : preserves proj (Js.publish e).
Proof. intros c. reflexivity. Qed.

Lemma preserves_modify (f : S -> S) :
  (forall s, proj (f s) = proj s) -> preserves (E := E) proj (Js.modify f).
Proof. intros H c. apply H. Qed.

Lemma preserves_zoom {T A} (get : S -> T) (set : T -> S -> S) (p : Js.Prog T E A) :
  (forall t s, proj (set t s) = proj s) -> preserves proj (Js.zoom get set p).
Proof.
  intros H c. unfold Js.zoom. destruct (p _) as [a c']. cbn [snd Js.vars]. apply H.
Qed.

End Frames.

Lemma preserves_uuid {S X} (proj : S -> X) : preserves proj (@uuid S).
Proof. intros c. reflexivity. Qed.

(** Splits a frame goal along the structure of the program. *)
Ltac frame_step :=
  first
    [ apply preserves_ret | apply preserves_getv | apply preserves_dateNow
    | apply preserves_mathRandom | apply preserves_render36
    | apply preserves_publish | apply preserves_uuid
    | apply preserves_zoom; intros; reflexivity
    | apply preserves_modify; intros ?; try reflexivity;
      match goal with |- context [if ?b then _ else _] => destruct b end;
      reflexivity
    | apply preserves_bind; [ | intros ? ]
    | match goal with
      | |- preserves _ (if ?b then _ else _) => destruct b
      | |- preserves _ (match ?x with _ => _ end) => destruct x
      end ].

Ltac frame := repeat frame_step.

(** ** Maps *)

Lemma get_set_same {V} (k : string) (v : V) (m : JsMap.t V) :
  JsMap.get k (JsMap.set k v m) = Some v.
Proof.
  induction m as [| [k' v'] m IH]; cbn [JsMap.set JsMap.get].
  - rewrite String.eqb_refl. reflexivity.
  - destruct (String.eqb k k') eqn:E; cbn [JsMap.get].
    + rewrite String.eqb_refl. reflexivity.
    + rewrite E. exact IH.
Qed.

Lemma get_set_other {V} (k k0 : string) (v : V) (m : JsMap.t V) :
  k0 <> k -> JsMap.get k0 (JsMap.set k v m) = JsMap.get k0 m.
Proof.
  intros Hne. apply String.eqb_neq in Hne.
  induction m as [| [k' v'] m IH]; cbn [JsMap.set JsMap.get].
  - rewrite Hne. reflexivity.
  - destruct (String.eqb k k') eqn:E; cbn [JsMap.get].
    + apply String.eqb_eq in E. subst k'. rewrite Hne. reflexivity.
    + destruct (String.eqb k0 k'); [reflexivity | exact IH].
Qed.

Lemma get_update_same {V} (k : string) (f : V -> V) (m : JsMap.t V) :
  JsMap.get k (JsMap.update k f m) = option_map f (JsMap.get k m).
Proof.
  induction m as [| [k' v] m IH]; [reflexivity |].
  cbn [JsMap.update JsMap.get].
  destruct (String.eqb k k') eqn:E; cbn [JsMap.get]; rewrite E;
    [reflexivity | exact IH].
Qed.

Lemma get_update_other {V} (k k0 : string) (f : V -> V) (m : JsMap.t V) :
  k0 <> k -> JsMap.get k0 (JsMap.update k f m) = JsMap.get k0 m.
Proof.
  intros Hne. apply String.eqb_neq in Hne.
  induction m as [| [k' v] m IH]; [reflexivity |].
  cbn [JsMap.update JsMap.get].
  destruct (String.eqb k k') eqn:E; cbn [JsMap.get].
  - apply String.eqb_eq in E. subst k'. rewrite Hne. reflexivity.
  - destruct (String.eqb k0 k'); [reflexivity | exact IH].
Qed.

Lemma keys_update {V} (k : string) (f : V -> V) (m : JsMap.t V) :
  JsMap.keys (JsMap.update k f m) = JsMap.keys m.
Proof.
  induction m as [| [k' v] m IH]; [reflexivity |].
  cbn [JsMap.update]. destruct (String.eqb k k'); cbn [JsMap.keys map fst];
    [reflexivity |]. f_equal. exact IH.
Qed.

Lemma values_set_forallb {V} (p : V -> bool) (k : string) (v : V) (m : JsMap.t V) :
  p v = true ->
  forallb p (JsMap.values m) = true ->
  forallb p (JsMap.values (JsMap.set k v m)) = true.
Proof.
  intros Hv. induction m as [| [k' v'] m IH]; cbn [JsMap.set JsMap.values map snd forallb].
  - intros _. rewrite Hv. reflexivity.
  - intros H. apply andb_true_iff in H. destruct H as [H1 H2].
    destruct (String.eqb k k'); cbn [map snd forallb].
    + rewrite Hv. exact H2.
    + rewrite H1. apply IH. exact H2.
Qed.

Lemma values_update_forallb {V} (p : V -> bool) (k : string) (f : V -> V) (m : JsMap.t V) :
  (forall v, p (f v) = true) ->
  forallb p (JsMap.values m) = true ->
  forallb p (JsMap.values (JsMap.update k f m)) = true.
Proof.
  intros Hf. induction m as [| [k' v'] m IH]; [reflexivity |].
  cbn [JsMap.update JsMap.values map snd forallb].
  intros H. apply andb_true_iff in H. destruct H as [H1 H2].
  destruct (String.eqb k k'); cbn [map snd forallb].
  - rewrite Hf. exact H2.
  - rewrite H1. apply IH. exact H2.
Qed.

(** ** FlowIQ *)

Module FlowIQFacts.

Import Js FlowIQ FlowIQSpec.


Lemma check_frame fires ty sev range actual (c : Ctx) :
  vars (snd (check fires ty sev range actual c)) = vars c /\
  published (snd (check fires ty sev range actual c)) = published c.
Proof. destruct fires; split; reflexivity. Qed.


Lemma detect_frame (current : FlowMetrics) (c : Ctx) :
  vars (snd (detectAnomalies current c)) = vars c /\
  published (snd (detectAnomalies current c)) = published c.
Proof.
  unfold detectAnomalies, bind, getv.
  destruct (Nat.leb 3 _); [| split; reflexivity].
  repeat match goal with
  | |- context [check ?f ?t ?s ?r ?a ?c0] =>
      let H := fresh "F" in
      pose proof (check_frame f t s r a c0) as H;
      destruct (check f t s r a c0) as [? ?]; simpl in H; destruct H
  end.
  simpl. split; congruence.
Qed.


Lemma detect_flow_miss (current : FlowMetrics) (c : Ctx) :
  let recent := slice_last 10 (metricsHistory (vars c)) in
  let avgFlow := average flowRateLpm recent in
  let dev := Qabs (flowRateLpm current - avgFlow) in
  flow_fires avgFlow dev = false ->
  Forall (fun a => anomaly_type a <> flow_rate_deviation)
    (fst (detectAnomalies current c)).
Proof.
  intros recent avgFlow dev Hfire.
  unfold detectAnomalies, bind, getv.
  fold recent. destruct (Nat.leb 3 _); [| constructor].
  fold avgFlow. fold dev. rewrite Hfire. cbn [check ret].
  match goal with |- context [check ?b pressure_deviation ?s ?r ?a c] =>
    destruct b end;
  cbn [check bind ret uuid dateNow mathRandom render36];
  match goal with |- context [check ?b temperature_spike ?s ?r ?a ?c0] =>
    destruct b end;
  cbn [check bind ret uuid dateNow mathRandom render36 fst snd app];
  repeat constructor; cbn [anomaly_type]; discriminate.
Qed.

Lemma record_cons (a : FlowAnomaly) (l : list FlowAnomaly) (c : Ctx) :
  recordAnomalies (a :: l) c =
  recordAnomalies l
    (mkCtx (set_anomalyHistory (push (anomalyHistory (vars c)) a) (vars c))
       (tick (env c))
       (published c ++
          [AnomalyDetected "flow-system" (anomaly_type a)
             (confidence_of (anomaly_severity a))
             (time_at (env c) (reads (env c)))])).
Proof. reflexivity. Qed.

Lemma record_spec (l : list FlowAnomaly) : forall c : Ctx,
  let c' := snd (recordAnomalies l c) in
  anomalyHistory (vars c') = anomalyHistory (vars c) ++ l /\
  metricsHistory (vars c') = metricsHistory (vars c) /\
  ros2Active (vars c') = ros2Active (vars c) /\
  loadedAt (vars c') = loadedAt (vars c) /\
  exists evs,
    published c' = published c ++ evs /\ Forall2 announces l evs.
Proof.
  induction l as [| a l IH]; intros c c'; subst c'.
  - simpl. rewrite app_nil_r. repeat split. exists []. rewrite app_nil_r. split; constructor.
  - rewrite record_cons.
    match goal with |- context [recordAnomalies l ?c0] =>
      specialize (IH c0); destruct (recordAnomalies l c0) as [u c1] end.
    simpl in *. destruct IH as (Ha & Hm & Hr & Hl & evs & Hp & Hf).
    unfold push in Ha. rewrite <- app_assoc in Ha. simpl in Ha.
    repeat split; try assumption.
    eexists (_ :: evs). rewrite Hp, <- app_assoc. simpl. split; [reflexivity |].
    constructor; [| assumption]. eexists. reflexivity.
Qed.

Lemma store_and_detect_eq (current : FlowMetrics) (c : Ctx) :
  store_and_detect current c =
    let cs := mkCtx (set_metricsHistory
                       (appended (metricsHistory (vars c)) current) (vars c))
                (env c) (published c) in
    let cz := snd (zoom db_metrics set_db_metrics (Db.insertMetric current) cs) in
    let d := detectAnomalies current cz in
    let cr := snd (recordAnomalies (fst d) (snd d)) in
    (tt, mkCtx (vars cr) (env cr) (published cr ++ [FlowMetricsUpdated current])).
Proof.
  unfold store_and_detect, bind, modify, publish. cbn [vars env published].
  match goal with |- context [zoom _ _ _ (mkCtx ?v _ _)] =>
    assert (Hcs : v = set_metricsHistory
                        (appended (metricsHistory (vars c)) current) (vars c))
      by (unfold appended; cbn [metricsHistory set_metricsHistory];
          destruct (Nat.ltb 100 _); reflexivity);
    rewrite Hcs
  end.
  cbv zeta.
  destruct (zoom _ _ _ _) as [u cz]. cbn [snd].
  destruct (detectAnomalies current cz) as [anoms cd]. cbn [fst snd].
  destruct (recordAnomalies anoms cd) as [u' cr]. reflexivity.
Qed.

Lemma store_and_detect_spec (current : FlowMetrics) (c : Ctx) :
  let c' := snd (store_and_detect current c) in
  metricsHistory (vars c') = appended (metricsHistory (vars c)) current /\
  ros2Active (vars c') = ros2Active (vars c) /\
  loadedAt (vars c') = loadedAt (vars c) /\
  exists (cm : Ctx) evs,
    metricsHistory (vars cm) = appended (metricsHistory (vars c)) current /\
    anomalyHistory (vars c') =
      anomalyHistory (vars c) ++ fst (detectAnomalies current cm) /\
    published c' = published c ++ evs ++ [FlowMetricsUpdated current] /\
    Forall2 announces (fst (detectAnomalies current cm)) evs.
Proof.
  intros c'. subst c'. rewrite store_and_detect_eq. cbv zeta. cbn [snd].
  set (cs := mkCtx (set_metricsHistory
                      (appended (metricsHistory (vars c)) current) (vars c))
               (env c) (published c)).
  assert (Hz : vars (snd (zoom db_metrics set_db_metrics (Db.insertMetric current) cs))
               = set_db_metrics
                   (db_metrics (vars (snd (zoom db_metrics set_db_metrics
                                             (Db.insertMetric current) cs))))
                   (vars cs) /\
               published (snd (zoom db_metrics set_db_metrics
                                 (Db.insertMetric current) cs)) = published cs)
    by (unfold zoom, Db.insertMetric, bind, dateNow, modify; split; reflexivity).
  set (cz := snd (zoom db_metrics set_db_metrics (Db.insertMetric current) cs)) in *.
  destruct Hz as [Hzv Hzp].
  pose proof (detect_frame current cz) as [Hdv Hdp].
  set (d := detectAnomalies current cz) in *.
  pose proof (record_spec (fst d) (snd d)) as Hrec.
  set (cr := snd (recordAnomalies (fst d) (snd d))) in *.
  cbv zeta in Hrec.
  destruct Hrec as (Ha & Hm & Hr & Hl & evs & Hp & Hf).
  cbn [vars published].
  assert (Hhist : metricsHistory (vars cz) = appended (metricsHistory (vars c)) current)
    by (rewrite Hzv; reflexivity).
  assert (Hrest : anomalyHistory (vars cz) = anomalyHistory (vars c) /\
                  ros2Active (vars cz) = ros2Active (vars c) /\
                  loadedAt (vars cz) = loadedAt (vars c) /\
                  published cz = published c)
    by (rewrite Hzv, Hzp; repeat split; reflexivity).
  destruct Hrest as (Hra & Hrr & Hrl & Hrp).
  split; [rewrite Hm, Hdv; exact Hhist |].
  split; [rewrite Hr, Hdv; exact Hrr |].
  split; [rewrite Hl, Hdv; exact Hrl |].
  exists cz, evs.
  split; [exact Hhist |].
  split; [rewrite Ha, Hdv, Hra; reflexivity |].
  split; [rewrite Hp, Hdp, Hrp, <- app_assoc; reflexivity | exact Hf].
Qed.

Lemma appended_length (h : list FlowMetrics) (current : FlowMetrics) :
  List.length (appended h current) =
    if Nat.ltb 100 (S (List.length h)) then List.length h else S (List.length h).
Proof.
  unfold appended. rewrite push_length.
  destruct (Nat.ltb 100 _); [apply shift_push_length | apply push_length].
Qed.


(** The entry point builds its sample and hands it to the common part,
    having touched nothing but the [ros2Active] flag. *)
Lemma ingest_eq (sample : Sample) (c : Ctx) :
  exists c1 : Ctx,
    ingestFlowTelemetry sample c = store_and_detect (current_of sample c) c1 /\
    metricsHistory (vars c1) = metricsHistory (vars c) /\
    anomalyHistory (vars c1) = anomalyHistory (vars c) /\
    published c1 = published c.
Proof.
  unfold ingestFlowTelemetry, current_of, stamp, bind, modify, getv.
  cbn [vars env published].
  destruct (s_timestamp sample) as [t |]; [destruct (Z.eqb t 0) |];
    cbn [dateNow ret vars env published];
    eexists; (split; [reflexivity |]); repeat split; reflexivity.
Qed.

(** The generator does nothing once external telemetry has arrived, and
    otherwise hands its sample to the common part. *)
Lemma collect_eq (c : Ctx) :
  (ros2Active (vars c) = true /\ collect c = (tt, c)) \/
  (ros2Active (vars c) = false /\
   exists c1 : Ctx,
     collect c = store_and_detect (generated c) c1 /\
     metricsHistory (vars c1) = metricsHistory (vars c) /\
     anomalyHistory (vars c1) = anomalyHistory (vars c) /\
     published c1 = published c).
Proof.
  unfold collect, generated, bind, getv.
  destruct (ros2Active (vars c)); [left; split; reflexivity | right].
  split; [reflexivity |].
  cbn [mathRandom dateNow vars env published roll tick rand_at draws time_at reads].
  eexists; (split; [reflexivity |]); repeat split; reflexivity.
Qed.







(** Every step appends to the anomaly history and removes nothing. *)
Lemma anomalyHistory_only_grows (a : Step) (c : Ctx) :
  exists added,
    anomalyHistory (vars (snd (step a c))) = anomalyHistory (vars c) ++ added.
Proof.
  destruct a as [sample |]; cbn [step].
  - destruct (ingest_eq sample c) as (c1 & Heq & _ & Ha1 & _). rewrite Heq.
    destruct (store_and_detect_spec (current_of sample c) c1)
      as (_ & _ & _ & cm & evs & _ & Ha & _).
    rewrite Ha, Ha1. eauto.
  - destruct (collect_eq c) as [[_ Heq] | [_ (c1 & Heq & _ & Ha1 & _)]];
      rewrite Heq.
    + exists []. rewrite app_nil_r. reflexivity.
    + destruct (store_and_detect_spec (generated c) c1)
        as (_ & _ & _ & cm & evs & _ & Ha & _).
      rewrite Ha, Ha1. eauto.
Qed.

(** The sample history keeps the most recent 100 entries, oldest first. *)
Lemma metricsHistory_fifo (h : list FlowMetrics) (current : FlowMetrics) :
  List.length h <= 100 ->
  appended h current = slice_last 100 (h ++ [current]).
Proof.
  intros H. unfold appended, push, shift, slice_last.
  rewrite length_app. cbn [List.length].
  destruct (Nat.ltb 100 _) eqn:E.
  - apply Nat.ltb_lt in E.
    replace (List.length h + 1 - 100) with 1 by lia.
    destruct h; reflexivity.
  - apply Nat.ltb_ge in E.
    replace (List.length h + 1 - 100) with 0 by lia. reflexivity.
Qed.

Lemma metricsHistory_step (a : Step) (c : Ctx) :
  metricsHistory (vars (snd (step a c))) = metricsHistory (vars c) \/
  exists current,
    metricsHistory (vars (snd (step a c))) = appended (metricsHistory (vars c)) current.
Proof.
  destruct a as [sample |]; cbn [step].
  - destruct (ingest_eq sample c) as (c1 & Heq & Hm1 & _). rewrite Heq.
    destruct (store_and_detect_spec (current_of sample c) c1) as (Hm & _).
    right. eexists. rewrite Hm, Hm1. reflexivity.
  - destruct (collect_eq c) as [[_ Heq] | [_ (c1 & Heq & Hm1 & _)]]; rewrite Heq.
    + left. reflexivity.
    + destruct (store_and_detect_spec (generated c) c1) as (Hm & _).
      right. eexists. rewrite Hm, Hm1. reflexivity.
Qed.

Lemma metricsHistory_bounded (steps : list Step) : forall c : Ctx,
  List.length (metricsHistory (vars c)) <= 100 ->
  List.length (metricsHistory (vars (snd (run steps c)))) <= 100.
Proof.
  induction steps as [| a steps IH]; intros c H; [exact H |].
  cbn [run]. unfold bind.
  pose proof (metricsHistory_step a c) as Hs.
  destruct (step a c) as [u c1]. cbn [snd] in Hs. apply IH.
  destruct Hs as [Hs | [current Hs]]; rewrite Hs; [exact H |].
  rewrite appended_length.
  destruct (Nat.ltb 100 _) eqn:E; [exact H |]. apply Nat.ltb_ge in E. exact E.
Qed.

(** C5 (the code departs from it).  The anomaly history has no
    capacity: a step only ever appends to it, and 169 samples swinging
    between two operating points leave 501 entries in it. *)
Theorem anomaly_history_outgrows_500 :
  (forall (a : Step) (c : Ctx), exists added,
      anomalyHistory (vars (snd (step a c))) = anomalyHistory (vars c) ++ added) /\
  List.length (anomalyHistory (vars (snd (run (swinging 169) fresh)))) = 501.
Proof.
  split; [exact anomalyHistory_only_grows |].
  vm_compute. reflexivity.
Qed.

End FlowIQFacts.

(** ** Maps and object lists *)

Lemma update_at_app {A} (f : A -> A) (pre : list A) (x : A) (post : list A) :
  update_at (List.length pre) f (pre ++ x :: post) = pre ++ f x :: post.
Proof. induction pre as [| y pre IH]; simpl; [reflexivity | now rewrite IH]. Qed.

Lemma update_at_length {A} (f : A -> A) (l : list A) : forall i,
  List.length (update_at i f l) = List.length l.
Proof.
  induction l as [| x l IH]; intros [| i]; simpl; try reflexivity.
  now rewrite IH.
Qed.

Lemma keys_combine {V} (ks : list string) (vs : list V) :
  List.length ks = List.length vs -> JsMap.keys (combine ks vs) = ks.
Proof.
  unfold JsMap.keys. revert vs.
  induction ks as [| k ks IH]; intros [| v vs] H; simpl in *; try discriminate;
    [reflexivity |]. f_equal. apply IH. lia.
Qed.

Lemma values_combine {V} (ks : list string) (vs : list V) :
  List.length ks = List.length vs -> JsMap.values (combine ks vs) = vs.
Proof.
  unfold JsMap.values. revert vs.
  induction ks as [| k ks IH]; intros [| v vs] H; simpl in *; try discriminate;
    [reflexivity |]. f_equal. apply IH. lia.
Qed.

Lemma keys_values_length {V} (m : JsMap.t V) :
  List.length (JsMap.keys m) = List.length (JsMap.values m).
Proof. unfold JsMap.keys, JsMap.values. now rewrite !length_map. Qed.

Lemma find_filter {A} (p q : A -> bool) (l : list A) :
  find q (filter p l) = find (fun x => p x && q x) l.
Proof.
  induction l as [| x l IH]; simpl; [reflexivity |].
  destruct (p x); simpl; [| exact IH].
  destruct (q x); [reflexivity | exact IH].
Qed.

Lemma find_numbered_hit {A} (p : A -> bool) (pre : list A) (x : A) (post : list A) :
  forall s,
  forallb (fun y => negb (p y)) pre = true ->
  p x = true ->
  find (fun q => p (snd q))
       (combine (seq s (List.length (pre ++ x :: post))) (pre ++ x :: post))
  = Some (s + List.length pre, x).
Proof.
  induction pre as [| y pre IH]; intros s Hpre Hx; simpl.
  - rewrite Hx. f_equal. f_equal. lia.
  - simpl in Hpre. apply andb_true_iff in Hpre. destruct Hpre as [Hy Hpre].
    apply negb_true_iff in Hy. rewrite Hy.
    rewrite IH by assumption. f_equal. f_equal. lia.
Qed.

Lemma find_numbered_miss {A} (p : A -> bool) (l : list A) : forall s,
  forallb (fun y => negb (p y)) l = true ->
  find (fun q => p (snd q)) (combine (seq s (List.length l)) l) = None.
Proof.
  induction l as [| y l IH]; intros s H; simpl; [reflexivity |].
  simpl in H. apply andb_true_iff in H. destruct H as [Hy H].
  apply negb_true_iff in Hy. rewrite Hy. apply IH. exact H.
Qed.

(** ** Incidents *)

Module IncidentsFacts.

Import Js Incidents IncidentsSpec.

(** What [correlateAlerts] returns, in terms of the incidents in map
    order. *)
Lemma correlate_eq (event : AlertEvent) (c : Ctx) :
  correlateAlerts event c =
    ((if located event
      then find (fun p => candidate (time_at (env c) (reads (env c))) (snd p))
                (objects (incidents (vars c)))
      else None),
     mkCtx (vars c) (tick (env c)) (published c)).
Proof.
  unfold correlateAlerts, bind, dateNow, getv, located.
  cbn [vars env published].
  destruct (truthy_num (alert_latitude event) && truthy_num (alert_longitude event));
    [| reflexivity].
  unfold ret. rewrite find_filter. reflexivity.
Qed.

Lemma objects_values (m : JsMap.t Incident) :
  objects m = combine (seq 0 (List.length (JsMap.values m))) (JsMap.values m).
Proof. unfold objects, JsMap.values. now rewrite length_map. Qed.

Lemma mutate_values (ref : nat) (f : Incident -> Incident) (c : Ctx) :
  let c' := snd (mutate ref f c) in
  JsMap.keys (incidents (vars c')) = JsMap.keys (incidents (vars c)) /\
  JsMap.values (incidents (vars c')) = update_at ref f (JsMap.values (incidents (vars c))) /\
  alertQueue (vars c') = alertQueue (vars c) /\
  env c' = env c /\ published c' = published c.
Proof.
  unfold mutate, modify. cbn [snd vars env published incidents set_incidents alertQueue].
  assert (Hlen : List.length (JsMap.keys (incidents (vars c)))
                 = List.length (update_at ref f (JsMap.values (incidents (vars c)))))
    by (rewrite update_at_length; apply keys_values_length).
  rewrite keys_combine, values_combine by exact Hlen.
  repeat split; reflexivity.
Qed.

Lemma alert_ref_frame (event : AlertEvent) (c : Ctx) :
  vars (snd (alert_ref event c)) = vars c /\
  published (snd (alert_ref event c)) = published c /\
  (truthy_str (alert_id event) = true ->
     alert_id event = Some (fst (alert_ref event c))).
Proof.
  unfold alert_ref, truthy_str, or_str.
  destruct (alert_id event) as [s |]; cbn [negb].
  - destruct (String.eqb s ""); cbn [negb];
      repeat split; try reflexivity; discriminate.
  - repeat split; try reflexivity; discriminate.
Qed.

Lemma timeline_event_eq ty title description metadata (c : Ctx) :
  createTimelineEvent ty title description metadata c =
    (mkTimelineEvent (time_at (env c) (reads (env c))) ty title description metadata,
     mkCtx (vars c) (tick (env c)) (published c)).
Proof. reflexivity. Qed.

Lemma handle_attach (event : AlertEvent) (c : Ctx)
    (pre : list Incident) (inc : Incident) (post : list Incident) :
  located event = true ->
  JsMap.values (incidents (vars c)) = pre ++ inc :: post ->
  forallb (fun i => negb (candidate (time_at (env c) (reads (env c))) i)) pre = true ->
  candidate (time_at (env c) (reads (env c))) inc = true ->
  let c' := snd (handleAlert (AlertCreated event) c) in
  exists aid entry at_ms,
    JsMap.keys (incidents (vars c')) = JsMap.keys (incidents (vars c)) /\
    JsMap.values (incidents (vars c')) = pre ++ attached aid entry inc :: post /\
    alertQueue (vars c') = push (alertQueue (vars c)) event /\
    (truthy_str (alert_id event) = true -> alert_id event = Some aid) /\
    tl_type entry = tl_alert /\
    tl_metadata entry = Some event /\
    published c' = published c ++ [IncidentUpdated (incident_id inc) at_ms].
Proof.
  intros Hloc Hvals Hpre Hinc c'.
  set (c0 := mkCtx (mkState (incidents (vars c)) (push (alertQueue (vars c)) event))
               (tick (env c)) (published c)).
  set (ref := List.length pre).
  destruct (alert_ref_frame event c0) as (Hv1 & Hp1 & Hid).
  set (aid := fst (alert_ref event c0)) in *.
  set (c1 := snd (alert_ref event c0)) in *.
  set (f1 := fun i : Incident => with_alertIds (push (alertIds i) aid) i).
  destruct (mutate_values ref f1 c1) as (Hk2 & Hv2 & Hq2 & He2 & Hp2).
  set (c2 := snd (mutate ref f1 c1)) in *.
  set (entry := mkTimelineEvent (time_at (env c2) (reads (env c2))) tl_alert
                  "New alert"
                  (severity_label event ++ ": "
                     ++ or_str (alert_message event) "Alert")%string
                  (Some event)).
  set (c3 := mkCtx (vars c2) (tick (env c2)) (published c2)).
  set (f2 := fun i : Incident => with_timeline (push (timeline i) entry) i).
  destruct (mutate_values ref f2 c3) as (Hk4 & Hv4 & Hq4 & He4 & Hp4).
  set (c4 := snd (mutate ref f2 c3)) in *.
  assert (E : c' = mkCtx (vars c4) (tick (env c4))
                     (published c4
                        ++ [IncidentUpdated (incident_id inc)
                              (time_at (env c4) (reads (env c4)))])).
  { subst c'. unfold handleAlert. rewrite bind_run. unfold modify.
    cbn [fst snd]. rewrite bind_run, correlate_eq.
    cbn [fst snd vars env published incidents].
    rewrite Hloc, objects_values, Hvals.
    rewrite (find_numbered_hit (candidate (time_at (env c) (reads (env c))))
               pre inc post 0 Hpre Hinc).
    cbn [Nat.add]. fold ref. fold c0.
    rewrite bind_run. fold aid. fold c1. fold f1.
    rewrite bind_run. fold c2.
    rewrite bind_run, timeline_event_eq. cbn [fst snd]. fold entry. fold c3.
    fold f2. rewrite bind_run. fold c4.
    reflexivity. }
  exists aid, entry, (time_at (env c4) (reads (env c4))).
  rewrite E. cbn [vars published].
  split; [rewrite Hk4; cbn [vars c3]; rewrite Hk2, Hv1; reflexivity |].
  split.
  { rewrite Hv4. cbn [vars c3]. rewrite Hv2, Hv1. cbn [vars c0 incidents].
    rewrite Hvals. unfold ref. rewrite update_at_app, update_at_app.
    reflexivity. }
  split; [rewrite Hq4; cbn [vars c3]; rewrite Hq2, Hv1; reflexivity |].
  split; [exact Hid |].
  split; [reflexivity |]. split; [reflexivity |].
  rewrite Hp4. cbn [published c3]. rewrite Hp2, Hp1. reflexivity.
Qed.

Lemma handle_open (event : AlertEvent) (c : Ctx) :
  located event = false \/
  forallb (fun i => negb (candidate (time_at (env c) (reads (env c))) i))
    (JsMap.values (incidents (vars c))) = true ->
  let c' := snd (handleAlert (AlertCreated event) c) in
  exists id aid started entry at_ms,
    incidents (vars c') =
      JsMap.set id (opened id aid started entry event) (incidents (vars c)) /\
    alertQueue (vars c') = push (alertQueue (vars c)) event /\
    (truthy_str (alert_id event) = true -> alert_id event = Some aid) /\
    tl_type entry = tl_alert /\
    tl_metadata entry = Some event /\
    published c' =
      published c ++ [IncidentCreated id (or_str (alert_severity event) "warning") at_ms].
Proof.
  intros Hnone c'.
  set (c0 := mkCtx (mkState (incidents (vars c)) (push (alertQueue (vars c)) event))
               (tick (env c)) (published c)).
  destruct (uuid_frame c0) as (Hv1 & Hp1).
  set (id := fst (uuid c0)) in *. set (c1 := snd (uuid c0)) in *.
  set (started := time_at (env c1) (reads (env c1))).
  set (c2 := mkCtx (vars c1) (tick (env c1)) (published c1)).
  destruct (alert_ref_frame event c2) as (Hv3 & Hp3 & Hid).
  set (aid := fst (alert_ref event c2)) in *.
  set (c3 := snd (alert_ref event c2)) in *.
  set (entry := mkTimelineEvent (time_at (env c3) (reads (env c3))) tl_alert
                  "Incident Started" (message_text event) (Some event)).
  assert (E : c' =
              mkCtx (set_incidents
                       (JsMap.set id (opened id aid started entry event)
                          (incidents (vars c3))) (vars c3))
                (tick (tick (env c3)))
                (published c3
                   ++ [IncidentCreated id (or_str (alert_severity event) "warning")
                         (time_at (tick (env c3)) (reads (tick (env c3))))])).
  { subst c'. unfold handleAlert. rewrite bind_run. unfold modify.
    cbn [fst snd]. rewrite bind_run, correlate_eq.
    cbn [fst snd vars env published incidents].
    assert (Hfind : (if located event
                     then find (fun p => candidate (time_at (env c) (reads (env c))) (snd p))
                               (objects (incidents (vars c)))
                     else None) = None).
    { destruct (located event); [| reflexivity].
      destruct Hnone as [Hn | Hn]; [discriminate |].
      rewrite objects_values. apply find_numbered_miss. exact Hn. }
    rewrite Hfind. fold c0.
    rewrite bind_run. fold id. fold c1.
    rewrite bind_run. unfold dateNow at 1. cbn [fst snd]. fold started. fold c2.
    rewrite bind_run. fold aid. fold c3.
    rewrite bind_run, timeline_event_eq. cbn [fst snd]. fold entry.
    reflexivity. }
  exists id, aid, started, entry,
    (time_at (tick (env c3)) (reads (tick (env c3)))).
  rewrite E. cbn [vars published set_incidents incidents alertQueue].
  rewrite Hv3, Hp3. cbn [vars published c2]. rewrite Hv1, Hp1.
  repeat split; try reflexivity. exact Hid.
Qed.




Lemma sorted_tail (a : TimelineEvent) (l : list TimelineEvent) :
  newest_first_sorted (a :: l) = true -> newest_first_sorted l = true.
Proof.
  destruct l as [| b l]; [reflexivity |]. cbn [newest_first_sorted].
  intros H. apply andb_true_iff in H. apply H.
Qed.

Lemma sorted_cons (a b : TimelineEvent) (l : list TimelineEvent) :
  (tl_timestamp b <= tl_timestamp a)%Z ->
  newest_first_sorted (b :: l) = true ->
  newest_first_sorted (a :: b :: l) = true.
Proof.
  intros Hab Hl.
  change ((tl_timestamp b <=? tl_timestamp a)%Z && newest_first_sorted (b :: l) = true).
  rewrite Hl, andb_true_r. apply Z.leb_le. exact Hab.
Qed.

Lemma insert_keeps_sorted (x : TimelineEvent) (s : list TimelineEvent) :
  newest_first_sorted s = true ->
  newest_first_sorted (insert_by newest_first x s) = true.
Proof.
  induction s as [| y s IH]; intros Hs; [reflexivity |].
  cbn [insert_by]. unfold newest_first.
  destruct (0 <? tl_timestamp y - tl_timestamp x)%Z eqn:E.
  - apply Z.ltb_lt in E. specialize (IH (sorted_tail y s Hs)).
    destruct s as [| z s].
    + apply sorted_cons; [lia | reflexivity].
    + cbn [insert_by] in *. unfold newest_first in *.
      destruct (0 <? tl_timestamp z - tl_timestamp x)%Z.
      * apply sorted_cons; [| exact IH].
        cbn [newest_first_sorted] in Hs. apply andb_true_iff in Hs.
        apply Z.leb_le. apply Hs.
      * apply sorted_cons; [lia | exact IH].
  - apply Z.ltb_ge in E. apply sorted_cons; [lia | exact Hs].
Qed.

Lemma sort_by_newest_first_sorted (l : list TimelineEvent) :
  newest_first_sorted (sort_by newest_first l) = true.
Proof.
  induction l as [| x l IH]; [reflexivity |].
  cbn [sort_by fold_right]. apply insert_keeps_sorted. exact IH.
Qed.

(** What the timeline route does to the store. *)
Lemma timeline_read_sorts_the_store (id : string) (inc : Incident) (c : Ctx) :
  JsMap.get id (incidents (vars c)) = Some inc ->
  stored_timeline id (snd (getTimeline id c)) = sort_by newest_first (timeline inc) /\
  exists view,
    fst (getTimeline id c) = ok view /\
    view_timeline view = sort_by newest_first (timeline inc) /\
    newest_first_sorted (view_timeline view) = true.
Proof.
  intros Hget. unfold getTimeline, bind, getv, stored_timeline.
  rewrite Hget. unfold on_incident, modify.
  cbn [fst snd vars incidents set_incidents ret].
  rewrite get_update_same, Hget. cbn [option_map with_timeline timeline].
  split; [reflexivity |]. eexists. split; [reflexivity |].
  cbn [view_timeline]. split; [reflexivity | apply sort_by_newest_first_sorted].
Qed.

(** C6 (the code departs from it).  The timeline route answers with the
    timeline sorted newest first, but it sorts the stored array itself:
    after a root cause has been recorded on an incident, its stored
    timeline is the alert entry followed by the update entry, and one
    read of the timeline leaves it stored the other way round. *)
Theorem timeline_read_reorders_stored_timeline :
  (forall (id : string) (inc : Incident) (c : Ctx),
      JsMap.get id (incidents (vars c)) = Some inc ->
      stored_timeline id (snd (getTimeline id c))
        = sort_by newest_first (timeline inc)) /\
  map tl_title (stored_timeline first_id after_root_cause)
    = ["Incident Started"; "Root Cause Identified"] /\
  map tl_title (stored_timeline first_id (snd (getTimeline first_id after_root_cause)))
    = ["Root Cause Identified"; "Incident Started"].
Proof.
  split.
  - intros id inc c H. apply (timeline_read_sorts_the_store id inc c H).
  - vm_compute. split; reflexivity.
Qed.

End IncidentsFacts.

(** ** Operations addressed to an unknown id *)

Module NotFoundFacts.

Lemma lookup_unknown (s : Missions.State) (id : string) :
  JsMap.get id (Missions.missions s) = None -> Missions.lookup s id = None.
Proof. intros H. unfold Missions.lookup. rewrite H. reflexivity. Qed.

(** C8.  An incident update and a mission start, pause, resume, stop,
    speed change or branch addressed to an id that the map does not hold
    answer [not_found] and leave everything as it was: the incident map,
    the mission map with its objects, the active-mission pointer, and
    the trace of published events. *)
Theorem unknown_id_is_not_found_and_mutates_nothing
    (ci : IncidentsSpec.Ctx) (cm : MissionsSpec.Ctx) (id : string)
    (body : Incidents.UpdateBody) (speed : Q) (title : option string) :
  JsMap.get id (Incidents.incidents (Js.vars ci)) = None ->
  JsMap.get id (Missions.missions (Js.vars cm)) = None ->
  Incidents.postUpdate id body ci = (not_found, ci) /\
  Missions.start id cm = (not_found, cm) /\
  Missions.pause id cm = (not_found, cm) /\
  Missions.resume id cm = (not_found, cm) /\
  Missions.stop id cm = (not_found, cm) /\
  Missions.setSpeed id speed cm = (not_found, cm) /\
  Missions.branch id title cm = (not_found, cm).
Proof.
  intros Hi Hm. apply lookup_unknown in Hm.
  split.
  { unfold Incidents.postUpdate, Js.bind, Js.getv. rewrite Hi. reflexivity. }
  unfold Missions.start, Missions.pause, Missions.resume, Missions.stop,
    Missions.setSpeed, Missions.branch, Js.bind, Js.getv.
  rewrite Hm. repeat split; reflexivity.
Qed.

Lemma unknown_id_witness :
  Incidents.postUpdate "no-such-id"
      (Incidents.mkUpdateBody (Some inc_resolved) (Some "valve") (Some "replaced"))
      IncidentsSpec.after_first_alert
    = (not_found, IncidentsSpec.after_first_alert) /\
  Missions.stop "no-such-id" MissionsSpec.one_running
    = (not_found, MissionsSpec.one_running) /\
  Missions.setSpeed "no-such-id" (5 # 1) MissionsSpec.one_running
    = (not_found, MissionsSpec.one_running).
Proof.
  destruct (unknown_id_is_not_found_and_mutates_nothing
              IncidentsSpec.after_first_alert MissionsSpec.one_running
              "no-such-id"
              (Incidents.mkUpdateBody (Some inc_resolved) (Some "valve") (Some "replaced"))
              (5 # 1) None)
    as (Hu & _ & _ & _ & Hs & Hv & _); try reflexivity.
  repeat split; assumption.
Defined.

End NotFoundFacts.

(** ** ROS2 bridge *)

Module Ros2Facts.

Import Js Ros2 Ros2Spec.

Lemma generate_preserves {X} (proj : State -> X) (topic : string) :
  preserves proj (generateMockTelemetry topic).
Proof. unfold generateMockTelemetry. frame. Qed.

Lemma emit_preserves_nodes (e : LocalEvent) : preserves nodes (emit e).
Proof. intros c. reflexivity. Qed.

Lemma emit_preserves_commandHistory (e : LocalEvent) : preserves commandHistory (emit e).
Proof. intros c. reflexivity. Qed.

(** A telemetry delivery leaves every node as it was. *)
Lemma telemetry_preserves_nodes (nodeId topic : string) :
  preserves nodes (telemetryCallback nodeId topic).
Proof.
  unfold telemetryCallback.
  apply preserves_bind; [apply preserves_getv | intros st].
  destruct (negb _); [frame |].
  apply preserves_bind; [apply generate_preserves | intros data].
  repeat (apply preserves_bind; [frame | intros ?]).
  apply emit_preserves_nodes.
Qed.

Lemma telemetry_preserves_commandHistory (nodeId topic : string) :
  preserves commandHistory (telemetryCallback nodeId topic).
Proof.
  unfold telemetryCallback.
  apply preserves_bind; [apply preserves_getv | intros st].
  destruct (negb _); [frame |].
  apply preserves_bind; [apply generate_preserves | intros data].
  repeat (apply preserves_bind; [frame | intros ?]).
  apply emit_preserves_commandHistory.
Qed.

(** C2 (the code departs from it).  No telemetry delivery touches a
    node, so [lastSeen] is never refreshed: with the 5-second loop of
    [n1] delivering throughout, the node still shows the [lastSeen] of
    its registration after 60 seconds and 12 deliveries, and the monitor
    tick at 90 seconds, right after the 18th delivery, marks it
    offline. *)
Theorem telemetry_does_not_refresh_lastSeen :
  (forall nodeId topic : string, preserves nodes (telemetryCallback nodeId topic)) /\
  (List.length (telemetryBuffer (vars (after_rounds 12))) = 12 /\
   lastSeen_of n1_id (after_rounds 12) = Some epoch /\
   health_of n1_id (after_rounds 12) = Some h_ok) /\
  (List.length (telemetryBuffer (vars (after_rounds 18))) = 18 /\
   option_map t_timestamp
     (List.last (map Some (telemetryBuffer (vars (after_rounds 18)))) None)
     = Some (epoch + 90000)%Z /\
   health_of n1_id (after_rounds 18) = Some h_offline).
Proof.
  split; [exact telemetry_preserves_nodes |].
  split; vm_compute; repeat split; reflexivity.
Qed.

(** C10.  For a registered node [markNodeOffline] sets the health to
    [offline] and [lastSeen] to the current time, keeps the other fields
    of the node, the other nodes and the order of the map, and publishes
    [ros2.node.offline]; the staleness test of the monitor then fails for
    this node at every time up to 60 seconds later.  For an unknown node
    the context is returned as it was: nothing is changed and nothing is
    published. *)
Theorem markNodeOffline_effect (nodeId : string) (c : Ctx) :
  let c' := snd (markNodeOffline nodeId c) in
  let now := time_at (env c) (reads (env c)) in
  match JsMap.get nodeId (nodes (vars c)) with
  | Some node =>
      let node' := mkNode (name node) (namespace node) (node_type node)
                     (location node) (subscribe node) (publish node)
                     now h_offline in
      JsMap.get nodeId (nodes (vars c')) = Some node' /\
      (forall other, other <> nodeId ->
         JsMap.get other (nodes (vars c')) = JsMap.get other (nodes (vars c))) /\
      JsMap.keys (nodes (vars c')) = JsMap.keys (nodes (vars c)) /\
      telemetryBuffer (vars c') = telemetryBuffer (vars c) /\
      commandHistory (vars c') = commandHistory (vars c) /\
      (exists at_ms, published c' = published c ++ [Ros2NodeOffline nodeId at_ms]) /\
      (forall later, (later - now <= 60000)%Z -> stale later node' = false)
  | None => c' = c
  end.
Proof.
  intros c' now. subst c'. unfold markNodeOffline, bind, getv.
  destruct (JsMap.get nodeId (nodes (vars c))) as [node |] eqn:Hget;
    [| reflexivity].
  cbn [modify dateNow emit Js.publish fst snd vars env published nodes set_nodes
       telemetryBuffer commandHistory loops ackTimers emitted flowiq].
  fold now. split.
  { rewrite !get_update_same, Hget. reflexivity. }
  split.
  { intros other Hne. rewrite !get_update_other by exact Hne. reflexivity. }
  split; [rewrite !keys_update; reflexivity |].
  split; [reflexivity |]. split; [reflexivity |].
  split; [eexists; reflexivity |].
  intros later Hlater. unfold stale. cbn [lastSeen]. apply Z.ltb_ge. lia.
Qed.

Lemma markNodeOffline_witness :
  health_of n1_id (snd (markNodeOffline n1_id (after_rounds 12))) = Some h_offline /\
  lastSeen_of n1_id (snd (markNodeOffline n1_id (after_rounds 12)))
    = Some (epoch + 60000)%Z /\
  snd (markNodeOffline "/field/N2" (after_rounds 12)) = after_rounds 12.
Proof.
  pose proof (markNodeOffline_effect n1_id (after_rounds 12)) as Hknown.
  pose proof (markNodeOffline_effect "/field/N2" (after_rounds 12)) as Hunknown.
  cbv zeta in Hknown, Hunknown.
  assert (Hget : JsMap.get n1_id (nodes (vars (after_rounds 12))) = Some n1)
    by (vm_compute; reflexivity).
  assert (Hnone : JsMap.get "/field/N2" (nodes (vars (after_rounds 12))) = None)
    by (vm_compute; reflexivity).
  rewrite Hget in Hknown. rewrite Hnone in Hunknown.
  destruct Hknown as (Hnode & _).
  unfold health_of, lastSeen_of. rewrite Hnode.
  split; [vm_compute; reflexivity |].
  split; [vm_compute; reflexivity | exact Hunknown].
Defined.

Lemma markNodeOffline_preserves_commandHistory (nodeId : string) :
  preserves commandHistory (markNodeOffline nodeId).
Proof.
  unfold markNodeOffline.
  apply preserves_bind; [apply preserves_getv | intros st].
  destruct (JsMap.get nodeId (nodes st)); [| apply preserves_ret].
  repeat (apply preserves_bind; [frame | intros ?]);
    try apply emit_preserves_commandHistory; frame.
Qed.

Lemma sweep_preserves_commandHistory (now : Z) (nodeIds : list string) :
  preserves commandHistory (sweep now nodeIds).
Proof.
  induction nodeIds as [| nodeId rest IH]; cbn [sweep]; [apply preserves_ret |].
  apply preserves_bind; [apply preserves_getv | intros st].
  apply preserves_bind; [| intros ?; exact IH].
  destruct (JsMap.get nodeId (nodes st)) as [node |]; [| apply preserves_ret].
  destruct (stale now node);
    [apply markNodeOffline_preserves_commandHistory | apply preserves_ret].
Qed.

(** How one command is put on record. *)
Lemma publishCommand_ok (cmd : ROS2Command) (node : ROS2Node) (c : Ctx) :
  JsMap.get (c_nodeId cmd) (nodes (vars c)) = Some node ->
  mem (c_topic cmd) (publish node) = true ->
  exists cid ts w,
    let result := mkResult cid pending (c_nodeId cmd) ts None in
    let delay := (rand_at (env c) (S (draws (env c))) * (2000 # 1) + (500 # 1))%Q in
    publishCommand cmd c =
      (inr result,
       mkCtx (mkState (nodes (vars c)) (telemetryBuffer (vars c))
                (JsMap.set cid result (commandHistory (vars c)))
                (loops (vars c))
                (ackTimers (vars c) ++ [(cid, delay)])
                (emitted (vars c) ++ [CommandSent cid])
                (flowiq (vars c)))
         w (published c)).
Proof.
  intros Hget Hmem. unfold publishCommand, bind, getv.
  rewrite Hget, Hmem. cbn [negb].
  do 3 eexists. reflexivity.
Qed.

(** What a step can do to the command history: nothing, put a pending
    result on record, or acknowledge one. *)
Lemma step_commandHistory (a : Action) (c : Ctx) :
  let h := commandHistory (vars c) in
  let h' := commandHistory (vars (snd (step a c))) in
  h' = h \/
  (exists cid r, status r = pending /\ h' = JsMap.set cid r h) \/
  (exists cid, h' = JsMap.update cid (with_status acked) h).
Proof.
  intros h h'. subst h h'. destruct a; cbn [step].
  - left. apply preserves_bind; [frame | intros ?].
    apply preserves_bind; [apply emit_preserves_commandHistory | intros ?]. frame.
  - left. unfold subscribeTelemetry. frame.
  - left. apply preserves_bind; [apply preserves_getv | intros st].
    destruct (existsb _ _);
      [apply telemetry_preserves_commandHistory | apply preserves_ret].
  - rewrite bind_run. cbn [ret snd].
    destruct (JsMap.get (c_nodeId cmd) (nodes (vars c))) as [node |] eqn:Hget.
    + destruct (mem (c_topic cmd) (publish node)) eqn:Hmem.
      * destruct (publishCommand_ok cmd node c Hget Hmem) as (cid & ts & w & Heq).
        cbv zeta in Heq. rewrite Heq. right. left.
        eexists. eexists. split; [| reflexivity]. reflexivity.
      * left. unfold publishCommand, bind, getv. rewrite Hget, Hmem. reflexivity.
    + left. unfold publishCommand, bind, getv. rewrite Hget. reflexivity.
  - rewrite bind_run. cbn [getv fst snd].
    destruct (nth_error (ackTimers (vars c)) n) as [[cid d] |]; [| left; reflexivity].
    rewrite bind_run. unfold modify. cbn [fst snd].
    unfold ackCallback. rewrite bind_run. cbn [getv fst snd vars commandHistory set_ackTimers].
    destruct (JsMap.get cid (commandHistory (vars c))) as [res |]; [| left; reflexivity].
    destruct (is_pending (status res)); [| left; reflexivity].
    right. right. exists cid. reflexivity.
  - left. apply markNodeOffline_preserves_commandHistory.
  - left. unfold heartbeatCallback.
    apply preserves_bind; [apply preserves_dateNow | intros now].
    apply preserves_bind; [apply preserves_getv | intros st].
    apply sweep_preserves_commandHistory.
Qed.

Lemma step_keeps_settled (a : Action) (c : Ctx) :
  forallb settled (JsMap.values (commandHistory (vars c))) = true ->
  forallb settled (JsMap.values (commandHistory (vars (snd (step a c))))) = true.
Proof.
  intros H.
  destruct (step_commandHistory a c) as [E | [(cid & r & Hr & E) | (cid & E)]];
    rewrite E.
  - exact H.
  - apply values_set_forallb; [unfold settled; rewrite Hr; reflexivity | exact H].
  - apply values_update_forallb; [intros v; reflexivity | exact H].
Qed.

Lemma step_keeps_on_record (cid : string) (a : Action) (c : Ctx) :
  on_record cid (vars c) = true ->
  on_record cid (vars (snd (step a c))) = true.
Proof.
  unfold on_record. intros H.
  destruct (step_commandHistory a c) as [E | [(k & r & Hr & E) | (k & E)]];
    rewrite E.
  - exact H.
  - destruct (String.eqb_spec cid k) as [-> | Hne].
    + rewrite get_set_same. unfold settled. rewrite Hr. reflexivity.
    + rewrite get_set_other by exact Hne. exact H.
  - destruct (String.eqb_spec cid k) as [-> | Hne].
    + rewrite get_update_same.
      destruct (JsMap.get k (commandHistory (vars c))); [reflexivity | discriminate].
    + rewrite get_update_other by exact Hne. exact H.
Qed.

Lemma run_keeps (actions : list Action) (cid : string) : forall c : Ctx,
  forallb settled (JsMap.values (commandHistory (vars c))) = true ->
  on_record cid (vars c) = true ->
  forallb settled (JsMap.values (commandHistory (vars (snd (run actions c))))) = true /\
  on_record cid (vars (snd (run actions c))) = true.
Proof.
  induction actions as [| a rest IH]; intros c Hs Hr; [split; assumption |].
  cbn [run]. rewrite bind_run. apply IH.
  - apply step_keeps_settled. exact Hs.
  - apply step_keeps_on_record. exact Hr.
Qed.

(** When the timer of a command on record fires, the command is
    acknowledged. *)
Lemma ack_acknowledges (cid : string) (c : Ctx) :
  on_record cid (vars c) = true ->
  option_map status
    (JsMap.get cid (commandHistory (vars (snd (ackCallback cid c))))) = Some acked.
Proof.
  unfold on_record, ackCallback. intros H. rewrite bind_run. cbn [getv fst snd].
  destruct (JsMap.get cid (commandHistory (vars c))) as [res |] eqn:Hget;
    [| discriminate].
  destruct (status res) eqn:Hst; unfold settled in H; rewrite Hst in H;
    try discriminate; cbn [is_pending].
  - rewrite bind_run. unfold emit, modify.
    cbn [fst snd vars commandHistory set_commandHistory].
    rewrite get_update_same, Hget. reflexivity.
  - cbn [ret snd]. rewrite Hget. cbn [option_map]. rewrite Hst. reflexivity.
Qed.

(** C7.  A command for a known node and a topic the node declares is
    put on record with status [pending], and a timer is armed whose
    delay lies between 500 and 2500 ms; whatever happens to the bridge
    afterwards, every result on record stays [pending] or [acked] (none
    is ever [failed] or [timeout]), and when the command's timer fires
    its result is [acked]. *)
Theorem command_is_acked_never_failed
    (cmd : ROS2Command) (node : ROS2Node) (c : Ctx) (later : list Action) :
  JsMap.get (c_nodeId cmd) (nodes (vars c)) = Some node ->
  mem (c_topic cmd) (publish node) = true ->
  (0 <= rand_at (env c) (S (draws (env c))))%Q ->
  (rand_at (env c) (S (draws (env c))) < 1)%Q ->
  forallb settled (JsMap.values (commandHistory (vars c))) = true ->
  exists result delay,
    let c1 := snd (publishCommand cmd c) in
    let c2 := snd (run later c1) in
    let c3 := snd (ackCallback (commandId result) c2) in
    fst (publishCommand cmd c) = inr result /\
    status result = pending /\
    JsMap.get (commandId result) (commandHistory (vars c1)) = Some result /\
    ackTimers (vars c1) = ackTimers (vars c) ++ [(commandId result, delay)] /\
    (500 <= delay)%Q /\ (delay <= 2500)%Q /\
    forallb settled (JsMap.values (commandHistory (vars c2))) = true /\
    option_map status (JsMap.get (commandId result) (commandHistory (vars c3)))
      = Some acked.
Proof.
  intros Hget Hmem Hlo Hhi Hs.
  destruct (publishCommand_ok cmd node c Hget Hmem) as (cid & ts & w & Heq).
  cbv zeta in Heq.
  exists (mkResult cid pending (c_nodeId cmd) ts None),
    (rand_at (env c) (S (draws (env c))) * (2000 # 1) + (500 # 1))%Q.
  cbv zeta. rewrite Heq. cbn [fst snd commandId status vars commandHistory ackTimers].
  set (r := rand_at (env c) (S (draws (env c)))) in *.
  split; [reflexivity |]. split; [reflexivity |].
  split; [apply get_set_same |]. split; [reflexivity |].
  split.
  { setoid_replace (500 # 1)%Q with (0 * (2000 # 1) + (500 # 1))%Q at 1
      by (unfold Qeq; reflexivity).
    apply Qplus_le_l. apply Qmult_le_compat_r; [exact Hlo | discriminate]. }
  split.
  { setoid_replace (2500 # 1)%Q with (1 * (2000 # 1) + (500 # 1))%Q
      by (unfold Qeq; reflexivity).
    apply Qplus_le_l. apply Qmult_le_compat_r; [| discriminate].
    apply Qlt_le_weak. exact Hhi. }
  match goal with |- context [run later ?c1] =>
    destruct (run_keeps later cid c1) as [Hs2 Hr2] end.
  { cbn [vars commandHistory]. apply values_set_forallb; [reflexivity | exact Hs]. }
  { unfold on_record. cbn [vars commandHistory]. rewrite get_set_same. reflexivity. }
  split; [exact Hs2 |]. apply ack_acknowledges. exact Hr2.
Qed.

Lemma command_witness :
  exists result,
    fst (publishCommand close_valve with_gateway) = inr result /\
    status result = pending /\
    option_map status
      (JsMap.get (commandId result)
         (commandHistory
            (vars (snd (ackCallback (commandId result)
                          (snd (run [HeartbeatTick; AckTimeout 0]
                                  (snd (publishCommand close_valve with_gateway)))))))))
      = Some acked.
Proof.
  destruct (command_is_acked_never_failed close_valve gateway with_gateway
              [HeartbeatTick; AckTimeout 0])
    as (result & delay & Hres & Hst & _ & _ & _ & _ & _ & Hack);
    try reflexivity; try discriminate.
  exists result. repeat split; assumption.
Defined.

End Ros2Facts.

(** ** The bus *)

Module BusFacts.

Import Bus BusSpec.

(** C4, as the code has it.  [emit] calls the listeners in the order of
    their registration and stops at the first one that throws: the
    listeners registered before it have been called and have returned,
    those registered after it are not called, and the exception is the
    outcome of [emit].  Only when no listener throws are all of them
    called. *)
Theorem emit_stops_at_first_throw {E St}
    (listeners : list (Listener E St)) (e : E) (s : St) :
  exists n,
    fst (emit listeners e s) = seq 0 n /\
    match snd (emit listeners e s) with
    | Returns _ => n = List.length listeners
    | Throws err s' =>
        exists pre l post s0,
          listeners = pre ++ l :: post /\
          n = S (List.length pre) /\
          emit pre e s = (seq 0 (List.length pre), Returns s0) /\
          l e s0 = Throws err s'
    end.
Proof.
  unfold emit. generalize 0 as pos. revert s.
  induction listeners as [| l rest IH]; intros s pos; cbn [emit_from].
  - exists 0. split; reflexivity.
  - destruct (l e s) as [s1 | err s1] eqn:Hl.
    + destruct (IH s1 (S pos)) as (n & Hcalled & Hout).
      destruct (emit_from (S pos) rest e s1) as [called out] eqn:Hrest.
      cbn [fst snd] in *. exists (S n). split; [cbn [seq]; now rewrite Hcalled |].
      destruct out as [s2 | err s2]; [now rewrite Hout |].
      destruct Hout as (pre & l' & post & s0 & Hsplit & Hn & Hpre & Hthrow).
      exists (l :: pre), l', post, s0.
      split; [now rewrite Hsplit |]. split; [now rewrite Hn |].
      split; [| exact Hthrow].
      cbn [emit_from List.length seq]. rewrite Hl, Hpre. reflexivity.
    + exists 1. split; [reflexivity |]. cbn [snd].
      exists [], l, rest, s. repeat split. exact Hl.
Qed.

(** C4, as stated, fails: with three listeners of which the second
    throws, the third is never called. *)
Lemma throwing_listener_stops_delivery :
  emit three_listeners tick_event []
    = ([0; 1], Throws "listener failed" ["incidents"; "client-1"]) /\
  ~ In 2 (fst (emit three_listeners tick_event [])).
Proof.
  split; [reflexivity |]. cbn. intros [H | [H | []]]; discriminate.
Qed.

End BusFacts.

(** ** FlowIQ: further properties *)

Module FlowIQMore.

Import Js FlowIQ FlowIQSpec FlowIQMoreSpec FlowIQFacts.

Lemma ingest_sets_flag (sample : Sample) (c : Ctx) :
ros2Active (vars (snd (ingestFlowTelemetry sample c))) = true.
Proof.
unfold ingestFlowTelemetry. rewrite bind_run. unfold modify at 1. cbn [fst snd].
rewrite bind_run. cbn [getv fst snd]. rewrite bind_run.
match goal with |- context [store_and_detect ?cur ?c1] =>
  destruct (store_and_detect_spec cur c1) as (_ & Hr & _); rewrite Hr end.
destruct (s_timestamp sample) as [t |]; [destruct (Z.eqb t 0) |]; reflexivity.
Qed.

Lemma step_keeps_flag (a : Step) (c : Ctx) :
ros2Active (vars c) = true -> ros2Active (vars (snd (step a c))) = true.
Proof.
intros H. destruct a as [sample |]; cbn [step].
- apply ingest_sets_flag.
- destruct (collect_eq c) as [[_ Heq] | [Hf _]]; [rewrite Heq; exact H | congruence].
Qed.

(** X2.  Once a sample has come in through [ingestFlowTelemetry], the
  generator is off for good: whatever steps follow, the flag stays set
  and a generator tick returns the context as it found it. *)
Theorem generator_stays_off_after_ingestion
  (sample : Sample) (steps : list Step) (c : Ctx) :
let c' := snd (run (Ingest sample :: steps) c) in
ros2Active (vars c') = true /\ collect c' = (tt, c').
Proof.
intros c'.
assert (Hflag : ros2Active (vars c') = true).
{ subst c'. cbn [run]. rewrite bind_run. cbn [step].
  pose proof (ingest_sets_flag sample c) as H0.
  generalize dependent (snd (ingestFlowTelemetry sample c)).
  induction steps as [| a rest IH]; intros c0 H0; [exact H0 |].
  cbn [run]. rewrite bind_run. apply IH. apply step_keeps_flag. exact H0. }
split; [exact Hflag |].
unfold collect, bind, getv. rewrite Hflag. reflexivity.
Qed.

Lemma check_result b ty sev range actual (c : Ctx) :
exists id t,
  fst (check b ty sev range actual c)
    = if b then [mkFlowAnomaly id ty sev t range actual] else [].
Proof.
destruct b; [eexists; eexists; reflexivity | exists "", 0%Z; reflexivity].
Qed.

(** The result of [detectAnomalies] on a window of 3 samples or more: one
  optional anomaly per metric, flow first, then pressure, then
  temperature. *)
Lemma detect_shape (current : FlowMetrics) (c : Ctx) :
3 <= List.length (window c) ->
exists i1 t1 i2 t2 i3 t3,
  fst (detectAnomalies current c) =
    (if Qgtb (flow_dev current c) (mean_flow c * (25 # 100))%Q
     then [mkFlowAnomaly i1 flow_rate_deviation
             (if Qgtb (flow_dev current c) (mean_flow c * (5 # 10))%Q
              then sev_high else sev_medium) t1
             (mean_flow c * (75 # 100), mean_flow c * (125 # 100))%Q
             (flowRateLpm current)]
     else [])
    ++ (if Qgtb (pressure_dev current c) (100000 # 1)
        then [mkFlowAnomaly i2 pressure_deviation
                (if Qgtb (pressure_dev current c) (200000 # 1)
                 then sev_high else sev_low) t2
                (average pressurePa (window c) - (100000 # 1),
                 average pressurePa (window c) + (100000 # 1))%Q
                (pressurePa current)]
        else [])
    ++ (if Qgtb (temp_dev current c) (10 # 1)
        then [mkFlowAnomaly i3 temperature_spike
                (if Qgtb (temp_dev current c) (20 # 1)
                 then sev_high else sev_medium) t3
                (average temperatureC (window c) - (5 # 1),
                 average temperatureC (window c) + (5 # 1))%Q
                (temperatureC current)]
        else []).
Proof.
intros Hlen. unfold detectAnomalies, bind, getv.
fold (window c). apply Nat.leb_le in Hlen. rewrite Hlen.
fold (mean_flow c). fold (flow_dev current c).
fold (pressure_dev current c). fold (temp_dev current c).
unfold flow_fires, flow_severity.
match goal with |- context [check ?b flow_rate_deviation ?s ?r ?a c] =>
  destruct (check_result b flow_rate_deviation s r a c) as (i1 & t1 & H1);
  destruct (check b flow_rate_deviation s r a c) as [a1 c1] end.
match goal with |- context [check ?b pressure_deviation ?s ?r ?a c1] =>
  destruct (check_result b pressure_deviation s r a c1) as (i2 & t2 & H2);
  destruct (check b pressure_deviation s r a c1) as [a2 c2] end.
match goal with |- context [check ?b temperature_spike ?s ?r ?a c2] =>
  destruct (check_result b temperature_spike s r a c2) as (i3 & t3 & H3);
  destruct (check b temperature_spike s r a c2) as [a3 c3] end.
cbn [fst snd ret] in *. subst a1 a2 a3.
exists i1, t1, i2, t2, i3, t3. reflexivity.
Qed.




(** X1.  The sample history never holds more than 100 entries: a step
  either leaves it alone or appends its sample and keeps the last 100
  entries, oldest first, and no run of the detector takes it beyond
  100. *)
Theorem sample_history_keeps_last_100 (a : Step) (steps : list Step) (c : Ctx) :
List.length (metricsHistory (vars c)) <= 100 ->
(metricsHistory (vars (snd (step a c))) = metricsHistory (vars c) \/
 exists current,
   metricsHistory (vars (snd (step a c)))
     = slice_last 100 (metricsHistory (vars c) ++ [current])) /\
List.length (metricsHistory (vars (snd (run steps c)))) <= 100.
Proof.
intros Hlen. split.
- destruct (metricsHistory_step a c) as [H | [current H]]; [left; exact H |].
  right. exists current. rewrite H. apply metricsHistory_fifo. exact Hlen.
- apply metricsHistory_bounded. exact Hlen.
Qed.

Lemma sample_history_witness :
List.length (metricsHistory (vars (snd (run (swinging 120) fresh)))) <= 100.
Proof.
apply (sample_history_keeps_last_100 Collect (swinging 120) fresh).
simpl. lia.
Defined.

Lemma detect_at_most_three (current : FlowMetrics) (c : Ctx) :
List.length (fst (detectAnomalies current c)) <= 3.
Proof.
destruct (Nat.leb 3 (List.length (window c))) eqn:E.
- apply Nat.leb_le in E.
  destruct (detect_shape current c E) as (i1 & t1 & i2 & t2 & i3 & t3 & Hr).
  rewrite Hr.
  destruct (Qgtb (flow_dev current c) _), (Qgtb (pressure_dev current c) _),
    (Qgtb (temp_dev current c) _); cbn [app List.length]; lia.
- unfold detectAnomalies, bind, getv. fold (window c). rewrite E. cbn. lia.
Qed.

(** X4.  A step publishes one [anomaly.detected] event for each anomaly
  it appends to the history, in the same order and with the anomaly's
  type and the confidence of its severity, then at most the one
  [flow.metrics.updated] event; it appends at most three anomalies. *)
Theorem step_announces_each_new_anomaly (a : Step) (c : Ctx) :
let c' := snd (step a c) in
exists added evs tail,
  anomalyHistory (vars c') = anomalyHistory (vars c) ++ added /\
  published c' = published c ++ evs ++ tail /\
  Forall2 announces added evs /\
  metrics_update_or_nothing tail /\
  List.length added <= 3.
Proof.
intros c'. subst c'. destruct a as [sample |]; cbn [step].
- destruct (ingest_eq sample c) as (c1 & Heq & _ & Ha1 & Hp1). rewrite Heq.
  destruct (store_and_detect_spec (current_of sample c) c1)
    as (_ & _ & _ & cm & evs & _ & Ha & Hp & Hf).
  exists (fst (detectAnomalies (current_of sample c) cm)), evs,
    [FlowMetricsUpdated (current_of sample c)].
  rewrite Ha, Hp, Ha1, Hp1.
  repeat split; try reflexivity; try exact Hf.
  + right. eexists. reflexivity.
  + apply detect_at_most_three.
- destruct (collect_eq c) as [[_ Heq] | [_ (c1 & Heq & _ & Ha1 & Hp1)]];
    rewrite Heq.
  + exists [], [], []. cbn [snd app]. rewrite !app_nil_r.
    repeat split; try reflexivity; [constructor | left; reflexivity | cbn; lia].
  + destruct (store_and_detect_spec (generated c) c1)
      as (_ & _ & _ & cm & evs & _ & Ha & Hp & Hf).
    exists (fst (detectAnomalies (generated c) cm)), evs,
      [FlowMetricsUpdated (generated c)].
    rewrite Ha, Hp, Ha1, Hp1.
    repeat split; try reflexivity; try exact Hf.
    * right. eexists. reflexivity.
    * apply detect_at_most_three.
Qed.

Lemma count_succ (n : nat) :
(inject_Z (Z.of_nat (S n)) == inject_Z (Z.of_nat n) + 1)%Q.
Proof. rewrite Nat2Z.inj_succ. unfold Z.succ. rewrite inject_Z_plus. reflexivity. Qed.

Lemma sum_within (f : FlowMetrics -> Q) (lo hi : Q) (l : list FlowMetrics) :
within f lo hi l ->
forall acc : Q,
  (acc + inject_Z (Z.of_nat (List.length l)) * lo
     <= fold_left (fun sum m => sum + f m) l acc)%Q /\
  (fold_left (fun sum m => sum + f m) l acc
     <= acc + inject_Z (Z.of_nat (List.length l)) * hi)%Q.
Proof.
induction 1 as [| m l [Hlo Hhi] _ IH]; intros acc.
- cbn [fold_left List.length Z.of_nat]. change (inject_Z 0) with 0%Q. split; lra.
- cbn [fold_left List.length]. destruct (IH (acc + f m)%Q) as [IHlo IHhi].
  pose proof (count_succ (List.length l)) as Hn.
  set (n := inject_Z (Z.of_nat (List.length l))) in *.
  set (n1 := inject_Z (Z.of_nat (S (List.length l)))) in *.
  split.
  + apply Qle_trans with (acc + f m + n * lo)%Q; [| exact IHlo].
    rewrite Hn. lra.
  + apply Qle_trans with (acc + f m + n * hi)%Q; [exact IHhi |].
    rewrite Hn. lra.
Qed.

(** The mean of readings that lie in a band lies in the band. *)
Lemma average_within (f : FlowMetrics -> Q) (lo hi : Q) (l : list FlowMetrics) :
l <> [] -> within f lo hi l ->
(lo <= average f l)%Q /\ (average f l <= hi)%Q.
Proof.
intros Hne Hw. destruct (sum_within f lo hi l Hw 0%Q) as [Hlo Hhi].
unfold average.
assert (Hpos : (0 < inject_Z (Z.of_nat (List.length l)))%Q).
{ destruct l; [congruence |]. unfold Qlt. cbn [List.length].
  rewrite Nat2Z.inj_succ. cbn. lia. }
set (n := inject_Z (Z.of_nat (List.length l))) in *.
set (s := fold_left (fun sum m => (sum + f m)%Q) l 0%Q) in *.
split.
- apply Qle_shift_div_l; [exact Hpos |]. lra.
- apply Qle_shift_div_r; [exact Hpos |]. lra.
Qed.

Lemma within_slice (f : FlowMetrics -> Q) (lo hi : Q) (n : nat) (l : list FlowMetrics) :
within f lo hi l -> within f lo hi (slice_last n l).
Proof.
unfold within, slice_last. intros H. apply Forall_forall. intros m Hin.
rewrite Forall_forall in H. apply H.
rewrite <- (firstn_skipn (List.length l - n) l). apply in_or_app. right. exact Hin.
Qed.

Lemma within_appended (f : FlowMetrics -> Q) (lo hi : Q)
  (h : list FlowMetrics) (current : FlowMetrics) :
within f lo hi h -> (lo <= f current)%Q -> (f current <= hi)%Q ->
within f lo hi (appended h current).
Proof.
intros Hh Hlo Hhi.
assert (Hp : within f lo hi (push h current)).
{ unfold within, push. apply Forall_app. split; [exact Hh |].
  constructor; [split; assumption | constructor]. }
unfold appended. destruct (Nat.ltb 100 _); [| exact Hp].
unfold shift. destruct (push h current); [constructor |].
cbn [tl]. inversion Hp; assumption.
Qed.

(** A reading and a mean that lie in the same band differ by no more than
  the width of the band. *)
Lemma deviation_within (x mean lo hi : Q) :
(lo <= x)%Q -> (x <= hi)%Q -> (lo <= mean)%Q -> (mean <= hi)%Q ->
(Qabs (x - mean) <= hi - lo)%Q.
Proof. intros. apply Qabs_Qle_condition. split; lra. Qed.

Lemma band_is_quiet
  (current : FlowMetrics) (c : Ctx) (lof hif lop hip lot hit : Q) :
within flowRateLpm lof hif (current :: window c) ->
within pressurePa lop hip (current :: window c) ->
within temperatureC lot hit (current :: window c) ->
(hif - lof <= lof * (25 # 100))%Q ->
(hip - lop <= 100000 # 1)%Q ->
(hit - lot <= 10 # 1)%Q ->
detectAnomalies current c = ([], c).
Proof.
intros Hf Hp Ht Wf Wp Wt.
unfold detectAnomalies, bind, getv. fold (window c).
destruct (Nat.leb 3 (List.length (window c))) eqn:E; [| reflexivity].
assert (Hne : window c <> []).
{ apply Nat.leb_le in E. destruct (window c); [cbn in E; lia | discriminate]. }
inversion Hf as [| ? ? [Hf1 Hf2] Hfw]; subst.
inversion Hp as [| ? ? [Hp1 Hp2] Hpw]; subst.
inversion Ht as [| ? ? [Ht1 Ht2] Htw]; subst.
destruct (average_within flowRateLpm lof hif (window c) Hne Hfw) as [Mf1 Mf2].
destruct (average_within pressurePa lop hip (window c) Hne Hpw) as [Mp1 Mp2].
destruct (average_within temperatureC lot hit (window c) Hne Htw) as [Mt1 Mt2].
pose proof (deviation_within _ _ _ _ Hf1 Hf2 Mf1 Mf2) as Df.
pose proof (deviation_within _ _ _ _ Hp1 Hp2 Mp1 Mp2) as Dp.
pose proof (deviation_within _ _ _ _ Ht1 Ht2 Mt1 Mt2) as Dt.
assert (Ff : flow_fires (average flowRateLpm (window c))
               (Qabs (flowRateLpm current - average flowRateLpm (window c))) = false).
{ unfold flow_fires. apply Qgtb_false_iff. apply Qle_not_lt.
  apply Qle_trans with (hif - lof)%Q; [exact Df |].
  apply Qle_trans with (lof * (25 # 100))%Q; [exact Wf | lra]. }
assert (Fp : Qgtb (Qabs (pressurePa current - average pressurePa (window c)))
               (100000 # 1) = false).
{ apply Qgtb_false_iff. apply Qle_not_lt.
  apply Qle_trans with (hip - lop)%Q; assumption. }
assert (Ft : Qgtb (Qabs (temperatureC current - average temperatureC (window c)))
               (10 # 1) = false).
{ apply Qgtb_false_iff. apply Qle_not_lt.
  apply Qle_trans with (hit - lot)%Q; assumption. }
rewrite Ff, Fp, Ft. reflexivity.
Qed.



Lemma Qmax_right (x y : Q) : (x <= y)%Q -> Qmax x y = y.
Proof. intros H. unfold Qmax. apply Qle_bool_iff in H. rewrite H. reflexivity. Qed.

Lemma collect_off_eq (c : Ctx) :
ros2Active (vars c) = false ->
collect c = store_and_detect (generated c)
              (mkCtx (vars c) (tick (roll (roll (roll (env c))))) (published c)).
Proof.
intros H. unfold collect, bind, getv. rewrite H. reflexivity.
Qed.

Lemma generated_in_band (c : Ctx) :
unit_random (env c) -> generator_band [generated c].
Proof.
intros Hr. unfold generator_band, within, generated.
cbn [baselineMetrics flowRateLpm pressurePa temperatureC].
destruct (Hr (draws (env c))) as [A1 A2].
destruct (Hr (S (draws (env c)))) as [B1 B2].
destruct (Hr (S (S (draws (env c))))) as [C1 C2].
rewrite !Qmax_right by lra.
repeat split;
  (apply Forall_cons;
   [cbn [flowRateLpm pressurePa temperatureC]; split; lra | apply Forall_nil]).
Qed.

(** One generator tick on a history within the generator's band. *)
Lemma quiet_collect (c : Ctx) :
unit_random (env c) ->
ros2Active (vars c) = false ->
generator_band (metricsHistory (vars c)) ->
let c' := snd (collect c) in
anomalyHistory (vars c') = anomalyHistory (vars c) /\
generator_band (metricsHistory (vars c')) /\
ros2Active (vars c') = false /\
unit_random (env c') /\
published c' = published c ++ [FlowMetricsUpdated (generated c)].
Proof.
intros Hr Hoff (Hbf & Hbp & Hbt) c'. subst c'.
destruct (generated_in_band c Hr) as (Gf & Gp & Gt).
inversion Gf as [| ? ? [Gf1 Gf2] _]; subst.
inversion Gp as [| ? ? [Gp1 Gp2] _]; subst.
inversion Gt as [| ? ? [Gt1 Gt2] _]; subst.
rewrite (collect_off_eq c Hoff), store_and_detect_eq. cbv zeta.
cbn [vars env published snd].
set (cur := generated c) in *.
set (cs := mkCtx (set_metricsHistory (appended (metricsHistory (vars c)) cur) (vars c))
             (tick (roll (roll (roll (env c))))) (published c)).
set (cz := snd (zoom db_metrics set_db_metrics (Db.insertMetric cur) cs)).
assert (Hcz : metricsHistory (vars cz) = appended (metricsHistory (vars c)) cur /\
              anomalyHistory (vars cz) = anomalyHistory (vars c) /\
              ros2Active (vars cz) = ros2Active (vars c) /\
              rand_at (env cz) = rand_at (env c) /\
              published cz = published c)
  by (repeat split; reflexivity).
destruct Hcz as (Hm & Ha & Hro & Hrand & Hp).
pose proof (within_appended _ _ _ _ cur Hbf Gf1 Gf2) as Af.
pose proof (within_appended _ _ _ _ cur Hbp Gp1 Gp2) as Ap.
pose proof (within_appended _ _ _ _ cur Hbt Gt1 Gt2) as At.
assert (Hd : detectAnomalies cur cz = ([], cz)).
{ apply (band_is_quiet cur cz
           (145 # 1) (155 # 1) (2475000 # 1) (2525000 # 1) (435 # 10) (465 # 10));
    try (unfold Qle; vm_compute; discriminate);
    (constructor; [split; assumption |]);
    unfold window; rewrite Hm; apply within_slice; assumption. }
rewrite Hd. cbn [fst snd recordAnomalies ret vars env published].
rewrite Hm, Ha, Hro, Hp.
split; [reflexivity |]. split; [repeat split; assumption |].
split; [exact Hoff |]. split; [| reflexivity].
intros n. rewrite Hrand. apply Hr.
Qed.

(** X6.  With [Math.random()] in [0, 1) and no external telemetry, the
  generator never raises an anomaly: from a history within its band
  (the empty one, for instance), any number of generator ticks leaves
  the anomaly history as it was, publishes no [anomaly.detected] event
  and keeps the history within the band. *)
Theorem generator_alone_raises_no_anomaly (n : nat) (c : Ctx) :
unit_random (env c) ->
ros2Active (vars c) = false ->
generator_band (metricsHistory (vars c)) ->
let c' := snd (run (repeat Collect n) c) in
anomalyHistory (vars c') = anomalyHistory (vars c) /\
generator_band (metricsHistory (vars c')) /\
exists evs,
  published c' = published c ++ evs /\
  existsb is_anomaly_detected evs = false.
Proof.
revert c. induction n as [| n IH]; intros c Hr Hoff Hb c'; subst c'.
- cbn [repeat run ret snd]. split; [reflexivity |]. split; [exact Hb |].
  exists []. rewrite app_nil_r. split; reflexivity.
- cbn [repeat run]. rewrite bind_run. cbn [step].
  destruct (quiet_collect c Hr Hoff Hb) as (Ha & Hb1 & Hoff1 & Hr1 & Hp).
  destruct (IH (snd (collect c)) Hr1 Hoff1 Hb1) as (Ha2 & Hb2 & evs & Hp2 & Hq).
  split; [rewrite Ha2; exact Ha |]. split; [exact Hb2 |].
  exists (FlowMetricsUpdated (generated c) :: evs).
  rewrite Hp2, Hp, <- app_assoc. split; [reflexivity |].
  cbn [existsb is_anomaly_detected orb]. exact Hq.
Qed.

Lemma generator_alone_witness :
anomalyHistory (vars (snd (run (repeat Collect 30) fresh))) = [].
Proof.
destruct (generator_alone_raises_no_anomaly 30 fresh) as (Ha & _).
- intros n. split; [discriminate | reflexivity].
- reflexivity.
- repeat split; constructor.
- exact Ha.
Defined.

End FlowIQMore.

(** ** Incidents: further properties *)

Lemma first_match_split {A} (p : A -> bool) (l : list A) :
  forallb (fun y => negb (p y)) l = true \/
  exists pre x post,
    l = pre ++ x :: post /\ forallb (fun y => negb (p y)) pre = true /\ p x = true.
Proof.
  induction l as [| y l IH]; [left; reflexivity |].
  destruct (p y) eqn:Hy.
  - right. exists [], y, l. repeat split. exact Hy.
  - destruct IH as [IH | (pre & x & post & Hl & Hpre & Hx)].
    + left. cbn [forallb]. rewrite Hy, IH. reflexivity.
    + right. exists (y :: pre), x, post. rewrite Hl.
      repeat split; [| exact Hx]. cbn [forallb]. rewrite Hy, Hpre. reflexivity.
Qed.


Lemma has_set {V} (k k0 : string) (v : V) (m : JsMap.t V) :
  JsMap.has k0 m = true -> JsMap.has k0 (JsMap.set k v m) = true.
Proof.
  unfold JsMap.has. intros H. destruct (String.eqb_spec k0 k) as [-> | Hne].
  - rewrite get_set_same. reflexivity.
  - rewrite get_set_other by exact Hne. exact H.
Qed.

Lemma combine_keys_values {V} (m : JsMap.t V) :
  combine (JsMap.keys m) (JsMap.values m) = m.
Proof.
  unfold JsMap.keys, JsMap.values.
  induction m as [| [k v] m IH]; [reflexivity |].
  cbn [map fst snd combine]. now rewrite IH.
Qed.

Lemma get_combine_update_at {V} (f : V -> V) (m : JsMap.t V) (i : nat) (k : string) :
  JsMap.has k m = true ->
  JsMap.has k (combine (JsMap.keys m) (update_at i f (JsMap.values m))) = true.
Proof.
  unfold JsMap.has. revert i.
  induction m as [| [k' v] m IH]; intros i H; [discriminate |].
  destruct i as [| i]; cbn [JsMap.keys JsMap.values map fst snd update_at combine JsMap.get] in *;
    destruct (String.eqb k k'); try reflexivity.
  - pose proof (combine_keys_values m) as E.
    unfold JsMap.keys, JsMap.values in E. rewrite E. exact H.
  - apply IH. exact H.
Qed.

Lemma has_same_keys {V} (k : string) (m m' : JsMap.t V) :
  JsMap.keys m = JsMap.keys m' -> JsMap.has k m = JsMap.has k m'.
Proof.
  unfold JsMap.has, JsMap.keys. revert m'.
  induction m as [| [k1 v1] m IH]; intros [| [k2 v2] m'] H;
    cbn [map fst] in H; try discriminate; [reflexivity |].
  inversion H; subst. cbn [JsMap.get].
  destruct (String.eqb k k2); [reflexivity | apply IH; assumption].
Qed.

Lemma set_length {V} (k : string) (v : V) (m : JsMap.t V) :
  List.length m <= List.length (JsMap.set k v m).
Proof.
  induction m as [| [k' v'] m IH]; cbn [JsMap.set List.length]; [lia |].
  destruct (String.eqb k k'); cbn [List.length]; lia.
Qed.

Lemma update_update {V} (k : string) (f g : V -> V) (m : JsMap.t V) :
  JsMap.update k g (JsMap.update k f m) = JsMap.update k (fun v => g (f v)) m.
Proof.
  induction m as [| [k' v] m IH]; [reflexivity |].
  cbn [JsMap.update]. destruct (String.eqb k k') eqn:E; cbn [JsMap.update]; rewrite E;
    [reflexivity | now rewrite IH].
Qed.

Lemma update_ext {V} (k : string) (f g : V -> V) (m : JsMap.t V) :
  (forall v, f v = g v) -> JsMap.update k f m = JsMap.update k g m.
Proof.
  intros H. induction m as [| [k' v] m IH]; [reflexivity |].
  cbn [JsMap.update]. destruct (String.eqb k k'); [now rewrite H | now rewrite IH].
Qed.

Lemma update_fixed {V} (k : string) (f : V -> V) (m : JsMap.t V) :
  (forall v, JsMap.get k m = Some v -> f v = v) -> JsMap.update k f m = m.
Proof.
  induction m as [| [k' v] m IH]; intros H; [reflexivity |].
  cbn [JsMap.update JsMap.get] in *. destruct (String.eqb k k').
  - rewrite H; reflexivity.
  - rewrite IH; [reflexivity | exact H].
Qed.

Lemma Forall_values_set {V} (P : V -> Prop) (k : string) (v : V) (m : JsMap.t V) :
  P v -> Forall P (JsMap.values m) -> Forall P (JsMap.values (JsMap.set k v m)).
Proof.
  intros Hv. unfold JsMap.values.
  induction m as [| [k' v'] m IH]; cbn [JsMap.set map snd]; intros H.
  - constructor; [exact Hv | constructor].
  - inversion H; subst. destruct (String.eqb k k'); cbn [map snd];
      constructor; auto.
Qed.

Lemma Forall_values_update {V} (P : V -> Prop) (k : string) (f : V -> V) (m : JsMap.t V) :
  (forall v, P v -> P (f v)) ->
  Forall P (JsMap.values m) -> Forall P (JsMap.values (JsMap.update k f m)).
Proof.
  intros Hf. unfold JsMap.values.
  induction m as [| [k' v'] m IH]; cbn [JsMap.update map snd]; intros H;
    [constructor |].
  inversion H; subst. destruct (String.eqb k k'); cbn [map snd];
    constructor; auto.
Qed.

Module IncidentsMore.

Import Js Incidents IncidentsSpec IncidentsMoreSpec IncidentsFacts.



(** X9.  Every [alert.created] event is queued and answered by exactly
  one event on the bus, [incident.created] or [incident.updated]; no
  incident leaves the map and the map does not shrink.  Any other event
  is ignored. *)
Theorem every_alert_publishes_one_incident_event
  (event : AlertEvent) (other : PlainviewEvent) (c : Ctx) :
let c' := snd (handleAlert (AlertCreated event) c) in
(exists e,
   published c' = published c ++ [e] /\
   is_incident_created e || is_incident_updated e = true) /\
alertQueue (vars c') = push (alertQueue (vars c)) event /\
(forall k, JsMap.has k (incidents (vars c)) = true ->
           JsMap.has k (incidents (vars c')) = true) /\
List.length (incidents (vars c)) <= List.length (incidents (vars c')) /\
match other with
| AlertCreated _ => True
| _ => handleAlert other c = (tt, c)
end.
Proof.
intros c'. subst c'.
assert (Hother : match other with
                 | AlertCreated _ => True
                 | _ => handleAlert other c = (tt, c)
                 end) by (destruct other; exact I || reflexivity).
set (now := time_at (env c) (reads (env c))).
destruct (located event) eqn:Hloc;
  [destruct (first_match_split (candidate now) (JsMap.values (incidents (vars c))))
     as [Hnone | (pre & inc & post & Hvals & Hpre & Hinc)] |].
- destruct (handle_open event c (or_intror Hnone))
    as (id & aid & started & entry & at_ms & Hi & Hq & _ & _ & _ & Hp).
  split; [eexists; split; [exact Hp | reflexivity] |].
  split; [exact Hq |]. rewrite Hi.
  split; [intros k Hk; apply has_set; exact Hk |].
  split; [apply set_length | exact Hother].
- destruct (handle_attach event c pre inc post Hloc Hvals Hpre Hinc)
    as (aid & entry & at_ms & Hk & Hv & Hq & _ & _ & _ & Hp).
  split; [eexists; split; [exact Hp | reflexivity] |].
  split; [exact Hq |].
  split; [intros k Hhas; rewrite (has_same_keys k _ _ Hk); exact Hhas |].
  split; [| exact Hother].
  apply Nat.eq_le_incl.
  transitivity (List.length (JsMap.keys (incidents (vars c))));
    [unfold JsMap.keys; now rewrite length_map |].
  rewrite <- Hk. unfold JsMap.keys. now rewrite length_map.
- destruct (handle_open event c (or_introl Hloc))
    as (id & aid & started & entry & at_ms & Hi & Hq & _ & _ & _ & Hp).
  split; [eexists; split; [exact Hp | reflexivity] |].
  split; [exact Hq |]. rewrite Hi.
  split; [intros k Hk; apply has_set; exact Hk |].
  split; [apply set_length | exact Hother].
Qed.

(** What [POST /incidents/:id/update] does to an incident it finds. *)
Lemma postUpdate_known (id : string) (body : UpdateBody) (c : Ctx) (inc : Incident) :
JsMap.get id (incidents (vars c)) = Some inc ->
exists t0 t1 t2 at_ms,
  fst (postUpdate id body c)
    = ok (with_resolution_of body t1 t2
            (with_root_cause_of body t0 (with_status_of body inc))) /\
  incidents (vars (snd (postUpdate id body c)))
    = JsMap.update id
        (fun i => with_resolution_of body t1 t2
                    (with_root_cause_of body t0 (with_status_of body i)))
        (incidents (vars c)) /\
  alertQueue (vars (snd (postUpdate id body c))) = alertQueue (vars c) /\
  published (snd (postUpdate id body c))
    = published c ++ [IncidentUpdated (incident_id inc) at_ms].
Proof.
intros Hget. unfold postUpdate, bind, getv. rewrite Hget.
unfold with_resolution_of, with_root_cause_of, with_status_of.
assert (Hfix : JsMap.update id (fun i : Incident => i) (incidents (vars c))
               = incidents (vars c)) by (apply update_fixed; reflexivity).
destruct (body_status body) as [st |];
  destruct (truthy_str (body_rootCause body));
  destruct (truthy_str (body_resolution body));
  cbn [on_incident modify createTimelineEvent bind dateNow ret Js.publish
       fst snd vars env published incidents alertQueue set_incidents];
  rewrite ?update_update, ?get_update_same, ?Hfix, Hget; cbn [option_map];
  repeat eexists; exact 0%Z.
Qed.

(** X7.  An update of a known incident that carries a resolution leaves
  the incident [resolved], whatever status the body asks for, with
  [resolvedAt] stamped, the resolution recorded and an
  [Incident Resolved] entry at the end of its timeline; the same
  incident is the answer, the other incidents are untouched and
  [incident.updated] is published. *)
Theorem resolution_resolves_the_incident
  (id : string) (body : UpdateBody) (c : Ctx) (inc : Incident) :
JsMap.get id (incidents (vars c)) = Some inc ->
truthy_str (body_resolution body) = true ->
let c' := snd (postUpdate id body c) in
exists final t entry earlier at_ms,
  fst (postUpdate id body c) = ok final /\
  JsMap.get id (incidents (vars c')) = Some final /\
  incident_status final = inc_resolved /\
  resolvedAt final = Some t /\
  resolution final = body_resolution body /\
  timeline final = timeline inc ++ earlier ++ [entry] /\
  tl_type entry = tl_action /\
  tl_title entry = "Incident Resolved" /\
  Some (tl_description entry) = body_resolution body /\
  (forall k, k <> id ->
     JsMap.get k (incidents (vars c')) = JsMap.get k (incidents (vars c))) /\
  published c' = published c ++ [IncidentUpdated (incident_id inc) at_ms].
Proof.
intros Hget Hres c'. subst c'.
destruct (postUpdate_known id body c inc Hget)
  as (t0 & t1 & t2 & at_ms & Hfst & Hinc & _ & Hpub).
rewrite Hfst, Hinc, Hpub.
unfold with_resolution_of. rewrite Hres.
assert (Hbody : body_resolution body = Some (or_str (body_resolution body) "")).
{ unfold truthy_str, or_str in *. destruct (body_resolution body) as [r |];
    [| discriminate]. destruct (String.eqb r ""); [discriminate | reflexivity]. }
eexists. exists t1.
exists (mkTimelineEvent t2 tl_action "Incident Resolved"
          (or_str (body_resolution body) "") None).
exists (if truthy_str (body_rootCause body)
        then [mkTimelineEvent t0 tl_update "Root Cause Identified"
                (or_str (body_rootCause body) "") None]
        else []).
exists at_ms.
split; [reflexivity |].
split; [rewrite get_update_same, Hget; reflexivity |].
split; [reflexivity |]. split; [reflexivity |].
split; [cbn [resolution with_timeline with_resolution]; symmetry; exact Hbody |].
split.
{ cbn [timeline with_timeline with_resolution]. unfold with_root_cause_of, with_status_of, push.
  destruct (truthy_str (body_rootCause body)), (body_status body);
    cbn [timeline with_timeline with_rootCause with_status];
    rewrite <- ?app_assoc, ?app_nil_r; reflexivity. }
split; [reflexivity |]. split; [reflexivity |].
split; [cbn [tl_description]; symmetry; exact Hbody |].
split; [| reflexivity].
intros k Hne. apply get_update_other. exact Hne.
Qed.

Lemma resolution_witness :
option_map incident_status
  (JsMap.get first_id
     (incidents (vars (snd (postUpdate first_id
                              (mkUpdateBody (Some inc_investigating) None
                                 (Some "flange replaced"))
                              after_root_cause)))))
= Some inc_resolved.
Proof.
assert (Hget : exists inc, JsMap.get first_id (incidents (vars after_root_cause)) = Some inc)
  by (vm_compute; eexists; reflexivity).
destruct Hget as [inc Hget].
destruct (resolution_resolves_the_incident first_id
            (mkUpdateBody (Some inc_investigating) None (Some "flange replaced"))
            after_root_cause inc Hget eq_refl)
  as (final & t & entry & earlier & at_ms & _ & Hfinal & Hst & _).
rewrite Hfinal. cbn [option_map]. rewrite Hst. reflexivity.
Defined.

(** X12.  An update of a known incident keeps what identifies it (id,
  title, severity, start, modules, detection and alert references) and
  only ever appends to its timeline, by at most two entries. *)
Theorem update_keeps_identity_and_appends
  (id : string) (body : UpdateBody) (c : Ctx) (inc : Incident) :
JsMap.get id (incidents (vars c)) = Some inc ->
exists final added,
  JsMap.get id (incidents (vars (snd (postUpdate id body c)))) = Some final /\
  incident_id final = incident_id inc /\
  incident_title final = incident_title inc /\
  incident_severity final = incident_severity inc /\
  startedAt final = startedAt inc /\
  affectedModules final = affectedModules inc /\
  detectionIds final = detectionIds inc /\
  alertIds final = alertIds inc /\
  timeline final = timeline inc ++ added /\
  List.length added <= 2 /\
  JsMap.keys (incidents (vars (snd (postUpdate id body c))))
    = JsMap.keys (incidents (vars c)).
Proof.
intros Hget.
destruct (postUpdate_known id body c inc Hget)
  as (t0 & t1 & t2 & at_ms & _ & Hinc & _ & _).
rewrite Hinc.
eexists.
exists ((if truthy_str (body_rootCause body)
         then [mkTimelineEvent t0 tl_update "Root Cause Identified"
                 (or_str (body_rootCause body) "") None]
         else [])
        ++ (if truthy_str (body_resolution body)
            then [mkTimelineEvent t2 tl_action "Incident Resolved"
                    (or_str (body_resolution body) "") None]
            else [])).
split; [rewrite get_update_same, Hget; reflexivity |].
unfold with_resolution_of, with_root_cause_of, with_status_of, push.
destruct (truthy_str (body_rootCause body)), (truthy_str (body_resolution body)),
  (body_status body);
  cbn [incident_id incident_title incident_severity startedAt affectedModules
       detectionIds alertIds timeline with_timeline with_rootCause with_status
       with_resolution app List.length];
  rewrite <- ?app_assoc, ?app_nil_r, ?keys_update;
  repeat (split; [reflexivity || lia |]); reflexivity.
Qed.

Lemma update_keeps_identity_witness :
JsMap.keys (incidents (vars (snd (postUpdate first_id
                                    (mkUpdateBody (Some inc_mitigated) None None)
                                    after_first_alert))))
  = [first_id].
Proof.
assert (Hget : exists inc, JsMap.get first_id (incidents (vars after_first_alert)) = Some inc)
  by (vm_compute; eexists; reflexivity).
destruct Hget as [inc Hget].
destruct (update_keeps_identity_and_appends first_id
            (mkUpdateBody (Some inc_mitigated) None None) after_first_alert inc Hget)
  as (final & added & _ & _ & _ & _ & _ & _ & _ & _ & _ & _ & Hk).
rewrite Hk. vm_compute. reflexivity.
Defined.

Lemma insert_by_permutation {A} (cmp : A -> A -> Z) (x : A) (l : list A) :
Permutation (insert_by cmp x l) (x :: l).
Proof.
induction l as [| y l IH]; [reflexivity |].
cbn [insert_by]. destruct (0 <? cmp x y)%Z; [| reflexivity].
rewrite IH. apply perm_swap.
Qed.

Lemma sort_by_permutation {A} (cmp : A -> A -> Z) (l : list A) :
Permutation (sort_by cmp l) l.
Proof.
induction l as [| x l IH]; [reflexivity |].
cbn [sort_by fold_right]. fold (sort_by cmp l).
rewrite insert_by_permutation. now constructor.
Qed.

(** Sorting a timeline that is already newest first changes nothing. *)
Lemma sort_by_sorted (l : list TimelineEvent) :
newest_first_sorted l = true -> sort_by newest_first l = l.
Proof.
induction l as [| x l IH]; intros Hs; [reflexivity |].
cbn [sort_by fold_right]. fold (sort_by newest_first l).
rewrite IH by (apply (sorted_tail x l Hs)).
destruct l as [| y l]; [reflexivity |].
cbn [insert_by]. unfold newest_first.
cbn [newest_first_sorted] in Hs. apply andb_true_iff in Hs. destruct Hs as [Hxy _].
apply Z.leb_le in Hxy.
destruct (0 <? tl_timestamp y - tl_timestamp x)%Z eqn:E; [| reflexivity].
apply Z.ltb_lt in E. lia.
Qed.

Lemma getTimeline_known (id : string) (inc : Incident) (c : Ctx) :
JsMap.get id (incidents (vars c)) = Some inc ->
getTimeline id c =
  (ok (mkTimelineView (incident_id inc) (incident_title inc) (incident_status inc)
         (startedAt inc) (resolvedAt inc) (sort_by newest_first (timeline inc))),
   mkCtx (set_incidents
            (JsMap.update id (with_timeline (sort_by newest_first (timeline inc)))
               (incidents (vars c))) (vars c))
     (env c) (published c)).
Proof.
intros Hget. unfold getTimeline, bind, getv. rewrite Hget. reflexivity.
Qed.

(** X10.  The timeline route answers with every entry of the stored
  timeline, each once, newest first, and publishes nothing; a second
  read gives the same answer and changes nothing any more. *)
Theorem timeline_read_is_a_sorted_permutation_and_settles
  (id : string) (inc : Incident) (c : Ctx) :
JsMap.get id (incidents (vars c)) = Some inc ->
let first := getTimeline id c in
let second := getTimeline id (snd first) in
exists view,
  fst first = ok view /\
  Permutation (view_timeline view) (timeline inc) /\
  newest_first_sorted (view_timeline view) = true /\
  published (snd first) = published c /\
  fst second = fst first /\
  snd second = snd first.
Proof.
intros Hget first second. subst second first.
rewrite (getTimeline_known id inc c Hget). cbn [fst snd].
set (sorted := sort_by newest_first (timeline inc)).
set (c1 := mkCtx _ _ _).
assert (Hget1 : JsMap.get id (incidents (vars c1)) = Some (with_timeline sorted inc)).
{ unfold c1. cbn [vars incidents set_incidents].
  rewrite get_update_same, Hget. reflexivity. }
rewrite (getTimeline_known id _ c1 Hget1).
cbn [timeline with_timeline incident_id incident_title incident_status startedAt
     resolvedAt fst snd].
assert (Hs : sort_by newest_first sorted = sorted)
  by (apply sort_by_sorted, sort_by_newest_first_sorted).
rewrite Hs.
eexists. split; [reflexivity |].
split; [apply sort_by_permutation |].
split; [apply sort_by_newest_first_sorted |].
split; [reflexivity |]. split; [reflexivity |].
unfold c1. cbn [vars env published incidents set_incidents alertQueue].
rewrite update_update. reflexivity.
Qed.

Lemma timeline_read_witness :
snd (getTimeline first_id (snd (getTimeline first_id after_root_cause)))
  = snd (getTimeline first_id after_root_cause).
Proof.
assert (Hget : exists inc, JsMap.get first_id (incidents (vars after_root_cause)) = Some inc)
  by (vm_compute; eexists; reflexivity).
destruct Hget as [inc Hget].
destruct (timeline_read_is_a_sorted_permutation_and_settles first_id inc
            after_root_cause Hget) as (view & _ & _ & _ & _ & _ & Hsnd).
exact Hsnd.
Defined.

Lemma step_keeps_no_detections (a : Action) (c : Ctx) :
no_detections (vars c) -> no_detections (vars (snd (step a c))).
Proof.
unfold no_detections. intros H. destruct a as [e | id body | id | id]; cbn [step].
- destruct e; try exact H.
  set (now := time_at (env c) (reads (env c))).
  assert (Hnone : forallb (fun i => negb (candidate now i))
                    (JsMap.values (incidents (vars c))) = true).
  { apply forallb_forall. intros i Hin. rewrite Forall_forall in H.
    unfold candidate. rewrite (H i Hin). cbn. rewrite andb_false_r. reflexivity. }
  destruct (handle_open a c (or_intror Hnone))
    as (id & aid & started & entry & at_ms & Hi & _).
  rewrite Hi. apply Forall_values_set; [reflexivity | exact H].
- rewrite bind_run. cbn [ret snd].
  destruct (JsMap.get id (incidents (vars c))) as [inc |] eqn:Hget.
  + destruct (postUpdate_known id body c inc Hget)
      as (t0 & t1 & t2 & at_ms & _ & Hinc & _).
    rewrite Hinc. apply Forall_values_update; [| exact H].
    intros i Hi. unfold with_resolution_of, with_root_cause_of, with_status_of.
    destruct (truthy_str (body_resolution body)),
      (truthy_str (body_rootCause body)), (body_status body); exact Hi.
  + unfold postUpdate, bind, getv. rewrite Hget. exact H.
- rewrite bind_run. cbn [ret snd].
  destruct (JsMap.get id (incidents (vars c))) as [inc |] eqn:Hget.
  + rewrite (getTimeline_known id inc c Hget). cbn [snd vars incidents set_incidents].
    apply Forall_values_update; [| exact H]. intros i Hi. exact Hi.
  + unfold getTimeline, bind, getv. rewrite Hget. exact H.
- exact H.
Qed.

(** X11.  Nothing in the module ever gives an incident a detection
  reference: if no incident holds one, none does after any sequence of
  bus events, updates and reads, and then every [alert.created] event,
  located or not, opens a new incident and publishes
  [incident.created]; none is attached to an existing incident. *)
Theorem without_detections_every_alert_opens_an_incident
  (actions : list Action) (event : AlertEvent) (c : Ctx) :
no_detections (vars c) ->
let c1 := snd (run actions c) in
no_detections (vars c1) /\
exists id aid started entry at_ms,
  incidents (vars (snd (handleAlert (AlertCreated event) c1)))
    = JsMap.set id (opened id aid started entry event) (incidents (vars c1)) /\
  published (snd (handleAlert (AlertCreated event) c1))
    = published c1
        ++ [IncidentCreated id (or_str (alert_severity event) "warning") at_ms].
Proof.
intros H c1.
assert (H1 : no_detections (vars c1)).
{ subst c1. revert c H. induction actions as [| a rest IH]; intros c H; [exact H |].
  cbn [run]. rewrite bind_run. apply IH. apply step_keeps_no_detections. exact H. }
split; [exact H1 |].
assert (Hnone : forallb (fun i => negb (candidate (time_at (env c1) (reads (env c1))) i))
                  (JsMap.values (incidents (vars c1))) = true).
{ apply forallb_forall. intros i Hin. unfold no_detections in H1.
  rewrite Forall_forall in H1.
  unfold candidate. rewrite (H1 i Hin). cbn. rewrite andb_false_r. reflexivity. }
destruct (handle_open event c1 (or_intror Hnone))
  as (id & aid & started & entry & at_ms & Hi & _ & _ & _ & _ & Hp).
exists id, aid, started, entry, at_ms. split; assumption.
Qed.

Lemma without_detections_witness :
exists id at_ms,
  published (snd (handleAlert (AlertCreated (leak "C"))
                    (snd (run [BusEvent (AlertCreated (leak "A"));
                               BusEvent (AlertCreated (leak "B"))] start))))
  = published (snd (run [BusEvent (AlertCreated (leak "A"));
                         BusEvent (AlertCreated (leak "B"))] start))
      ++ [IncidentCreated id "critical" at_ms].
Proof.
destruct (without_detections_every_alert_opens_an_incident
            [BusEvent (AlertCreated (leak "A")); BusEvent (AlertCreated (leak "B"))]
            (leak "C") start)
  as (_ & id & aid & started & entry & at_ms & _ & Hp); [constructor |].
exists id, at_ms. exact Hp.
Defined.

End IncidentsMore.

(** ** Missions: further properties *)

Lemma nth_push_new {A} (l : list A) (x : A) :
  nth_error (Js.push l x) (List.length l) = Some x.
Proof.
  unfold Js.push. rewrite nth_error_app2, Nat.sub_diag by lia. reflexivity.
Qed.

Lemma nth_push_old {A} (l : list A) (x y : A) (i : nat) :
  nth_error l i = Some y -> nth_error (Js.push l x) i = Some y.
Proof.
  intros H. unfold Js.push. rewrite nth_error_app1; [exact H |].
  apply nth_error_Some. congruence.
Qed.

Lemma nth_update_at_same {A} (f : A -> A) (l : list A) : forall i x,
  nth_error l i = Some x -> nth_error (update_at i f l) i = Some (f x).
Proof.
  induction l as [| y l IH]; intros [| i] x H; cbn in *; try discriminate.
  - congruence.
  - apply IH. exact H.
Qed.

Lemma nth_update_at_other {A} (f : A -> A) (l : list A) : forall i j,
  i <> j -> nth_error (update_at i f l) j = nth_error l j.
Proof.
  induction l as [| y l IH]; intros [| i] [| j] H; cbn; try reflexivity;
    try congruence.
  apply IH. congruence.
Qed.

Lemma update_at_update_at_id {A} (f g : A -> A) (l : list A) : forall i,
  update_at i g (update_at i f l) = update_at i (fun x => g (f x)) l.
Proof.
  induction l as [| y l IH]; intros [| i]; cbn; try reflexivity.
  now rewrite IH.
Qed.

Lemma update_at_fixed {A} (f : A -> A) (l : list A) : forall i x,
  nth_error l i = Some x -> f x = x -> update_at i f l = l.
Proof.
  induction l as [| y l IH]; intros [| i] x H Hf; cbn in *; try discriminate.
  - inversion H; subst. now rewrite Hf.
  - now rewrite (IH i x H Hf).
Qed.

Module MissionsMore.

Import Js Missions MissionsRoutes MissionsSpec MissionsMoreSpec.

Lemma lookup_some (s : State) (id : string) (ref : nat) (m : Mission) :
lookup s id = Some (ref, m) <->
JsMap.get id (missions s) = Some ref /\ deref s ref = Some m.
Proof.
unfold lookup. destruct (JsMap.get id (missions s)) as [r |].
- destruct (deref s r) as [m' |] eqn:E; split.
  + intros H. inversion H; subst. auto.
  + intros [H1 H2]. inversion H1; subst. rewrite E in H2. inversion H2. reflexivity.
  + discriminate.
  + intros [H1 H2]. inversion H1; subst. congruence.
- split; [discriminate | intros [H _]; discriminate].
Qed.

Lemma start_shape
  (id : string) (ref : nat) (m : Mission) (c : Ctx) :
lookup (vars c) id = Some (ref, m) ->
let c' := snd (start id c) in
exists t at_ms,
  let started := mkMission (m_id m) (m_title m) (m_type m) active (m_createdAt m)
                   (Some t) (m_completedAt m) (m_timeline m) (m_playbackSpeed m) in
  fst (start id c) = ok tt /\
  stored (vars c') (m_id m) = Some started /\
  current (vars c') = Some started /\
  (forall k m', k <> m_id m -> stored (vars c) k = Some m' ->
                stored (vars c') k = Some m') /\
  published c' = published c ++ [MissionStarted (m_id m) at_ms].
Proof.
intros Hl c'. subst c'. unfold start, bind, getv. rewrite Hl.
cbn [dateNow alloc bind getv putv ret set_active map_set modify Js.publish
     fst snd vars env published heap missions activeMission].
do 2 eexists. split; [reflexivity |].
unfold stored, current, lookup, deref.
cbn [heap missions activeMission].
rewrite get_set_same, nth_push_new. cbn [option_map snd].
split; [reflexivity |]. split; [reflexivity |]. split; [| reflexivity].
intros k m' Hne. rewrite get_set_other by exact Hne.
destruct (JsMap.get k (missions (vars c))) as [r |]; [| discriminate].
destruct (nth_error (heap (vars c)) r) as [m0 |] eqn:E; [| discriminate].
rewrite (nth_push_old _ _ _ _ E). auto.
Qed.

(** X13.  Starting a known mission stores a copy of it that is [active]
  with its start stamped, files the copy under the mission's id, makes
  it the active mission and publishes [mission.started]; the missions
  filed under other ids are as they were. *)
Theorem start_activates_and_tracks
  (id : string) (ref : nat) (m : Mission) (c : Ctx) :
lookup (vars c) id = Some (ref, m) ->
let c' := snd (start id c) in
exists t at_ms,
  let started := mkMission (m_id m) (m_title m) (m_type m) active (m_createdAt m)
                   (Some t) (m_completedAt m) (m_timeline m) (m_playbackSpeed m) in
  fst (start id c) = ok tt /\
  stored (vars c') (m_id m) = Some started /\
  current (vars c') = Some started /\
  (forall k m', k <> m_id m -> stored (vars c) k = Some m' ->
                stored (vars c') k = Some m') /\
  published c' = published c ++ [MissionStarted (m_id m) at_ms].
Proof. exact (start_shape id ref m c). Qed.

Lemma start_witness :
option_map m_status
  (current (vars (snd (start (id_of 0 two_created) two_created)))) = Some active.
Proof.
assert (Hl : exists ref m, lookup (vars two_created) (id_of 0 two_created) = Some (ref, m))
  by (vm_compute; do 2 eexists; reflexivity).
destruct Hl as (ref & m & Hl).
destruct (start_activates_and_tracks (id_of 0 two_created) ref m two_created Hl)
  as (t & at_ms & _ & _ & Hcur & _).
rewrite Hcur. reflexivity.
Defined.

Lemma stored_lookup (s : State) (id : string) (m : Mission) :
stored s id = Some m -> exists ref, lookup s id = Some (ref, m).
Proof.
unfold stored. destruct (lookup s id) as [[ref m'] |]; [| discriminate].
cbn. intros H. inversion H. eauto.
Qed.

(** X14.  Starting a second mission does not stop the first: both are
  stored as [active], and the active mission is the second one. *)
Theorem second_start_leaves_first_active
  (id1 id2 : string) (r1 r2 : nat) (m1 m2 : Mission) (c : Ctx) :
lookup (vars c) id1 = Some (r1, m1) ->
lookup (vars c) id2 = Some (r2, m2) ->
m_id m1 = id1 -> m_id m2 = id2 -> id1 <> id2 ->
let c2 := snd (start id2 (snd (start id1 c))) in
option_map m_status (stored (vars c2) id1) = Some active /\
option_map m_status (stored (vars c2) id2) = Some active /\
option_map m_id (current (vars c2)) = Some id2.
Proof.
intros H1 H2 E1 E2 Hne c2. subst c2.
destruct (start_shape id1 r1 m1 c H1)
  as (t1 & a1 & _ & Hs1 & _ & Hother1 & _).
rewrite E1 in *.
assert (Hs2 : stored (vars (snd (start id1 c))) id2 = Some m2).
{ apply Hother1; [congruence |]. unfold stored. rewrite H2. reflexivity. }
destruct (stored_lookup _ _ _ Hs2) as (r2' & H2').
destruct (start_shape id2 r2' m2 (snd (start id1 c)) H2')
  as (t2 & a2 & _ & Hs & Hcur & Hother2 & _).
rewrite E2 in *.
rewrite (Hother2 id1 _ Hne Hs1), Hs, Hcur. cbn. auto.
Qed.

Lemma second_start_witness :
option_map m_status
  (stored (vars (snd (start (id_of 1 two_created)
                        (snd (start (id_of 0 two_created) two_created)))))
     (id_of 0 two_created)) = Some active.
Proof.
assert (H1 : exists r m, lookup (vars two_created) (id_of 0 two_created) = Some (r, m)
                         /\ m_id m = id_of 0 two_created)
  by (vm_compute; do 2 eexists; split; reflexivity).
assert (H2 : exists r m, lookup (vars two_created) (id_of 1 two_created) = Some (r, m)
                         /\ m_id m = id_of 1 two_created)
  by (vm_compute; do 2 eexists; split; reflexivity).
destruct H1 as (r1 & m1 & H1 & E1). destruct H2 as (r2 & m2 & H2 & E2).
apply (second_start_leaves_first_active _ _ r1 r2 m1 m2 two_created H1 H2 E1 E2).
vm_compute. discriminate.
Defined.

Lemma deref_id_after_store (s : State) (ref a : nat) (f : Mission -> Mission) :
(forall m, m_id (f m) = m_id m) ->
option_map m_id (nth_error (update_at ref f (heap s)) a)
  = option_map m_id (nth_error (heap s) a).
Proof.
intros Hf. destruct (Nat.eq_dec ref a) as [<- | Hne].
- destruct (nth_error (heap s) ref) as [m |] eqn:E.
  + rewrite (nth_update_at_same f _ _ _ E). cbn. now rewrite Hf.
  + assert (Hn : nth_error (update_at ref f (heap s)) ref = None).
    { apply nth_error_None. rewrite update_at_length.
      apply nth_error_None. exact E. }
    rewrite Hn. reflexivity.
- rewrite nth_update_at_other by exact Hne. reflexivity.
Qed.

Lemma stop_shape
  (id : string) (ref : nat) (m : Mission) (c : Ctx) :
lookup (vars c) id = Some (ref, m) ->
let c' := snd (stop id c) in
exists t at_ms,
  fst (stop id c) = ok tt /\
  deref (vars c') ref
    = Some (mkMission (m_id m) (m_title m) (m_type m) completed (m_createdAt m)
              (m_startedAt m) (Some t) (m_timeline m) (m_playbackSpeed m)) /\
  missions (vars c') = missions (vars c) /\
  activeMission (vars c')
    = (match option_map m_id (current (vars c)) with
       | Some aid => if String.eqb aid (m_id m) then None
                     else activeMission (vars c)
       | None => activeMission (vars c)
       end) /\
  published c' = published c ++ [MissionCompleted (m_id m) at_ms].
Proof.
intros Hl c'. subst c'. apply lookup_some in Hl as Hl'. destruct Hl' as [_ Hd].
unfold deref in Hd.
unfold stop, bind, getv. rewrite Hl.
cbn [store modify dateNow fst snd vars env published heap missions activeMission].
unfold clear_active_if, bind, getv, current, deref.
cbn [fst snd vars heap missions activeMission].
rewrite update_at_update_at_id.
destruct (activeMission (vars c)) as [a |] eqn:Ha.
- pose proof (deref_id_after_store (vars c) ref a
                (fun x => with_completedAt (time_at (env c) (reads (env c)))
                            (with_status completed x))
                (fun x => eq_refl)) as Hid.
  destruct (nth_error (update_at ref _ (heap (vars c))) a) as [am |] eqn:Ea;
    destruct (nth_error (heap (vars c)) a) as [am0 |] eqn:Ea0;
    cbn [option_map] in Hid; try discriminate Hid.
  + inversion Hid as [Hid']. rewrite Hid'. cbn [option_map].
    destruct (String.eqb (m_id am0) (m_id m));
      cbn [set_active modify ret dateNow Js.publish fst snd vars env published
           heap missions activeMission];
      do 2 eexists;
      (split; [reflexivity |]);
      (split; [rewrite (nth_update_at_same _ _ _ _ Hd); reflexivity |]);
      repeat split; reflexivity.
  + cbn [ret dateNow Js.publish fst snd vars env published heap missions
         activeMission].
    do 2 eexists.
    (split; [reflexivity |]).
    (split; [rewrite (nth_update_at_same _ _ _ _ Hd); reflexivity |]).
    repeat split; reflexivity.
- cbn [ret dateNow Js.publish fst snd vars env published heap missions
       activeMission].
  do 2 eexists.
  (split; [reflexivity |]).
  (split; [rewrite (nth_update_at_same _ _ _ _ Hd); reflexivity |]).
  repeat split; reflexivity.
Qed.

(** X15.  Stopping a known mission marks its object [completed] and
  stamps [completedAt], keeps the map, publishes [mission.completed],
  and clears the active mission exactly when the active mission has the
  id of the stopped one. *)
Theorem stop_completes_and_clears_pointer
  (id : string) (ref : nat) (m : Mission) (c : Ctx) :
lookup (vars c) id = Some (ref, m) ->
let c' := snd (stop id c) in
exists t at_ms,
  fst (stop id c) = ok tt /\
  deref (vars c') ref
    = Some (mkMission (m_id m) (m_title m) (m_type m) completed (m_createdAt m)
              (m_startedAt m) (Some t) (m_timeline m) (m_playbackSpeed m)) /\
  missions (vars c') = missions (vars c) /\
  activeMission (vars c')
    = (match option_map m_id (current (vars c)) with
       | Some aid => if String.eqb aid (m_id m) then None
                     else activeMission (vars c)
       | None => activeMission (vars c)
       end) /\
  published c' = published c ++ [MissionCompleted (m_id m) at_ms].
Proof. exact (stop_shape id ref m c). Qed.

Lemma stop_witness :
activeMission (vars (snd (stop (id_of 0 one_running) one_running))) = None.
Proof.
assert (Hl : exists ref m, lookup (vars one_running) (id_of 0 one_running) = Some (ref, m))
  by (vm_compute; do 2 eexists; reflexivity).
destruct Hl as (ref & m & Hl).
destruct (stop_completes_and_clears_pointer (id_of 0 one_running) ref m one_running Hl)
  as (t & at_ms & _ & _ & _ & Hact & _).
rewrite Hact. vm_compute in Hl. inversion Hl. reflexivity.
Defined.







(** X18.  Pausing the active mission and resuming it is a round trip:
  the objects, the map and the active mission are as before, and
  nothing is published. *)
Theorem pause_then_resume_restores
  (id : string) (ref : nat) (m : Mission) (c : Ctx) :
lookup (vars c) id = Some (ref, m) ->
m_status m = active ->
activeMission (vars c) = Some ref ->
let c' := snd (resume id (snd (pause id c))) in
fst (pause id c) = ok tt /\
activeMission (vars (snd (pause id c))) = None /\
option_map m_status (stored (vars (snd (pause id c))) id) = Some paused /\
fst (resume id (snd (pause id c))) = ok tt /\
heap (vars c') = heap (vars c) /\
missions (vars c') = missions (vars c) /\
activeMission (vars c') = activeMission (vars c) /\
published c' = published c.
Proof.
intros Hl Hst Ha c'. subst c'.
apply lookup_some in Hl as Hl'. destruct Hl' as [Hg Hd]. unfold deref in Hd.
assert (Hp : pause id c
             = (ok tt, mkCtx (mkState (update_at ref (with_status paused) (heap (vars c)))
                                (missions (vars c)) None)
                         (env c) (published c))).
{ unfold pause, bind, getv. rewrite Hl.
  cbn [store modify fst snd vars env published heap missions activeMission].
  unfold clear_active_if, bind, getv, deref.
  cbn [fst snd vars heap missions activeMission].
  rewrite Ha, (nth_update_at_same _ _ _ _ Hd).
  cbn [with_status m_id]. rewrite String.eqb_refl. reflexivity. }
rewrite Hp. cbn [fst snd vars published heap missions activeMission].
split; [reflexivity |]. split; [reflexivity |].
assert (Hl1 : lookup (mkState (update_at ref (with_status paused) (heap (vars c)))
                        (missions (vars c)) None) id
              = Some (ref, with_status paused m)).
{ apply lookup_some. cbn [missions]. split; [exact Hg |].
  unfold deref. cbn [heap]. apply nth_update_at_same. exact Hd. }
unfold stored. rewrite Hl1. split; [reflexivity |].
unfold resume, bind, getv. cbn [vars fst snd]. rewrite Hl1.
cbn [store set_active modify ret fst snd vars env published heap missions
     activeMission].
split; [reflexivity |].
rewrite update_at_update_at_id.
split; [| split; [reflexivity | split; [symmetry; exact Ha | reflexivity]]].
apply update_at_fixed with (x := m); [exact Hd |].
destruct m; cbn in *. subst. reflexivity.
Qed.

Lemma pause_then_resume_witness :
heap (vars (snd (resume (id_of 0 one_running)
                   (snd (pause (id_of 0 one_running) one_running)))))
= heap (vars one_running).
Proof.
assert (Hl : exists ref m, lookup (vars one_running) (id_of 0 one_running) = Some (ref, m)
                           /\ m_status m = active
                           /\ activeMission (vars one_running) = Some ref)
  by (vm_compute; do 2 eexists; repeat split; reflexivity).
destruct Hl as (ref & m & Hl & Hs & Ha).
apply (pause_then_resume_restores (id_of 0 one_running) ref m one_running Hl Hs Ha).
Defined.

Lemma filed_initial : filed initial.
Proof. split; [intros id ref H | intros a H]; discriminate. Qed.

Lemma filed_update (s s' : State) (ref : nat) (f : Mission -> Mission) :
filed s ->
(forall m, m_id (f m) = m_id m) ->
heap s' = update_at ref f (heap s) ->
missions s' = missions s ->
(forall a, activeMission s' = Some a -> exists m, deref s a = Some m) ->
filed s'.
Proof.
intros [Hm Ha] Hf Hh Hmap Hact.
assert (Hkeep : forall r m, deref s r = Some m ->
                  exists m', deref s' r = Some m' /\ m_id m' = m_id m).
{ intros r m Hr. unfold deref in *. rewrite Hh.
  destruct (Nat.eq_dec ref r) as [<- | Hne].
  - rewrite (nth_update_at_same _ _ _ _ Hr). eauto.
  - rewrite nth_update_at_other by exact Hne. eauto. }
split.
- intros id r Hg. rewrite Hmap in Hg.
  destruct (Hm id r Hg) as (m & Hr & Hid).
  destruct (Hkeep r m Hr) as (m' & Hr' & Hid'). exists m'. split; congruence.
- intros a Hs. destruct (Hact a Hs) as (m & Hr).
  destruct (Hkeep a m Hr) as (m' & Hr' & _). eauto.
Qed.

Lemma filed_push (s s' : State) (m : Mission) :
filed s ->
heap s' = push (heap s) m ->
missions s' = JsMap.set (m_id m) (List.length (heap s)) (missions s) ->
(forall a, activeMission s' = Some a ->
   a = List.length (heap s) \/ exists m', deref s a = Some m') ->
filed s'.
Proof.
intros [Hm Ha] Hh Hmap Hact. split.
- intros id r Hg. rewrite Hmap in Hg. unfold deref. rewrite Hh.
  destruct (string_dec id (m_id m)) as [-> | Hne].
  + rewrite get_set_same in Hg. inversion Hg; subst.
    rewrite nth_push_new. eauto.
  + rewrite get_set_other in Hg by exact Hne.
    destruct (Hm id r Hg) as (m0 & Hr & Hid).
    rewrite (nth_push_old _ _ _ _ Hr). eauto.
- intros a Hs. unfold deref. rewrite Hh.
  destruct (Hact a Hs) as [-> | (m' & Hr)].
  + rewrite nth_push_new. eauto.
  + rewrite (nth_push_old _ _ _ _ Hr). eauto.
Qed.

Lemma clear_active_if_shape (m : Mission) (c : Ctx) :
heap (vars (snd (clear_active_if m c))) = heap (vars c) /\
missions (vars (snd (clear_active_if m c))) = missions (vars c) /\
(activeMission (vars (snd (clear_active_if m c))) = None \/
 activeMission (vars (snd (clear_active_if m c))) = activeMission (vars c)).
Proof.
unfold clear_active_if, bind, getv. cbn [fst snd].
destruct (activeMission (vars c)) as [a |] eqn:Ha; [| cbn; rewrite Ha; auto].
destruct (deref (vars c) a) as [am |]; [| cbn; rewrite Ha; auto].
destruct (String.eqb (m_id am) (m_id m)); cbn; auto.
Qed.

Lemma step_keeps_filed (a : Action) (c : Ctx) :
filed (vars c) -> filed (vars (snd (step a c))).
Proof.
intros H. destruct a as [body | id | id | id | id | id speed | id title];
  cbn [step]; rewrite bind_run; cbn [ret snd].
- eapply filed_push with (m := fst (create body c)); [exact H | | |].
  + reflexivity.
  + reflexivity.
  + intros a Ha. right. destruct H as [_ H]. apply H. exact Ha.
- unfold start. rewrite bind_run. cbn [getv fst snd].
  destruct (lookup (vars c) id) as [[ref m] |] eqn:Hl; [| exact H].
  eapply filed_push with
    (m := mkMission (m_id m) (m_title m) (m_type m) active (m_createdAt m)
            (Some (time_at (env c) (reads (env c)))) (m_completedAt m)
            (m_timeline m) (m_playbackSpeed m)); [exact H | | |].
  + reflexivity.
  + reflexivity.
  + intros a Ha. left. cbn in Ha. inversion Ha. reflexivity.
- unfold pause. rewrite bind_run. cbn [getv fst snd].
  destruct (lookup (vars c) id) as [[ref m] |] eqn:Hl; [| exact H].
  rewrite !bind_run. cbn [ret snd].
  destruct (clear_active_if_shape m (snd (store ref (with_status paused) c)))
    as (Hh & Hm & Ha).
  eapply filed_update with (ref := ref) (f := with_status paused);
    [exact H | reflexivity | exact Hh | exact Hm |].
  intros a Hs. destruct H as [_ H]. apply H.
  destruct Ha as [Ha | Ha]; rewrite Ha in Hs; [discriminate | exact Hs].
- unfold resume. rewrite bind_run. cbn [getv fst snd].
  destruct (lookup (vars c) id) as [[ref m] |] eqn:Hl; [| exact H].
  apply lookup_some in Hl. destruct Hl as [_ Hd].
  eapply filed_update with (ref := ref) (f := with_status active);
    [exact H | reflexivity | reflexivity | reflexivity |].
  intros a Hs. cbn in Hs. inversion Hs; subst. eauto.
- unfold stop. rewrite bind_run. cbn [getv fst snd].
  destruct (lookup (vars c) id) as [[ref m] |] eqn:Hl; [| exact H].
  rewrite !bind_run. cbn [ret snd Js.publish dateNow vars fst].
  set (c1 := snd (store ref (with_completedAt _) _)).
  destruct (clear_active_if_shape m c1) as (Hh & Hm & Ha).
  eapply filed_update with
    (ref := ref)
    (f := fun x => with_completedAt (time_at (env c) (reads (env c)))
                     (with_status completed x));
    [exact H | reflexivity | | exact Hm |].
  + cbn [vars] in Hh |- *. rewrite Hh. subst c1.
    cbn [store modify dateNow fst snd vars env heap].
    apply update_at_update_at_id.
  + intros a Hs. destruct H as [_ H]. apply H.
    cbn [vars] in Ha, Hs.
    destruct Ha as [Ha | Ha]; rewrite Ha in Hs; [discriminate | exact Hs].
- unfold setSpeed. rewrite bind_run. cbn [getv fst snd].
  destruct (lookup (vars c) id) as [[ref m] |] eqn:Hl; [| exact H].
  eapply filed_update with (ref := ref) (f := with_playbackSpeed (clamp_speed speed));
    [exact H | reflexivity | reflexivity | reflexivity |].
  intros a Hs. destruct H as [_ H]. apply H. exact Hs.
- unfold branch. rewrite bind_run. cbn [getv fst snd].
  destruct (lookup (vars c) id) as [[ref m] |] eqn:Hl; [| exact H].
  match goal with
  | |- filed (vars (snd (?p c))) =>
      eapply filed_push with (m := match fst (p c) with ok x => x | not_found => m end);
        [exact H | | |]
  end.
  + reflexivity.
  + reflexivity.
  + intros a Ha. right. destruct H as [_ H]. apply H. exact Ha.
Qed.

(** X19.  Over any sequence of requests, every mission of the map stays
  filed under its own id and no reference dangles; so a read by id
  answers a mission carrying the id that was asked for. *)
Theorem requests_keep_missions_filed (actions : list Action) (c : Ctx) :
filed (vars c) ->
let c' := snd (run actions c) in
filed (vars c') /\
(forall id m, fst (getMission id c') = ok m -> m_id m = id) /\
(forall id, JsMap.has id (missions (vars c')) = true ->
            exists m, fst (getMission id c') = ok m).
Proof.
intros H c'. subst c'.
assert (Hf : filed (vars (snd (run actions c)))).
{ revert c H. induction actions as [| a rest IH]; intros c H; [exact H |].
  cbn [run]. rewrite bind_run. apply IH. apply step_keeps_filed. exact H. }
split; [exact Hf |].
set (c' := snd (run actions c)) in *. destruct Hf as [Hm _].
unfold getMission, bind, getv, stored, lookup. cbn [fst snd ret]. split.
- intros id m. destruct (JsMap.get id (missions (vars c'))) as [r |] eqn:Hg;
    [| discriminate].
  destruct (Hm id r Hg) as (m0 & Hr & Hid). rewrite Hr. cbn.
  intros E. inversion E; subst. reflexivity.
- intros id Hhas. unfold JsMap.has in Hhas.
  destruct (JsMap.get id (missions (vars c'))) as [r |] eqn:Hg; [| discriminate].
  destruct (Hm id r Hg) as (m0 & Hr & Hid). rewrite Hr. cbn. eauto.
Qed.

Lemma requests_keep_missions_filed_witness :
filed (vars two_created).
Proof.
apply (requests_keep_missions_filed
         [Create (mkCreateBody (Some "Leak replay") None None);
          Create (mkCreateBody (Some "Valve drill") (Some scenario) None)]
         empty_store).
split; [intros id ref H | intros a H]; discriminate.
Defined.

(** X20.  Starting a mission and then stopping it leaves it stored as
  [completed] with both stamps, leaves no active mission (the status
  route answers inactive with progress 0), and publishes
  [mission.started] followed by [mission.completed]. *)
Theorem start_then_stop_completes
  (id : string) (ref : nat) (m : Mission) (c : Ctx) :
lookup (vars c) id = Some (ref, m) ->
m_id m = id ->
let c2 := snd (stop id (snd (start id c))) in
exists t1 t2 a1 a2,
  stored (vars c2) id
    = Some (mkMission id (m_title m) (m_type m) completed (m_createdAt m)
              (Some t1) (Some t2) (m_timeline m) (m_playbackSpeed m)) /\
  fst (getActiveStatus c2) = mkActiveStatus false None 0%Q /\
  published c2 = published c ++ [MissionStarted id a1; MissionCompleted id a2].
Proof.
intros Hl Hid c2. subst c2.
destruct (start_shape id ref m c Hl) as (t1 & a1 & _ & Hs & Hcur & _ & Hpub).
rewrite Hid in *.
destruct (stored_lookup _ _ _ Hs) as (r' & Hl1).
destruct (stop_shape id r' _ (snd (start id c)) Hl1)
  as (t2 & a2 & _ & Hd & Hm & Ha & Hpub2).
cbn [m_id m_title m_type m_createdAt m_startedAt m_timeline m_playbackSpeed] in *.
exists t1, t2, a1, a2.
rewrite Hcur in Ha. cbn [option_map m_id] in Ha. rewrite String.eqb_refl in Ha.
split; [| split].
- apply lookup_some in Hl1. destruct Hl1 as [Hg _].
  unfold stored, lookup. rewrite Hm, Hg, Hd. reflexivity.
- unfold getActiveStatus, bind, getv, current. cbn [fst snd]. rewrite Ha.
  reflexivity.
- rewrite Hpub2, Hpub, <- app_assoc. reflexivity.
Qed.

Lemma start_then_stop_witness :
fst (getActiveStatus (snd (stop (id_of 0 two_created)
                             (snd (start (id_of 0 two_created) two_created)))))
= mkActiveStatus false None 0%Q.
Proof.
assert (Hl : exists ref m, lookup (vars two_created) (id_of 0 two_created) = Some (ref, m)
                           /\ m_id m = id_of 0 two_created)
  by (vm_compute; do 2 eexists; split; reflexivity).
destruct Hl as (ref & m & Hl & Hid).
destruct (start_then_stop_completes (id_of 0 two_created) ref m two_created Hl Hid)
  as (t1 & t2 & a1 & a2 & _ & Hst & _).
exact Hst.
Defined.

End MissionsMore.

(** ** ROS2 bridge: further properties *)

Lemma get_in_keys {V} (k : string) (v : V) (m : JsMap.t V) :
  JsMap.get k m = Some v -> In k (JsMap.keys m).
Proof.
  induction m as [| [k' v'] m IH]; cbn [JsMap.get JsMap.keys map fst]; [discriminate |].
  destruct (String.eqb_spec k k') as [-> | Hne]; intros H.
  - left. reflexivity.
  - right. apply IH. exact H.
Qed.

Module Ros2More.

Import Js Ros2 Ros2Spec Ros2MoreSpec Ros2Facts.

Lemma marked_trans (a b d : JsMap.t ROS2Node) :
marked a b -> marked b d -> marked a d.
Proof.
intros Hab Hbd. induction Hbd as [| m' k t _ IH]; [exact Hab |].
apply marked_more. exact IH.
Qed.

Lemma marked_keys (m m' : JsMap.t ROS2Node) :
marked m m' -> JsMap.keys m' = JsMap.keys m.
Proof.
intros H. induction H as [| m' k t _ IH]; [reflexivity |].
rewrite keys_update. exact IH.
Qed.

Lemma markNodeOffline_nodes (nodeId : string) (c : Ctx) :
nodes (vars (snd (markNodeOffline nodeId c)))
= JsMap.update nodeId (offline_at (time_at (env c) (reads (env c)))) (nodes (vars c)).
Proof.
unfold markNodeOffline, bind, getv. cbn [fst snd].
destruct (JsMap.get nodeId (nodes (vars c))) as [node |] eqn:E.
- cbn [modify emit dateNow Js.publish fst snd vars env set_nodes nodes].
  rewrite update_update. reflexivity.
- cbn [ret snd]. symmetry. apply update_fixed. intros v Hv. congruence.
Qed.

Lemma sweep_marked (now : Z) (nodeIds : list string) : forall c : Ctx,
marked (nodes (vars c)) (nodes (vars (snd (sweep now nodeIds c)))).
Proof.
induction nodeIds as [| nodeId rest IH]; intros c; cbn [sweep];
  [apply marked_none |].
rewrite !bind_run. cbn [getv fst snd].
eapply marked_trans; [| apply IH].
destruct (JsMap.get nodeId (nodes (vars c))) as [node |]; [| apply marked_none].
destruct (stale now node); [| apply marked_none].
rewrite markNodeOffline_nodes. apply marked_more, marked_none.
Qed.

(** What a step can do to the node map: register a node under its key,
  or mark some nodes offline. *)
Lemma step_nodes (a : Action) (c : Ctx) :
(exists node, a = RegisterNode node /\
   nodes (vars (snd (step a c)))
   = JsMap.set (node_key node) node (nodes (vars c))) \/
marked (nodes (vars c)) (nodes (vars (snd (step a c)))).
Proof.
destruct a; cbn [step].
- left. eexists. split; reflexivity.
- right. replace (nodes (vars (snd _))) with (nodes (vars c)); [apply marked_none |].
  symmetry. revert c. change (preserves nodes
    (bind (subscribeTelemetry nodeId topic) (fun _ => ret tt))).
  unfold subscribeTelemetry. frame.
- right. replace (nodes (vars (snd _))) with (nodes (vars c)); [apply marked_none |].
  symmetry. revert c.
  apply preserves_bind; [apply preserves_getv | intros st].
  destruct (existsb _ _); [apply telemetry_preserves_nodes | apply preserves_ret].
- right. replace (nodes (vars (snd _))) with (nodes (vars c)); [apply marked_none |].
  symmetry. rewrite bind_run. cbn [ret snd].
  destruct (JsMap.get (c_nodeId cmd) (nodes (vars c))) as [node |] eqn:Hget.
  + destruct (mem (c_topic cmd) (publish node)) eqn:Hmem.
    * destruct (publishCommand_ok cmd node c Hget Hmem) as (cid & ts & w & Heq).
      cbv zeta in Heq. rewrite Heq. reflexivity.
    * unfold publishCommand, bind, getv. rewrite Hget, Hmem. reflexivity.
  + unfold publishCommand, bind, getv. rewrite Hget. reflexivity.
- right. replace (nodes (vars (snd _))) with (nodes (vars c)); [apply marked_none |].
  symmetry. rewrite bind_run. cbn [getv fst snd].
  destruct (nth_error (ackTimers (vars c)) n) as [[cid d] |]; [| reflexivity].
  rewrite bind_run. unfold modify. cbn [fst snd].
  unfold ackCallback. rewrite bind_run.
  cbn [getv fst snd vars commandHistory set_ackTimers].
  destruct (JsMap.get cid (commandHistory (vars c))) as [res |]; [| reflexivity].
  destruct (is_pending (status res)); reflexivity.
- right. rewrite markNodeOffline_nodes. apply marked_more, marked_none.
- right. unfold heartbeatCallback. rewrite !bind_run. cbn [getv dateNow fst snd].
  apply (sweep_marked _ _ (mkCtx _ _ _)).
Qed.

Section Untouched.

(** Parts of the state that only the telemetry loop writes. *)
Context {X : Type} (proj : State -> X).
Hypothesis proj_nodes : forall m s, proj (set_nodes m s) = proj s.
Hypothesis proj_history : forall h s, proj (set_commandHistory h s) = proj s.
Hypothesis proj_timers : forall l s, proj (set_ackTimers l s) = proj s.
Hypothesis proj_emit : forall e c, proj (vars (snd (emit e c))) = proj (vars c).

Lemma registerNode_untouched (node : ROS2Node) : preserves proj (registerNode node).
Proof.
  unfold registerNode.
  apply preserves_bind; [apply preserves_modify; intros s; apply proj_nodes | intros _].
  apply preserves_bind; [intros c; apply proj_emit | intros _]. frame.
Qed.

Lemma markNodeOffline_untouched (nodeId : string) :
  preserves proj (markNodeOffline nodeId).
Proof.
  unfold markNodeOffline.
  apply preserves_bind; [apply preserves_getv | intros st].
  destruct (JsMap.get nodeId (nodes st)); [| apply preserves_ret].
  apply preserves_bind; [apply preserves_modify; intros s; apply proj_nodes | intros _].
  apply preserves_bind; [apply preserves_dateNow | intros t].
  apply preserves_bind; [apply preserves_modify; intros s; apply proj_nodes | intros _].
  apply preserves_bind; [intros c; apply proj_emit | intros _]. frame.
Qed.

Lemma sweep_untouched (now : Z) (nodeIds : list string) :
  preserves proj (sweep now nodeIds).
Proof.
  induction nodeIds as [| nodeId rest IH]; cbn [sweep]; [apply preserves_ret |].
  apply preserves_bind; [apply preserves_getv | intros st].
  apply preserves_bind; [| intros ?; exact IH].
  destruct (JsMap.get nodeId (nodes st)) as [node |]; [| apply preserves_ret].
  destruct (stale now node); [apply markNodeOffline_untouched | apply preserves_ret].
Qed.

Lemma publishCommand_untouched (cmd : ROS2Command) :
  preserves proj (publishCommand cmd).
Proof.
  unfold publishCommand.
  apply preserves_bind; [apply preserves_getv | intros st].
  destruct (JsMap.get (c_nodeId cmd) (nodes st)) as [node |]; [| apply preserves_ret].
  destruct (negb _); [apply preserves_ret |].
  apply preserves_bind; [apply preserves_dateNow | intros t].
  apply preserves_bind; [apply preserves_mathRandom | intros r].
  apply preserves_bind; [apply preserves_render36 | intros suffix].
  apply preserves_bind; [apply preserves_dateNow | intros ts].
  apply preserves_bind; [apply preserves_modify; intros s; apply proj_history | intros _].
  apply preserves_bind; [intros c; apply proj_emit | intros _].
  apply preserves_bind; [apply preserves_mathRandom | intros d].
  apply preserves_bind; [apply preserves_modify; intros s; apply proj_timers | intros _].
  apply preserves_ret.
Qed.

Lemma ackCallback_untouched (cid : string) : preserves proj (ackCallback cid).
Proof.
  unfold ackCallback.
  apply preserves_bind; [apply preserves_getv | intros st].
  destruct (JsMap.get cid (commandHistory st)) as [res |]; [| apply preserves_ret].
  destruct (is_pending (status res)); [| apply preserves_ret].
  apply preserves_bind; [apply preserves_modify; intros s; apply proj_history | intros _].
  intros c; apply proj_emit.
Qed.

(** Every step but a subscription or a telemetry delivery leaves the
part alone. *)
Lemma step_untouched (a : Action) :
  match a with
  | SubscribeTelemetry _ _ | TelemetryTick _ _ => True
  | _ => preserves proj (step a)
  end.
Proof.
  destruct a; cbn [step]; try exact I.
  - apply registerNode_untouched.
  - apply preserves_bind; [apply publishCommand_untouched | intros ?; apply preserves_ret].
  - apply preserves_bind; [apply preserves_getv | intros st].
destruct (nth_error (ackTimers st) n) as [[cid d] |]; [| apply preserves_ret].
apply preserves_bind; [apply preserves_modify; intros s; apply proj_timers | intros _].
apply ackCallback_untouched.
  - apply markNodeOffline_untouched.
  - unfold heartbeatCallback.
apply preserves_bind; [apply preserves_dateNow | intros now].
apply preserves_bind; [apply preserves_getv | intros st].
apply sweep_untouched.
Qed.

End Untouched.

Lemma marked_keeps (P : JsMap.t ROS2Node -> Prop) (m m' : JsMap.t ROS2Node) :
(forall m0 k t, P m0 -> P (JsMap.update k (offline_at t) m0)) ->
marked m m' -> P m -> P m'.
Proof.
intros Hstep H Hm. induction H as [| m' k t _ IH]; [exact Hm |].
apply Hstep. exact IH.
Qed.







Lemma has_marked (m m' : JsMap.t ROS2Node) (k : string) :
marked m m' -> JsMap.has k m' = JsMap.has k m.
Proof. intros H. apply has_same_keys, marked_keys. exact H. Qed.

Lemma generate_keeps_vars (topic : string) (c : Ctx) :
vars (snd (generateMockTelemetry topic c)) = vars c.
Proof. apply (generate_preserves (fun s => s)). Qed.

Lemma ingestion_untouched {X} (proj : State -> X) (topic : string) (data : TelemetryData) :
(forall f s, proj (set_flowiq f s) = proj s) ->
preserves (E := PlainviewEvent) proj
  (if includes topic "flow" && isSome (data_flowRateLpm data)
   then now <- dateNow ;;
        zoom flowiq set_flowiq
          (FlowIQ.ingestFlowTelemetry
             (FlowIQ.mkSample (data_flowRateLpm data) (data_pressurePa data)
                (data_temperatureC data) (Some now)))
   else ret tt).
Proof.
intros H. destruct (_ && _); [| apply preserves_ret].
apply preserves_bind; [apply preserves_dateNow | intros now].
apply preserves_zoom. intros t s. apply H.
Qed.

(** What a delivery does to the state when the node is registered. *)
Lemma telemetryCallback_registered (nodeId topic : string) (c : Ctx) :
JsMap.has nodeId (nodes (vars c)) = true ->
let c' := snd (telemetryCallback nodeId topic c) in
exists telemetry,
  t_nodeId telemetry = nodeId /\ t_topic telemetry = topic /\
  telemetryBuffer (vars c')
  = (let b := push (telemetryBuffer (vars c)) telemetry in
     if Nat.ltb 1000 (List.length b) then shift b else b) /\
  loops (vars c') = loops (vars c) /\
  emitted (vars c') = emitted (vars c) ++ [Telemetry telemetry].
Proof.
intros Hhas c'. subst c'. unfold telemetryCallback.
rewrite bind_run. cbn [getv fst snd]. rewrite Hhas. cbn [negb].
rewrite bind_run.
pose proof (generate_keeps_vars topic c) as Hv.
set (data := fst (generateMockTelemetry topic c)) in *.
set (c1 := snd (generateMockTelemetry topic c)) in *.
rewrite bind_run. cbn [dateNow fst snd].
set (ts := time_at (env c1) (reads (env c1))).
exists (mkTelemetry nodeId topic data ts).
split; [reflexivity |]. split; [reflexivity |].
rewrite !bind_run.
set (ing := if includes topic "flow" && isSome (data_flowRateLpm data) then _ else _).
assert (Hing : forall X (proj : State -> X),
           (forall f s, proj (set_flowiq f s) = proj s) -> preserves proj ing)
  by (intros X proj H; apply ingestion_untouched; exact H).
split; [| split].
- cbn [emit modify snd vars telemetryBuffer].
  rewrite (Hing _ telemetryBuffer (fun f s => eq_refl)).
  cbn [Js.publish dateNow modify fst snd vars env published telemetryBuffer].
  rewrite Hv.
  cbn [set_telemetryBuffer telemetryBuffer].
  destruct (Nat.ltb 1000 _); reflexivity.
- cbn [emit modify snd vars loops].
  rewrite (Hing _ loops (fun f s => eq_refl)).
  cbn [Js.publish dateNow modify fst snd vars env published loops].
  rewrite Hv.
  destruct (Nat.ltb 1000 _); reflexivity.
- cbn [emit modify snd vars emitted].
  rewrite (Hing _ emitted (fun f s => eq_refl)).
  cbn [Js.publish dateNow modify fst snd vars env published emitted].
  rewrite Hv.
  destruct (Nat.ltb 1000 _); reflexivity.
Qed.

Lemma subscribe_untouched {X} (proj : State -> X) (nodeId topic : string) :
(forall l s, proj (set_loops l s) = proj s) ->
preserves (E := PlainviewEvent) proj (subscribeTelemetry nodeId topic).
Proof.
intros H. unfold subscribeTelemetry.
apply preserves_bind; [apply preserves_getv | intros st].
destruct (JsMap.get nodeId (nodes st)) as [node |]; [| apply preserves_ret].
destruct (negb _); [apply preserves_ret |].
apply preserves_bind; [apply preserves_modify; intros s; apply H | intros _].
apply preserves_ret.
Qed.

Lemma step_keeps_buffer_bound (a : Action) (c : Ctx) :
(List.length (telemetryBuffer (vars c)) <= 1000)%nat ->
(List.length (telemetryBuffer (vars (snd (step a c)))) <= 1000)%nat.
Proof.
intros H.
pose proof (step_untouched telemetryBuffer (fun m s => eq_refl)
              (fun h s => eq_refl) (fun l s => eq_refl) (fun e c0 => eq_refl) a) as Hu.
destruct a; try (rewrite Hu; exact H); clear Hu; cbn [step].
- rewrite bind_run. cbn [ret snd].
  rewrite (subscribe_untouched telemetryBuffer nodeId topic (fun l s => eq_refl)).
  exact H.
- rewrite bind_run. cbn [getv fst snd].
  destruct (existsb _ _); [| exact H].
  destruct (JsMap.has nodeId (nodes (vars c))) eqn:Hhas.
  + destruct (telemetryCallback_registered nodeId topic c Hhas)
      as (t & _ & _ & Hb & _).
    rewrite Hb. cbv zeta.
    destruct (Nat.ltb_spec 1000 (List.length (push (telemetryBuffer (vars c)) t)))
      as [Hlt | Hle]; [| exact Hle].
    unfold shift, push in *. rewrite length_app in Hlt. cbn [List.length] in Hlt.
    destruct (telemetryBuffer (vars c)) as [| x l]; cbn [app tl List.length] in *;
      [lia |].
    rewrite length_app. cbn [List.length]. lia.
  + unfold telemetryCallback. rewrite bind_run. cbn [getv fst snd].
    rewrite Hhas. exact H.
Qed.

(** X22.  The telemetry buffer never holds more than 1000 entries,
  whatever the bridge is asked to do and whichever timers fire. *)
Theorem telemetry_buffer_holds_at_most_1000 (actions : list Action) (c : Ctx) :
(List.length (telemetryBuffer (vars c)) <= 1000)%nat ->
(List.length (telemetryBuffer (vars (snd (run actions c)))) <= 1000)%nat.
Proof.
revert c. induction actions as [| a rest IH]; intros c H; [exact H |].
cbn [run]. rewrite bind_run. apply IH. apply step_keeps_buffer_bound. exact H.
Qed.

Lemma telemetry_buffer_witness :
(List.length (telemetryBuffer (vars (snd (run
    [RegisterNode n1; SubscribeTelemetry n1_id "flow"; TelemetryTick n1_id "flow"]
    boot)))) <= 1000)%nat.
Proof.
apply (telemetry_buffer_holds_at_most_1000
         [RegisterNode n1; SubscribeTelemetry n1_id "flow"; TelemetryTick n1_id "flow"]
         boot).
cbn. lia.
Defined.

Lemma step_keeps_loop (a : Action) (nodeId topic : string) (c : Ctx) :
JsMap.has nodeId (nodes (vars c)) = true ->
In (nodeId, topic) (loops (vars c)) ->
In (nodeId, topic) (loops (vars (snd (step a c)))).
Proof.
intros Hhas Hin.
pose proof (step_untouched loops (fun m s => eq_refl)
              (fun h s => eq_refl) (fun l s => eq_refl) (fun e c0 => eq_refl) a) as Hu.
destruct a as [node | n2 t2 | n2 t2 | cmd | n | n2 |];
  try (rewrite Hu; exact Hin); clear Hu; cbn [step].
- rewrite bind_run. cbn [ret snd]. unfold subscribeTelemetry.
  rewrite bind_run. cbn [getv fst snd].
  destruct (JsMap.get n2 (nodes (vars c))) as [node |]; [| exact Hin].
  destruct (negb _); [exact Hin |].
  cbn [bind modify ret fst snd vars set_loops loops]. unfold push.
  apply in_or_app. left. exact Hin.
- rewrite bind_run. cbn [getv fst snd].
  destruct (existsb _ _); [| exact Hin].
  destruct (JsMap.has n2 (nodes (vars c))) eqn:Hhas2.
  + destruct (telemetryCallback_registered n2 t2 c Hhas2)
      as (t & _ & _ & _ & Hl & _).
    rewrite Hl. exact Hin.
  + unfold telemetryCallback. rewrite bind_run. cbn [getv fst snd].
    rewrite Hhas2. cbn [negb modify snd vars set_loops loops].
    apply filter_In. split; [exact Hin |]. cbn [fst snd].
    destruct (String.eqb_spec nodeId n2) as [-> | Hne]; [congruence | reflexivity].
Qed.

Lemma step_keeps_registered (a : Action) (nodeId : string) (c : Ctx) :
JsMap.has nodeId (nodes (vars c)) = true ->
JsMap.has nodeId (nodes (vars (snd (step a c)))) = true.
Proof.
intros H. destruct (step_nodes a c) as [(node & _ & E) | Hm].
- rewrite E. apply has_set. exact H.
- rewrite (has_marked _ _ nodeId Hm). exact H.
Qed.

(** X23.  The bridge never forgets a node and never cancels the
  telemetry loop of a registered node: over any sequence of calls and
  timer firings, a registered node stays registered and its loop stays
  armed. *)
Theorem registered_node_and_its_loop_persist
  (actions : list Action) (nodeId topic : string) (c : Ctx) :
JsMap.has nodeId (nodes (vars c)) = true ->
In (nodeId, topic) (loops (vars c)) ->
let c' := snd (run actions c) in
JsMap.has nodeId (nodes (vars c')) = true /\ In (nodeId, topic) (loops (vars c')).
Proof.
intros Hhas Hin c'. subst c'. revert c Hhas Hin.
induction actions as [| a rest IH]; intros c Hhas Hin; [auto |].
cbn [run]. rewrite bind_run. apply IH.
- apply step_keeps_registered. exact Hhas.
- apply step_keeps_loop; assumption.
Qed.

Lemma registered_node_witness :
In (n1_id, "flow") (loops (vars (snd (run [MarkNodeOffline n1_id; HeartbeatTick;
                                            TelemetryTick n1_id "flow"]
                                       (after_rounds 1))))).
Proof.
apply (registered_node_and_its_loop_persist
         [MarkNodeOffline n1_id; HeartbeatTick; TelemetryTick n1_id "flow"]
         n1_id "flow" (after_rounds 1)).
- vm_compute. reflexivity.
- vm_compute. left. reflexivity.
Defined.

Lemma step_keeps_offline (a : Action) (nodeId : string) (c : Ctx) :
registers nodeId a = false ->
health_of nodeId c = Some h_offline ->
health_of nodeId (snd (step a c)) = Some h_offline.
Proof.
unfold health_of. intros Hreg H.
destruct (step_nodes a c) as [(node & -> & E) | Hm].
- rewrite E. cbn [registers] in Hreg. apply String.eqb_neq in Hreg.
  rewrite get_set_other by congruence. exact H.
- apply (marked_keeps
           (fun m => option_map health (JsMap.get nodeId m) = Some h_offline)
           _ _) with (2 := Hm); [| exact H].
  intros m0 k t H0. destruct (String.eqb_spec nodeId k) as [-> | Hne].
  + rewrite get_update_same.
    destruct (JsMap.get k m0); [reflexivity | discriminate].
  + rewrite get_update_other by exact Hne. exact H0.
Qed.

(** X24.  Offline is final: unless the node is registered again, no
  call and no timer brings a node that is offline back to another
  health. *)
Theorem offline_node_stays_offline
  (actions : list Action) (nodeId : string) (c : Ctx) :
health_of nodeId c = Some h_offline ->
existsb (registers nodeId) actions = false ->
health_of nodeId (snd (run actions c)) = Some h_offline.
Proof.
revert c. induction actions as [| a rest IH]; intros c H Hreg; [exact H |].
cbn [existsb] in Hreg. apply orb_false_iff in Hreg. destruct Hreg as [Ha Hrest].
cbn [run]. rewrite bind_run. apply IH; [| exact Hrest].
apply step_keeps_offline; assumption.
Qed.

Lemma offline_node_witness :
health_of n1_id
  (snd (run [TelemetryTick n1_id "flow"; RegisterNode gateway; HeartbeatTick]
          (after_rounds 18)))
= Some h_offline.
Proof.
apply (offline_node_stays_offline
         [TelemetryTick n1_id "flow"; RegisterNode gateway; HeartbeatTick]
         n1_id (after_rounds 18)).
- vm_compute. reflexivity.
- vm_compute. reflexivity.
Defined.

Lemma sweep_spec (now : Z) (nodeIds : list string) :
forall (c : Ctx) (nodeId : string) (n : ROS2Node),
JsMap.get nodeId (nodes (vars c)) = Some n ->
let m' := nodes (vars (snd (sweep now nodeIds c))) in
(stale now n = false -> JsMap.get nodeId m' = Some n) /\
(stale now n = true -> In nodeId nodeIds ->
 exists t, JsMap.get nodeId m' = Some (offline_at t n)) /\
(JsMap.get nodeId m' = Some n \/
 exists t, JsMap.get nodeId m' = Some (offline_at t n)).
Proof.
induction nodeIds as [| k rest IH]; intros c nodeId n Hget m'; subst m'.
- cbn [sweep ret snd]. split; [auto |]. split; [intros _ [] | auto].
- cbn [sweep]. rewrite !bind_run. cbn [getv fst snd].
  set (visit := match JsMap.get k (nodes (vars c)) with
                | Some node => if stale now node then markNodeOffline k else ret tt
                | None => ret tt
                end).
  set (c1 := snd (visit c)).
  destruct (String.eqb_spec nodeId k) as [-> | Hne].
  + destruct (stale now n) eqn:Hst.
    * assert (H1 : JsMap.get k (nodes (vars c1))
                   = Some (offline_at (time_at (env c) (reads (env c))) n)).
      { subst c1 visit. rewrite Hget, Hst, markNodeOffline_nodes, get_update_same, Hget.
        reflexivity. }
      destruct (IH c1 k _ H1) as (_ & _ & H3).
      split; [discriminate |].
      assert (H4 : exists t, JsMap.get k (nodes (vars (snd (sweep now rest c1))))
                             = Some (offline_at t n)).
      { destruct H3 as [H3 | (t & H3)];
          [eexists; exact H3 | exists t; rewrite H3; reflexivity]. }
      split; [intros _ _; exact H4 | right; exact H4].
    * assert (H1 : JsMap.get k (nodes (vars c1)) = Some n).
      { subst c1 visit. rewrite Hget, Hst. exact Hget. }
      destruct (IH c1 k n H1) as (Ha & _ & H3).
      split; [intros _; apply Ha; exact Hst |]. split; [discriminate | exact H3].
  + assert (H1 : JsMap.get nodeId (nodes (vars c1)) = Some n).
    { subst c1 visit.
      destruct (JsMap.get k (nodes (vars c))) as [node |]; [| exact Hget].
      destruct (stale now node); [| exact Hget].
      rewrite markNodeOffline_nodes, get_update_other by exact Hne. exact Hget. }
    destruct (IH c1 nodeId n H1) as (Ha & Hb & H3).
    split; [exact Ha |]. split; [| exact H3].
    intros Hst [E | Hin]; [congruence | auto].
Qed.

(** X25.  One firing of the heartbeat monitor marks offline, with a
  fresh [lastSeen], exactly the nodes last seen more than 60 seconds
  before it, and leaves every other node as it was. *)
Theorem heartbeat_marks_exactly_the_stale_nodes
  (c : Ctx) (nodeId : string) (n : ROS2Node) :
JsMap.get nodeId (nodes (vars c)) = Some n ->
let now := time_at (env c) (reads (env c)) in
let m' := nodes (vars (snd (heartbeatCallback c))) in
if stale now n
then exists t, JsMap.get nodeId m' = Some (offline_at t n)
else JsMap.get nodeId m' = Some n.
Proof.
intros Hget now m'. subst m'. unfold heartbeatCallback.
rewrite !bind_run. cbn [dateNow getv fst snd vars].
fold now.
match goal with
| |- context [sweep now ?l ?c0] =>
    destruct (sweep_spec now l c0 nodeId n Hget) as (Ha & Hb & _)
end.
destruct (stale now n).
- apply Hb; [reflexivity |]. apply (get_in_keys _ _ _ Hget).
- apply Ha. reflexivity.
Qed.

Lemma heartbeat_witness :
(exists t, JsMap.get (node_key silent) (nodes (vars (snd (heartbeatCallback two_nodes))))
           = Some (offline_at t silent)) /\
JsMap.get (node_key gateway) (nodes (vars (snd (heartbeatCallback two_nodes))))
= Some gateway.
Proof.
split.
- apply (heartbeat_marks_exactly_the_stale_nodes two_nodes (node_key silent) silent).
  vm_compute. reflexivity.
- apply (heartbeat_marks_exactly_the_stale_nodes two_nodes (node_key gateway) gateway).
  vm_compute. reflexivity.
Defined.

(** X26.  A command for an unknown node, or on a topic that the node
  does not list under [publish], is refused with a message and leaves
  no trace: no result on record, no timer, no event.  The same holds
  for a subscription to an unknown node or to a topic that the node
  does not list under [subscribe]. *)
Theorem refused_calls_leave_no_trace
  (cmd : ROS2Command) (nodeId topic : string) (c : Ctx) :
(forall node, JsMap.get (c_nodeId cmd) (nodes (vars c)) = Some node ->
              mem (c_topic cmd) (publish node) = false) ->
(forall node, JsMap.get nodeId (nodes (vars c)) = Some node ->
              mem topic (subscribe node) = false) ->
(exists msg, publishCommand cmd c = (inl msg, c)) /\
(exists msg, subscribeTelemetry nodeId topic c = (inl msg, c)).
Proof.
intros Hc Hs. split.
- unfold publishCommand, bind, getv.
  destruct (JsMap.get (c_nodeId cmd) (nodes (vars c))) as [node |];
    [rewrite (Hc node eq_refl) |]; eexists; reflexivity.
- unfold subscribeTelemetry, bind, getv.
  destruct (JsMap.get nodeId (nodes (vars c))) as [node |];
    [rewrite (Hs node eq_refl) |]; eexists; reflexivity.
Qed.

Lemma refused_calls_witness :
(exists msg, publishCommand
               (mkCommand (node_key gateway) "/cmd/pump" "start" "{}" p_normal None)
               with_gateway = (inl msg, with_gateway)) /\
(exists msg, subscribeTelemetry "/field/unknown" "flow" with_gateway
             = (inl msg, with_gateway)).
Proof.
apply (refused_calls_leave_no_trace
         (mkCommand (node_key gateway) "/cmd/pump" "start" "{}" p_normal None)
         "/field/unknown" "flow" with_gateway).
- intros node H. vm_compute in H. inversion H. reflexivity.
- intros node H. vm_compute in H. discriminate.
Defined.





End Ros2More.
